(** * Peekaboo attendance and salary engine: a shallow embedding

    The development follows the TypeScript sources.  The repository holds
    two revisions of the processor and of the results component; the
    later ones are the engine that is verified, the earlier ones are kept
    beside them.

    - The payroll processor, later revision ([src/types.ts], lines 477 to
      740, the text that imports from [../types]): [setTimeOnDate],
      [startOfDayNative], [extractTimeComponents], [robustParseDate],
      [parseCurrency] and the two passes of [processPayroll], here
      [groupRow] and [shiftOfGroup].
    - The manager actions of the results component: [toggleWaiver] and
      [addManagerNote] of the later revision ([src/unnamed/part_001],
      lines 82 to 99), [applyOtherPenalty] and [removePenalty] of the
      earlier one ([src/components/PayrollResults.tsx], lines 214 to 245).
    - The earlier revision of the processor
      ([src/services/payrollProcessor.ts]), in module [Legacy].
    - The column mapping [FORCE_MAPPING] of the application
      ([src/types.ts], lines 264 to 271).

    Modelling conventions.

    - Text is ASCII: a JavaScript string is a [string], [\s] is the ASCII
      white space, [\d] the ASCII digits.
    - A JavaScript number that holds a count of minutes or milliseconds is
      a [Z]; every other number is an exact rational [Qc].  Rounding,
      overflow and the non-finite doubles are outside the model.
    - A [Date] is the number of milliseconds of local wall-clock time
      since 1970-01-01T00:00 local, in a zone with a fixed offset.  The
      processor only reads local fields and differences of instants, so
      the offset itself never appears.
    - A raw row is a finite map from header to cell; a header is not the
      name of a property that every JavaScript object inherits.
    - What the host decides is a parameter: the reading of a date by
      [new Date(text)] and by date-fns [parse], the draws of
      [Math.random], the collation of [localeCompare]. *)

From Stdlib Require Import ZArith QArith Qcanon Qround Lia Ascii String List.
From Stdlib Require Import DecimalString.
From stdpp Require Import base option list strings gmap.

Local Open Scope string_scope.
Local Open Scope Z_scope.

(** ** Characters and strings *)

Definition chars (s : string) : list ascii := list_ascii_of_string s.
Definition text (l : list ascii) : string := string_of_list_ascii l.

Definition code (c : ascii) : nat := nat_of_ascii c.

(** [\s] on ASCII text: space, and the controls TAB, LF, VT, FF, CR. *)
Definition isSpace (c : ascii) : bool :=
  (code c =? 32)%nat || ((9 <=? code c)%nat && (code c <=? 13)%nat).

(** [\d] *)
Definition isDigit (c : ascii) : bool :=
  (48 <=? code c)%nat && (code c <=? 57)%nat.

Definition digitVal (c : ascii) : Z := Z.of_nat (code c) - 48.

Definition isUpper (c : ascii) : bool :=
  (65 <=? code c)%nat && (code c <=? 90)%nat.

Definition lowerChar (c : ascii) : ascii :=
  if isUpper c then ascii_of_nat (code c + 32) else c.

Definition upperChar (c : ascii) : ascii :=
  if (97 <=? code c)%nat && (code c <=? 122)%nat
  then ascii_of_nat (code c - 32) else c.

(** [String.prototype.toLowerCase] *)
Definition toLowerCase (s : string) : string := text (map lowerChar (chars s)).

Fixpoint dropSpaces (l : list ascii) : list ascii :=
  match l with
  | c :: l' => if isSpace c then dropSpaces l' else l
  | [] => []
  end.

Definition trimChars (l : list ascii) : list ascii :=
  rev (dropSpaces (rev (dropSpaces l))).

(** [String.prototype.trim] *)
Definition trim (s : string) : string := text (trimChars (chars s)).

(** [s.replace(/\s+/g, ' ')]: every maximal run of white space becomes one
    space; [inRun] says that the previous character was white space. *)
Fixpoint collapseFrom (inRun : bool) (l : list ascii) : list ascii :=
  match l with
  | c :: l' =>
      if isSpace c
      then (if inRun then collapseFrom true l' else " "%char :: collapseFrom true l')
      else c :: collapseFrom false l'
  | [] => []
  end.

Definition collapseSpaces (s : string) : string :=
  text (collapseFrom false (chars s)).

(** JavaScript truthiness of a string: the empty string is falsy. *)
Definition truthy (s : string) : bool :=
  match s with EmptyString => false | _ => true end.

(** [v || d] on a cell that may be [undefined]. *)
Definition orElse (v : option string) (d : string) : string :=
  match v with
  | Some s => if truthy s then s else d
  | None => d
  end.

(** The double-quote character, for the log messages. *)
Definition dquote : string := String (ascii_of_nat 34) EmptyString.

(** ** Numbers *)

Definition num (z : Z) : Qc := Qc_of_Z z.

(** [Math.max(0, x)] *)
Definition max0 (x : Qc) : Qc := if Qclt_le_dec x 0 then 0%Qc else x.

(** [x > 0] *)
Definition positiveQc (x : Qc) : bool := if Qclt_le_dec 0 x then true else false.

(** ** Dates *)

Definition Date := Z.

Definition msPerSecond : Z := 1000.
Definition msPerMinute : Z := 60000.
Definition msPerHour : Z := 3600000.
Definition msPerDay : Z := 86400000.

(** [d.setHours(0, 0, 0, 0)] on a copy *)
Definition startOfDayNative (date : Date) : Date := date - date mod msPerDay.

(** [d.setHours(hours, minutes, seconds, 0)] on a copy.  Fields outside
    their usual range carry over, as [MakeTime] has it. *)
Definition setTimeOnDate (date : Date) (hours minutes seconds : Z) : Date :=
  startOfDayNative date + hours * msPerHour + minutes * msPerMinute
  + seconds * msPerSecond.

Definition getHours (d : Date) : Z := (d mod msPerDay) / msPerHour.
Definition getMinutes (d : Date) : Z := (d mod msPerHour) / msPerMinute.

(** [getDay]: 0 is Sunday; 1970-01-01 was a Thursday. *)
Definition getDay (d : Date) : Z := (d / msPerDay + 4) mod 7.

(** date-fns [toInteger]: [Math.ceil] below zero, [Math.floor] otherwise. *)
Definition toInteger (q : Q) : Z :=
  if Qlt_le_dec q 0 then Qceiling q else Qfloor q.

(** date-fns [addDays(date, amount)].  The library adds whole days: its
    documentation has positive decimals rounded with [Math.floor] and
    negative ones with [Math.ceil] ([toInteger] in date-fns 2; from
    date-fns 3 on the sum of the day of the month and the amount goes to
    [Date.prototype.setDate], whose [MakeDay] applies
    [ToIntegerOrInfinity]).  A fraction of a day is dropped, and the time
    within the day is kept. *)
Definition addDays (date : Date) (amount : Q) : Date :=
  date + toInteger amount * msPerDay.

(** date-fns [differenceInMinutes]: the difference in milliseconds over
    60000, truncated towards zero. *)
Definition differenceInMinutes (dateLeft dateRight : Date) : Z :=
  Z.quot (dateLeft - dateRight) msPerMinute.

(** ** Time cells *)

Record TimeComponents := mkTime { hours : Z; minutes : Z; seconds : Z }.

(** [(\d{1,2})]: the ways to read one or two digits at the head, the
    greedy one first. *)
Definition digits12 (l : list ascii) : list (Z * list ascii) :=
  match l with
  | a :: b :: r =>
      if isDigit a then
        if isDigit b
        then [(10 * digitVal a + digitVal b, r); (digitVal a, b :: r)]
        else [(digitVal a, b :: r)]
      else []
  | [a] => if isDigit a then [(digitVal a, [])] else []
  | [] => []
  end.

(** [[:.]] *)
Definition isSep (c : ascii) : bool :=
  (code c =? 58)%nat || (code c =? 46)%nat.

Inductive AmPm := AM | PM.

(** [(AM|PM)?] under the [i] flag *)
Definition ampmAt (l : list ascii) : option AmPm :=
  match l with
  | a :: m :: _ =>
      if (code (upperChar m) =? 77)%nat then
        if (code (upperChar a) =? 65)%nat then Some AM
        else if (code (upperChar a) =? 80)%nat then Some PM
        else None
      else None
  | _ => None
  end.

(** What follows the hour: [[:.](\d{1,2})(?:[:.](\d{1,2}))?\s*(AM|PM)?].
    Everything after the minutes may match the empty string, so the greedy
    reading of each piece is the one the engine returns. *)
Definition afterHours (l : list ascii)
  : option (Z * option Z * option AmPm) :=
  match l with
  | s :: r =>
      if isSep s then
        match digits12 r with
        | (mi, r1) :: _ =>
            let '(se, r2) :=
              match r1 with
              | s2 :: r1' =>
                  if isSep s2 then
                    match digits12 r1' with
                    | (sec, r2) :: _ => (Some sec, r2)
                    | [] => (None, r1)
                    end
                  else (None, r1)
              | [] => (None, r1)
              end in
            Some (mi, se, ampmAt (dropSpaces r2))
        | [] => None
        end
      else None
  | [] => None
  end.

(** The pattern tried at the head of [l]: the hour backtracks from two
    digits to one. *)
Fixpoint firstHour (alts : list (Z * list ascii))
  : option (Z * (Z * option Z * option AmPm)) :=
  match alts with
  | (h, r) :: alts' =>
      match afterHours r with
      | Some m => Some (h, m)
      | None => firstHour alts'
      end
  | [] => None
  end.

Definition matchTimeAt (l : list ascii) := firstHour (digits12 l).

(** [cleaned.match(...)]: the leftmost position where the pattern matches. *)
Fixpoint matchTime (l : list ascii)
  : option (Z * (Z * option Z * option AmPm)) :=
  match matchTimeAt l with
  | Some m => Some m
  | None => match l with _ :: l' => matchTime l' | [] => None end
  end.

(** [extractTimeComponents]; [None] as argument is a cell that is
    [undefined]. *)
Definition extractTimeComponents (timeStr : option string)
  : option TimeComponents :=
  match timeStr with
  | None => None
  | Some timeStr =>
      if negb (truthy timeStr) || negb (truthy (trim timeStr)) then None
      else
        match matchTime (chars (trim timeStr)) with
        | Some (h, (mi, se, ampm)) =>
            let seconds := match se with Some s => s | None => 0 end in
            let hours :=
              match ampm with
              | Some PM => if h <? 12 then h + 12 else h
              | Some AM => if h =? 12 then 0 else h
              | None => h
              end in
            Some (mkTime hours mi seconds)
        | None => None
        end
  end.

Example extract_1105 :
  extractTimeComponents (Some "11:05") = Some (mkTime 11 5 0).
Proof. reflexivity. Qed.

Example extract_pm :
  extractTimeComponents (Some " 3.10.07 pm") = Some (mkTime 15 10 7).
Proof. reflexivity. Qed.

Example extract_midnight :
  extractTimeComponents (Some "12:00 AM") = Some (mkTime 0 0 0).
Proof. reflexivity. Qed.

Example extract_inside :
  extractTimeComponents (Some "at 123:4x") = Some (mkTime 23 4 0).
Proof. reflexivity. Qed.

Example extract_none :
  extractTimeComponents (Some "noon") = None
  /\ extractTimeComponents (Some "  ") = None
  /\ extractTimeComponents None = None.
Proof. repeat split; reflexivity. Qed.

(** ** Decimal text *)

(** [String(n)] for a natural number. *)
Definition showNat (n : Z) : string :=
  NilEmpty.string_of_uint (N.to_uint (Z.to_N n)).

(** [padStart(width, '0')] *)
Fixpoint padZeros (fuel : nat) (width : nat) (s : string) : string :=
  match fuel with
  | O => s
  | S fuel' =>
      if (String.length s <? width)%nat
      then padZeros fuel' width (String "0" s) else s
  end.

(** date-fns [addLeadingZeros] *)
Definition addLeadingZeros (n : Z) (targetLength : nat) : string :=
  (if n <? 0 then "-" else "")
  ++ padZeros targetLength targetLength (showNat (Z.abs n)).

Fixpoint takeDigits (l : list ascii) : list ascii * list ascii :=
  match l with
  | c :: l' =>
      if isDigit c
      then let '(ds, r) := takeDigits l' in (c :: ds, r)
      else ([], l)
  | [] => ([], [])
  end.

Definition digitsVal (ds : list ascii) : Z :=
  fold_left (fun acc c => 10 * acc + digitVal c) ds 0.

(** ** [parseFloat] *)

Inductive Parsed :=
| PNaN
| PNum (q : Qc)
| PInfinite.

Definition startsWith (p l : list ascii) : bool :=
  bool_decide (take (length p) l = p).

(** The exponent part [[eE][+-]?\d+], when it is complete. *)
Definition exponentOf (l : list ascii) : Z :=
  match l with
  | e :: r =>
      if (code (upperChar e) =? 69)%nat then
        let '(neg, r') :=
          match r with
          | s :: r' =>
              if (code s =? 45)%nat then (true, r')
              else if (code s =? 43)%nat then (false, r')
              else (false, r)
          | [] => (false, r)
          end in
        match fst (takeDigits r') with
        | [] => 0
        | ds => if neg then - digitsVal ds else digitsVal ds
        end
      else 0
  | [] => 0
  end.

(** [parseFloat]: leading white space, a sign, then the longest prefix
    that is a decimal literal. *)
Definition parseFloat (s : string) : Parsed :=
  let l := dropSpaces (chars s) in
  let '(neg, l) :=
    match l with
    | c :: l' =>
        if (code c =? 45)%nat then (true, l')
        else if (code c =? 43)%nat then (false, l')
        else (false, l)
    | [] => (false, l)
    end in
  if startsWith (chars "Infinity") l then PInfinite
  else
    let '(ip, r) := takeDigits l in
    let '(fp, r') :=
      match r with
      | d :: r0 =>
          if (code d =? 46)%nat then takeDigits r0 else ([], r)
      | [] => ([], r)
      end in
    match ip, fp with
    | [], [] => PNaN
    | _, _ =>
        let mant := digitsVal (ip ++ fp)%list in
        let scale := Z.to_pos (10 ^ Z.of_nat (length fp)) in
        let q := (Qmake mant scale * Qpower (inject_Z 10) (exponentOf r'))%Q in
        PNum (Q2Qc (if neg then Qopp q else q))
    end.

Definition isNaN (p : Parsed) : bool :=
  match p with PNaN => true | _ => false end.

(** Equality of model numbers is decided on the reduced fractions. *)
Lemma Qc_decide (x y : Qc) : Qeq_bool x y = true -> x = y.
Proof. intros H. apply Qc_is_canon. now apply Qeq_bool_eq. Qed.

Ltac qc_compute := apply Qc_decide; vm_compute; reflexivity.

Example parseFloat_examples :
  parseFloat "12.5" = PNum (Q2Qc (25 # 2))
  /\ parseFloat " -3" = PNum (num (-3))
  /\ parseFloat ".5x" = PNum (Q2Qc (1 # 2))
  /\ parseFloat "5." = PNum (num 5)
  /\ parseFloat "1.2.3" = PNum (Q2Qc (6 # 5))
  /\ parseFloat "2e3" = PNum (num 2000)
  /\ parseFloat "2e" = PNum (num 2)
  /\ parseFloat "25e-1" = PNum (Q2Qc (5 # 2))
  /\ parseFloat "." = PNaN
  /\ parseFloat "-" = PNaN
  /\ parseFloat "" = PNaN
  /\ parseFloat "abc" = PNaN
  /\ parseFloat "-Infinity" = PInfinite.
Proof.
  repeat split; try reflexivity; cbv [parseFloat]; (f_equal; qc_compute).
Qed.

(** ** Calendar *)

(** Days since 1970-01-01 of day [d] of month [m] (1 is January) of year
    [y], in the proleptic Gregorian calendar. *)
Definition daysFromCivil (y m d : Z) : Z :=
  let y' := if m <=? 2 then y - 1 else y in
  let era := y' / 400 in
  let yoe := y' - era * 400 in
  let mp := if 2 <? m then m - 3 else m + 9 in
  let doy := (153 * mp + 2) / 5 + d - 1 in
  let doe := yoe * 365 + yoe / 4 - yoe / 100 + doy in
  era * 146097 + doe - 719468.

(** Year, month (1 is January) and day of the month of a day number. *)
Definition civilFromDays (z : Z) : Z * Z * Z :=
  let z := z + 719468 in
  let era := z / 146097 in
  let doe := z - era * 146097 in
  let yoe := (doe - doe / 1460 + doe / 36524 - doe / 146096) / 365 in
  let doy := doe - (365 * yoe + yoe / 4 - yoe / 100) in
  let mp := (5 * doy + 2) / 153 in
  let d := doy - (153 * mp + 2) / 5 + 1 in
  let m := if mp <? 10 then mp + 3 else mp - 9 in
  ((if m <=? 2 then yoe + era * 400 + 1 else yoe + era * 400), m, d).

Definition getFullYear (d : Date) : Z := fst (fst (civilFromDays (d / msPerDay))).
Definition getMonth (d : Date) : Z := snd (fst (civilFromDays (d / msPerDay))) - 1.
Definition getDate (d : Date) : Z := snd (civilFromDays (d / msPerDay)).

(** The largest distance from the epoch that a [Date] can hold. *)
Definition maxTime : Z := 8640000000000000.

(** [new Date(year, monthIndex, day)] on numbers that may be [NaN]
    ([None]): local midnight; months and days outside their range carry
    over ([MakeDay]); a year from 0 to 99 means 1900 + year; an instant
    beyond [maxTime] is not a valid date ([TimeClip], taken here on the
    local instant). *)
Definition newDateYMD (year monthIndex day : option Z) : option Date :=
  match year, monthIndex, day with
  | Some y, Some m, Some d =>
      let y := if (0 <=? y) && (y <=? 99) then 1900 + y else y in
      let ym := y + m / 12 in
      let mn := m mod 12 in
      let t := (daysFromCivil ym (mn + 1) 1 + d - 1) * msPerDay in
      if Z.abs t <=? maxTime then Some t else None
  | _, _, _ => None
  end.

(** date-fns [format(date, 'yyyy-MM-dd')] *)
Definition formatIsoDay (d : Date) : string :=
  let signedYear := getFullYear d in
  let year := if 0 <? signedYear then signedYear else 1 - signedYear in
  addLeadingZeros year 4 ++ "-" ++ addLeadingZeros (getMonth d + 1) 2
  ++ "-" ++ addLeadingZeros (getDate d) 2.

Example calendar_examples :
  newDateYMD (Some 2024) (Some 2) (Some 5) = Some (19787 * msPerDay)
  /\ formatIsoDay (19787 * msPerDay + 11 * msPerHour) = "2024-03-05"
  /\ getDay (19787 * msPerDay) = 2
  /\ newDateYMD (Some 2023) (Some 13) (Some 30) = Some (19783 * msPerDay)
  /\ formatIsoDay (19783 * msPerDay) = "2024-03-01"
  /\ formatIsoDay 0 = "1970-01-01"
  /\ formatIsoDay (-1) = "1969-12-31"
  /\ newDateYMD (Some 2024) None (Some 1) = None.
Proof. repeat split; vm_compute; reflexivity. Qed.

(** ** [parseInt] *)

Definition isHexDigit (c : ascii) : bool :=
  isDigit c || ((65 <=? code (upperChar c))%nat && (code (upperChar c) <=? 70)%nat).

Definition hexVal (c : ascii) : Z :=
  if isDigit c then digitVal c else Z.of_nat (code (upperChar c)) - 55.

Fixpoint takeHex (l : list ascii) : list ascii :=
  match l with
  | c :: l' => if isHexDigit c then c :: takeHex l' else []
  | [] => []
  end.

(** [parseInt(s)] with no radix: white space, a sign, then a [0x] prefix
    with hexadecimal digits or else decimal digits; [None] is [NaN]. *)
Definition parseInt (s : string) : option Z :=
  let l := dropSpaces (chars s) in
  let '(neg, l) :=
    match l with
    | c :: l' =>
        if (code c =? 45)%nat then (true, l')
        else if (code c =? 43)%nat then (false, l')
        else (false, l)
    | [] => (false, l)
    end in
  let digits :=
    match l with
    | z :: x :: l' =>
        if (code z =? 48)%nat && (code (upperChar x) =? 88)%nat
        then match takeHex l' with
             | [] => None
             | hs => Some (fold_left (fun acc c => 16 * acc + hexVal c) hs 0)
             end
        else match fst (takeDigits l) with
             | [] => None
             | ds => Some (digitsVal ds)
             end
    | _ => match fst (takeDigits l) with
           | [] => None
           | ds => Some (digitsVal ds)
           end
    end in
  match digits with
  | Some v => Some (if neg then - v else v)
  | None => None
  end.

Example parseInt_examples :
  parseInt "2024" = Some 2024 /\ parseInt "07th" = Some 7
  /\ parseInt "0x1f" = Some 31 /\ parseInt "" = None
  /\ parseInt "N" = None /\ parseInt " -12" = Some (-12).
Proof. repeat split; reflexivity. Qed.

(** ** Rows, column mapping, log and ledger records *)

Abbreviation AttendanceRecord := (gmap string string).

Module ColumnMapping.
Record t := mk {
  name : string;
  date : string;
  checkIn : string;
  checkOut : string;
  paid : string;
  penalty : option string
}.
End ColumnMapping.

Inductive LogType :=
| MIDNIGHT_ADJUST
| HEADER_FIX
| TIME_INTERPOLATION
| NAME_NORMALIZATION.

Record CleansingLog := mkLog { type : LogType; message : string }.

Inductive ShiftType := A | B | C.

Module DayShift.
Record t := mk {
  id : string;
  date : string;
  name : string;
  actualIn : Date;
  actualOut : Date;
  shiftType : ShiftType;
  shiftStart : Date;
  latenessMinutes : Z;
  earlyMinutes : Qc;
  workHours : Qc;
  durationHours : Qc;
  otHours : Qc;
  otPay : Qc;
  standardPay : Qc;
  attendancePenalty : Qc;
  manualPenalty : Qc;
  manualAdjustment : Qc;
  penaltyWaiver : Qc;
  adjustmentNote : option string;
  netPay : Qc;
  amountPaid : Qc;
  balanceRemaining : Qc
}.

(** The spread updates [{ ...l, field: v }] that the manager actions use. *)
Definition withPenaltyWaiver (v : Qc) (l : t) : t :=
  mk (id l) (date l) (name l) (actualIn l) (actualOut l) (shiftType l)
     (shiftStart l) (latenessMinutes l) (earlyMinutes l) (workHours l)
     (durationHours l) (otHours l) (otPay l) (standardPay l)
     (attendancePenalty l) (manualPenalty l) (manualAdjustment l) v
     (adjustmentNote l) (netPay l) (amountPaid l) (balanceRemaining l).

Definition withManualAdjustment (v : Qc) (l : t) : t :=
  mk (id l) (date l) (name l) (actualIn l) (actualOut l) (shiftType l)
     (shiftStart l) (latenessMinutes l) (earlyMinutes l) (workHours l)
     (durationHours l) (otHours l) (otPay l) (standardPay l)
     (attendancePenalty l) (manualPenalty l) v (penaltyWaiver l)
     (adjustmentNote l) (netPay l) (amountPaid l) (balanceRemaining l).

Definition withAdjustmentNote (v : string) (l : t) : t :=
  mk (id l) (date l) (name l) (actualIn l) (actualOut l) (shiftType l)
     (shiftStart l) (latenessMinutes l) (earlyMinutes l) (workHours l)
     (durationHours l) (otHours l) (otPay l) (standardPay l)
     (attendancePenalty l) (manualPenalty l) (manualAdjustment l)
     (penaltyWaiver l) (Some v) (netPay l) (amountPaid l)
     (balanceRemaining l).

Definition withNetPay (v : Qc) (l : t) : t :=
  mk (id l) (date l) (name l) (actualIn l) (actualOut l) (shiftType l)
     (shiftStart l) (latenessMinutes l) (earlyMinutes l) (workHours l)
     (durationHours l) (otHours l) (otPay l) (standardPay l)
     (attendancePenalty l) (manualPenalty l) (manualAdjustment l)
     (penaltyWaiver l) (adjustmentNote l) v (amountPaid l)
     (balanceRemaining l).

Definition withBalanceRemaining (v : Qc) (l : t) : t :=
  mk (id l) (date l) (name l) (actualIn l) (actualOut l) (shiftType l)
     (shiftStart l) (latenessMinutes l) (earlyMinutes l) (workHours l)
     (durationHours l) (otHours l) (otPay l) (standardPay l)
     (attendancePenalty l) (manualPenalty l) (manualAdjustment l)
     (penaltyWaiver l) (adjustmentNote l) (netPay l) (amountPaid l) v.

End DayShift.

(** The two parts of [PayrollResult] that the ledger is made of.  The
    other fields (summaries, monthly statistics, insights, totals and the
    date range) are what the aggregation pass computes from
    [detailedLogs]; that pass is not part of this development. *)
Record PayrollResult := mkResult {
  detailedLogs : list DayShift.t;
  cleansingLogs : list CleansingLog
}.

(** A group of rows of one employee on one day: the array [grouped[key]]
    with its two extra properties. *)
Record Group := mkGroup {
  displayName : string;
  parsedDate : Date;
  records : list AttendanceRecord
}.

(** ** Shift classification and penalty tiers *)

Definition totalMinutesOfDay (actualIn : Date) : Z :=
  getHours actualIn * 60 + getMinutes actualIn.

(** The branch of [processPayroll] that picks the shift type and its
    nominal start from the arrival. *)
Definition classifyShift (actualIn : Date) : ShiftType * Date :=
  if totalMinutesOfDay actualIn <? 10 * 60 + 30 then
    (A, setTimeOnDate (startOfDayNative actualIn) 10 0 0)
  else if totalMinutesOfDay actualIn <=? 12 * 60 + 30 then
    (C, setTimeOnDate (startOfDayNative actualIn) 11 0 0)
  else
    let isThuFri := (getDay actualIn =? 4) || (getDay actualIn =? 5) in
    (B, setTimeOnDate (startOfDayNative actualIn) (if isThuFri then 15 else 14) 0 0).

(** The tier ladder on [latenessMinutes]. *)
Definition penaltyOf (latenessMinutes : Z) : Z :=
  if 60 <=? latenessMinutes then 10
  else if 20 <=? latenessMinutes then 5
  else if 10 <=? latenessMinutes then 3
  else 0.

Definition latenessOf (actualIn shiftStart : Date) : Z :=
  Z.max 0 (differenceInMinutes actualIn shiftStart).

(** [Math.min(...xs)] and [Math.max(...xs)] on a list with a head. *)
Definition minOf (x : Z) (xs : list Z) : Z := fold_left Z.min xs x.
Definition maxOf (x : Z) (xs : list Z) : Z := fold_left Z.max xs x.

(** Hours between two instants, [(b - a) / (1000 * 60 * 60)]. *)
Definition hoursBetween (a b : Date) : Qc := Q2Qc (Qmake (b - a) 3600000).

Definition otRate : Qc := Q2Qc (156 # 100).
Definition BREAK_HOURS : Qc := 1%Qc.

(** ** Cell parsers *)

(** The replacement that removes a pair of enclosing double quotes: the
    pattern is a quote at the start, any run of characters of one line
    and a quote at the end, so nothing between the two may end a line. *)
Definition isLineEnd (c : ascii) : bool :=
  (code c =? 10)%nat || (code c =? 13)%nat.

Definition stripQuotes (s : string) : string :=
  match chars s with
  | q :: r =>
      match rev r with
      | q' :: mid =>
          if (code q =? 34)%nat && (code q' =? 34)%nat
             && forallb (fun c => negb (isLineEnd c)) mid
          then text (rev mid) else s
      | [] => s
      end
  | [] => s
  end.

(** [s.split(re)] for a pattern [re] that matches one separator
    ([merge = false]) or a run of separators ([merge = true]). *)
Fixpoint splitGo (isSepChar : ascii -> bool) (merge : bool)
    (inRun : bool) (cur : list ascii) (l : list ascii) : list string :=
  match l with
  | c :: l' =>
      if isSepChar c then
        if merge && inRun then splitGo isSepChar merge true cur l'
        else text (rev cur) :: splitGo isSepChar merge true [] l'
      else splitGo isSepChar merge false (c :: cur) l'
  | [] => [text (rev cur)]
  end.

Definition split (isSepChar : ascii -> bool) (merge : bool) (s : string)
  : list string := splitGo isSepChar merge false [] (chars s).

(** [[-/.]] *)
Definition isDateSep (c : ascii) : bool :=
  (code c =? 45)%nat || (code c =? 47)%nat || (code c =? 46)%nat.

(** [[-/.\s,]] *)
Definition isDateSepWide (c : ascii) : bool :=
  isDateSep c || isSpace c || (code c =? 44)%nat.

Example split_examples :
  split isDateSepWide true "5 / 3 / 2024" = ["5"; "3"; "2024"]
  /\ split isDateSep false "a--b" = ["a"; ""; "b"]
  /\ split isDateSepWide true "-a-" = [""; "a"; ""]
  /\ split isDateSepWide true "N/A" = ["N"; "A"]
  /\ split isDateSep false "" = [""].
Proof. repeat split; reflexivity. Qed.

(** [p > 1000] on a number that may be [NaN] *)
Definition above1000 (p : option Z) : bool :=
  match p with Some v => 1000 <? v | None => false end.

Definition pred (p : option Z) : option Z :=
  match p with Some v => Some (v - 1) | None => None end.

(** [val.toString().replace(/,/g, '').replace(/[^\d.-]/g, '')] *)
Definition moneyChars (s : string) : string :=
  text (filter (fun c => isDigit c || (code c =? 46)%nat || (code c =? 45)%nat)
               (chars s)).

(** [parseCurrency] on a cell; a cell is never a number. *)
Definition parseCurrency (val : option string) : Qc :=
  match val with
  | None => 0%Qc
  | Some s =>
      if negb (truthy s) then 0%Qc
      else match parseFloat (moneyChars s) with
           | PNum q => q
           | _ => 0%Qc
           end
  end.

Example parseCurrency_examples :
  parseCurrency (Some "1,250.50 JD") = Q2Qc (2501 # 2)
  /\ parseCurrency (Some "n/a") = 0%Qc
  /\ parseCurrency (Some "") = 0%Qc
  /\ parseCurrency None = 0%Qc
  /\ parseCurrency (Some "-3") = num (-3).
Proof. repeat split; try reflexivity; qc_compute. Qed.

(** ** The processor *)

Section Engine.

(** The host's [new Date(text)]: [None] when the result is not a valid
    date. *)
Variable nativeDate : string -> option Date.

(** date-fns [parse(text, format, new Date())]: [None] when the result is
    not a valid date. *)
Variable fnsParse : string -> string -> option Date.

(** [Math.random().toString(36).substr(2, 9)]: the identifier that the
    [k]-th draw of a run gives. *)
Variable randomId : nat -> string.

Definition formats : list string :=
  ["yyyy-MM-dd"; "dd/MM/yyyy"; "MM/dd/yyyy"; "d/M/yyyy"; "dd-MM-yyyy";
   "dd.MM.yyyy"; "MMMM d, yyyy"; "MMM d, yyyy"].

Fixpoint firstFormat (cleaned : string) (fs : list string) : option Date :=
  match fs with
  | f :: fs' =>
      match fnsParse cleaned f with
      | Some d => if 2000 <? getFullYear d then Some d
                  else firstFormat cleaned fs'
      | None => firstFormat cleaned fs'
      end
  | [] => None
  end.

Definition robustParseDate (dateStr : string) : option Date :=
  if negb (truthy dateStr) then None
  else
    let cleaned := collapseSpaces (stripQuotes (trim dateStr)) in
    match nativeDate cleaned with
    | Some native => Some native
    | None =>
        match firstFormat cleaned formats with
        | Some d => Some d
        | None =>
            match split isDateSepWide true cleaned with
            | s0 :: s1 :: s2 :: _ =>
                let p0 := parseInt s0 in
                let p1 := parseInt s1 in
                let p2 := parseInt s2 in
                match (if above1000 p0 then newDateYMD p0 (pred p1) p2
                       else None) with
                | Some d => Some d
                | None =>
                    if above1000 p2 then newDateYMD p2 (pred p1) p0
                    else None
                end
            | _ => None
            end
        end
    end.

(** [grouped[key].push(record)], creating the group on first sight.
    The list keeps the keys in the order of their first insertion, which
    is the order [Object.entries] walks them in (a key holds a [|] and is
    never an array index). *)
Fixpoint addToGroup (key nameVal : string) (dateObj : Date)
    (record : AttendanceRecord) (grouped : list (string * Group))
  : list (string * Group) :=
  match grouped with
  | (k, g) :: rest =>
      if String.eqb k key
      then (k, mkGroup (displayName g) (parsedDate g) (records g ++ [record])%list)
           :: rest
      else (k, g) :: addToGroup key nameVal dateObj record rest
  | [] => [(key, mkGroup nameVal dateObj [record])]
  end.

Definition isHeaderName (lowered : string) : bool :=
  String.eqb lowered "name" || String.eqb lowered "employee_name".

Definition dateFailure (nameVal dateVal : string) : CleansingLog :=
  mkLog TIME_INTERPOLATION
    ("Skipping record for " ++ nameVal ++ " due to unparseable date: "
     ++ dquote ++ dateVal ++ dquote).

(** The body of the first [forEach]: one row against the groups and the
    cleansing log built so far. *)
Definition groupRow (mapping : ColumnMapping.t)
    (st : list (string * Group) * list CleansingLog)
    (record : AttendanceRecord)
  : list (string * Group) * list CleansingLog :=
  let nameVal :=
    collapseSpaces (trim (orElse (record !! ColumnMapping.name mapping) "")) in
  if negb (truthy nameVal) || isHeaderName (toLowerCase nameVal) then st
  else
    let dateVal := trim (orElse (record !! ColumnMapping.date mapping) "") in
    if negb (truthy dateVal) then st
    else
      match robustParseDate dateVal with
      | None => (fst st, (snd st ++ [dateFailure nameVal dateVal])%list)
      | Some dateObj =>
          let normDate := formatIsoDay dateObj in
          let key := toLowerCase nameVal ++ "|" ++ normDate in
          (addToGroup key nameVal dateObj record (fst st), snd st)
      end.

Definition groupRows (mapping : ColumnMapping.t)
    (rawRecords : list AttendanceRecord)
  : list (string * Group) * list CleansingLog :=
  fold_left (groupRow mapping) rawRecords ([], []).

(** [records.reduce((sum, r) => sum + f(r), 0)] *)
Definition sumOver (f : AttendanceRecord -> Qc)
    (rs : list AttendanceRecord) : Qc :=
  fold_left (fun sum r => (sum + f r)%Qc) rs 0%Qc.

Definition timesOf (column : string) (rs : list AttendanceRecord)
  : list TimeComponents :=
  omap (fun r : AttendanceRecord => extractTimeComponents (r !! column)) rs.

Definition penaltyColumn (mapping : ColumnMapping.t) : string :=
  match ColumnMapping.penalty mapping with
  | Some p => if truthy p then p else "Penalty"
  | None => "Penalty"
  end.

Definition onDate (dateObj : Date) (t : TimeComponents) : Date :=
  setTimeOnDate dateObj (hours t) (minutes t) (seconds t).

(** The body of the second [forEach]: the shift of one group, under the
    identifier drawn for it. *)
Definition shiftOfGroup (mapping : ColumnMapping.t) (newId : string)
    (g : Group) : DayShift.t :=
  let dateObj := parsedDate g in
  let checkInTimes := timesOf (ColumnMapping.checkIn mapping) (records g) in
  let checkOutTimes := timesOf (ColumnMapping.checkOut mapping) (records g) in
  let dailyPaid :=
    sumOver (fun r => parseCurrency (r !! ColumnMapping.paid mapping))
            (records g) in
  let manualPenalty :=
    sumOver (fun r => parseCurrency (r !! penaltyColumn mapping))
            (records g) in
  match map (onDate dateObj) checkInTimes with
  | [] =>
      DayShift.mk newId (formatIsoDay dateObj) (displayName g)
        dateObj dateObj A dateObj 0 0%Qc 0%Qc 0%Qc 0%Qc 0%Qc 0%Qc 0%Qc
        manualPenalty 0%Qc 0%Qc None 0%Qc dailyPaid (- dailyPaid)%Qc
  | dIn :: datesIn =>
      let actualIn := minOf dIn datesIn in
      let actualOut :=
        match map (onDate dateObj) checkOutTimes with
        | dOut :: datesOut => maxOf dOut datesOut
        | [] => addDays actualIn (375 # 1000)
        end in
      let actualOut :=
        if actualOut <? actualIn then addDays actualOut 1 else actualOut in
      let '(shiftType, shiftStart) := classifyShift actualIn in
      let latenessMinutes := latenessOf actualIn shiftStart in
      let attendancePenalty := num (penaltyOf latenessMinutes) in
      let rawWorkHours := hoursBetween actualIn actualOut in
      let durationHours := max0 (rawWorkHours - BREAK_HOURS)%Qc in
      let otHours := max0 (rawWorkHours - num 9)%Qc in
      let otPay := (otHours * otRate)%Qc in
      let netPay :=
        (num 10 + otPay - attendancePenalty - manualPenalty)%Qc in
      DayShift.mk newId (formatIsoDay dateObj) (displayName g)
        actualIn actualOut shiftType shiftStart latenessMinutes
        (max0 ((num 9 - rawWorkHours) * num 60)%Qc)
        rawWorkHours durationHours otHours otPay (num 10)
        attendancePenalty manualPenalty 0%Qc 0%Qc None
        netPay dailyPaid (netPay - dailyPaid)%Qc
  end.

(** The second [forEach], the [k]-th group taking the [k]-th draw. *)
Fixpoint shiftsFrom (mapping : ColumnMapping.t) (k : nat)
    (groups : list (string * Group)) : list DayShift.t :=
  match groups with
  | (_, g) :: rest =>
      shiftOfGroup mapping (randomId k) g :: shiftsFrom mapping (S k) rest
  | [] => []
  end.

Definition processPayroll (rawRecords : list AttendanceRecord)
    (mapping : ColumnMapping.t) : PayrollResult :=
  let '(grouped, logs) := groupRows mapping rawRecords in
  mkResult (shiftsFrom mapping 0 grouped) logs.

End Engine.

(** ** Manager actions on the ledger

    Each action is the state update [setLocalLogs(prev => prev.map(...))]
    of the results component, as a function on the list of shifts.  An
    answer to [prompt] is [None] when the dialog is cancelled ([null]) and
    the text that was entered otherwise. *)

(** [note ? `${note} | ${entry}` : entry] on a note that may be absent. *)
Definition appendNote (note : option string) (entry : string) : string :=
  match note with
  | Some n => if truthy n then n ++ " | " ++ entry else entry
  | None => entry
  end.

Definition hasId (id : string) (l : DayShift.t) : bool :=
  String.eqb (DayShift.id l) id.

(** The new record that [toggleWaiver] returns for the shift it is
    addressed to. *)
Definition toggled (l : DayShift.t) : DayShift.t :=
  let currentlyWaived := positiveQc (DayShift.penaltyWaiver l) in
  let newWaiverAmount :=
    if currentlyWaived then 0%Qc else DayShift.attendancePenalty l in
  let newNet :=
    ((DayShift.standardPay l + DayShift.otPay l
      - (DayShift.attendancePenalty l - newWaiverAmount))
     - DayShift.manualAdjustment l)%Qc in
  DayShift.withBalanceRemaining (newNet - DayShift.amountPaid l)%Qc
    (DayShift.withNetPay newNet
       (DayShift.withPenaltyWaiver newWaiverAmount l)).

Definition toggleWaiver (id : string) (prev : list DayShift.t)
  : list DayShift.t :=
  map (fun l => if hasId id l then toggled l else l) prev.

(** [addManagerNote]: the note that was entered replaces the old one. *)
Definition addManagerNote (id : string) (note : option string)
    (prev : list DayShift.t) : list DayShift.t :=
  match note with
  | None => prev
  | Some note =>
      map (fun l => if hasId id l then DayShift.withAdjustmentNote note l else l)
          prev
  end.

(** The new record of [applyOtherPenalty] for a parsed amount and a
    reason. *)
Definition adjusted (parsed : Qc) (reason : string) (log : DayShift.t)
  : DayShift.t :=
  let newManual := (DayShift.manualAdjustment log + parsed)%Qc in
  let newNet :=
    ((DayShift.standardPay log + DayShift.otPay log
      - DayShift.attendancePenalty log + DayShift.penaltyWaiver log)
     - newManual)%Qc in
  DayShift.withBalanceRemaining (newNet - DayShift.amountPaid log)%Qc
    (DayShift.withNetPay newNet
       (DayShift.withAdjustmentNote
          (appendNote (DayShift.adjustmentNote log) reason)
          (DayShift.withManualAdjustment newManual log))).

(** [applyOtherPenalty]: the amount is asked first, then the reason.  An
    amount that parses to an infinity is outside the numeric model; the
    list is left as it is there. *)
Definition applyOtherPenalty (id : string) (amount reason : option string)
    (prev : list DayShift.t) : list DayShift.t :=
  match amount with
  | None => prev
  | Some amount =>
      match parseFloat amount with
      | PNaN => prev
      | PInfinite => prev
      | PNum parsed =>
          match reason with
          | None => prev
          | Some reason =>
              if negb (truthy reason) then prev
              else map (fun log => if hasId id log
                                   then adjusted parsed reason log else log)
                       prev
          end
      end
  end.

(** The two records [removePenalty] can return for its shift. *)
Definition unwaived (l : DayShift.t) : DayShift.t :=
  let newNet :=
    ((DayShift.standardPay l + DayShift.otPay l - DayShift.attendancePenalty l)
     - DayShift.manualAdjustment l)%Qc in
  DayShift.withBalanceRemaining (newNet - DayShift.amountPaid l)%Qc
    (DayShift.withNetPay newNet (DayShift.withPenaltyWaiver 0%Qc l)).

Definition waived (reason : string) (l : DayShift.t) : DayShift.t :=
  let newNet :=
    ((DayShift.standardPay l + DayShift.otPay l)
     - DayShift.manualAdjustment l)%Qc in
  DayShift.withBalanceRemaining (newNet - DayShift.amountPaid l)%Qc
    (DayShift.withNetPay newNet
       (DayShift.withAdjustmentNote
          (appendNote (DayShift.adjustmentNote l) ("Waived: " ++ reason))
          (DayShift.withPenaltyWaiver (DayShift.attendancePenalty l) l))).

(** [removePenalty]: the reason is asked inside the [map], once for each
    shift that carries the identifier and is not waived; [answers k] is
    the answer to the [k]-th of these dialogs. *)
Fixpoint removePenaltyFrom (id : string) (answers : nat -> option string)
    (k : nat) (prev : list DayShift.t) : list DayShift.t :=
  match prev with
  | l :: rest =>
      if hasId id l then
        if positiveQc (DayShift.penaltyWaiver l)
        then unwaived l :: removePenaltyFrom id answers k rest
        else
          match answers k with
          | None => l :: removePenaltyFrom id answers (S k) rest
          | Some reason =>
              waived reason l :: removePenaltyFrom id answers (S k) rest
          end
      else l :: removePenaltyFrom id answers k rest
  | [] => []
  end.

Definition removePenalty (id : string) (answers : nat -> option string)
    (prev : list DayShift.t) : list DayShift.t :=
  removePenaltyFrom id answers 0 prev.

Inductive Action :=
| ToggleWaiver (id : string)
| AddManagerNote (id : string) (note : option string)
| ApplyOtherPenalty (id : string) (amount reason : option string)
| RemovePenalty (id : string) (answers : nat -> option string).

Definition target (a : Action) : string :=
  match a with
  | ToggleWaiver id | AddManagerNote id _
  | ApplyOtherPenalty id _ _ | RemovePenalty id _ => id
  end.

Definition act (a : Action) (logs : list DayShift.t) : list DayShift.t :=
  match a with
  | ToggleWaiver id => toggleWaiver id logs
  | AddManagerNote id note => addManagerNote id note logs
  | ApplyOtherPenalty id amount reason => applyOtherPenalty id amount reason logs
  | RemovePenalty id answers => removePenalty id answers logs
  end.

(** A history of manager actions, the oldest first. *)
Definition applyActions (history : list Action) (logs : list DayShift.t)
  : list DayShift.t :=
  fold_left (fun l a => act a l) history logs.

(** ** The earlier processor, [services/payrollProcessor.ts] *)

Module Legacy.

(** [DayShift] before the manual-penalty column and the break were
    added. *)
Record DayShift := mkShift {
  id : string;
  date : string;
  name : string;
  actualIn : Date;
  actualOut : Date;
  shiftType : ShiftType;
  shiftStart : Date;
  latenessMinutes : Z;
  earlyMinutes : Qc;
  workHours : Qc;
  otHours : Qc;
  otPay : Qc;
  standardPay : Qc;
  attendancePenalty : Qc;
  manualAdjustment : Qc;
  penaltyWaiver : Qc;
  adjustmentNote : option string;
  netPay : Qc;
  amountPaid : Qc;
  balanceRemaining : Qc
}.

Record PayrollResult := mkResult {
  detailedLogs : list DayShift;
  cleansingLogs : list CleansingLog
}.

Section Engine.

Variable nativeDate : string -> option Date.
Variable randomId : nat -> string.

(** The host's [a.localeCompare(b)]: negative, zero or positive. *)
Variable localeCompare : string -> string -> Z.

Definition robustParseDate (dateStr : string) : option Date :=
  if negb (truthy dateStr) then None
  else
    let cleaned := stripQuotes (trim dateStr) in
    match nativeDate cleaned with
    | Some native => Some native
    | None =>
        match split isDateSep false cleaned with
        | [s0; s1; s2] =>
            let p0 := parseInt s0 in
            let p1 := parseInt s1 in
            let p2 := parseInt s2 in
            match (if above1000 p0 then newDateYMD p0 (pred p1) p2
                   else None) with
            | Some d => Some d
            | None =>
                match (if above1000 p2 then newDateYMD p2 (pred p1) p0
                       else None) with
                | Some d => Some d
                | None => newDateYMD p2 (pred p0) p1
                end
            end
        | _ => None
        end
    end.

Definition dateFailure (index : nat) (dateVal : string) : CleansingLog :=
  mkLog HEADER_FIX
    ("Row " ++ showNat (Z.of_nat index + 1) ++ ": Could not parse date "
     ++ dquote ++ dateVal ++ dquote ++ ".").

(** The body of the first [forEach], with the index of the row. *)
Definition groupRow (mapping : ColumnMapping.t)
    (st : list (string * Group) * list CleansingLog)
    (index : nat) (record : AttendanceRecord)
  : list (string * Group) * list CleansingLog :=
  let nameVal :=
    collapseSpaces
      (trim (orElse (record !! ColumnMapping.name mapping) "")) in
  if negb (truthy nameVal) || String.eqb (toLowerCase nameVal) "name"
  then st
  else
    let dateVal := trim (orElse (record !! ColumnMapping.date mapping) "") in
    match robustParseDate dateVal with
    | None =>
        if (index <? 20)%nat
        then (fst st, (snd st ++ [dateFailure index dateVal])%list)
        else st
    | Some dateObj =>
        let normDate := formatIsoDay dateObj in
        let key := toLowerCase nameVal ++ "|" ++ normDate in
        (addToGroup key nameVal dateObj record (fst st), snd st)
    end.

Fixpoint groupRowsFrom (mapping : ColumnMapping.t) (index : nat)
    (rawRecords : list AttendanceRecord)
    (st : list (string * Group) * list CleansingLog)
  : list (string * Group) * list CleansingLog :=
  match rawRecords with
  | record :: rest =>
      groupRowsFrom mapping (S index) rest (groupRow mapping st index record)
  | [] => st
  end.

(** The paid cell of one row: [parseFloat] of the cell, or of [0] when
    the cell is empty, after every character but digits, dots and
    dashes is removed. *)
Definition paidOf (mapping : ColumnMapping.t) (r : AttendanceRecord) : Qc :=
  match parseFloat
          (moneyChars (orElse (r !! ColumnMapping.paid mapping) "0")) with
  | PNum p => p
  | _ => 0%Qc
  end.

(** The body of the second [forEach]: a group with no readable
    check-in returns before anything is pushed or drawn. *)
Definition shiftOfGroup (mapping : ColumnMapping.t) (newId : string)
    (g : Group) : option DayShift :=
  let dateObj := parsedDate g in
  let dateStr := formatIsoDay dateObj in
  let checkInTimes := timesOf (ColumnMapping.checkIn mapping) (records g) in
  let checkOutTimes := timesOf (ColumnMapping.checkOut mapping) (records g) in
  let dailyPaid := sumOver (paidOf mapping) (records g) in
  match map (onDate dateObj) checkInTimes with
  | [] => None
  | dIn :: datesIn =>
      let actualIn := minOf dIn datesIn in
      let actualOut :=
        match map (onDate dateObj) checkOutTimes with
        | dOut :: datesOut => maxOf dOut datesOut
        | [] => addDays actualIn (375 # 1000)
        end in
      let actualOut :=
        if actualOut <? actualIn then addDays actualOut 1 else actualOut in
      let '(shiftType, shiftStart) := classifyShift actualIn in
      let latenessMinutes := latenessOf actualIn shiftStart in
      let attendancePenalty := num (penaltyOf latenessMinutes) in
      let workHours := hoursBetween actualIn actualOut in
      let otHours := max0 (workHours - num 9)%Qc in
      let otPay := (otHours * otRate)%Qc in
      let standardPay := num 10 in
      let netPay := (standardPay + otPay - attendancePenalty)%Qc in
      Some (mkShift newId dateStr (displayName g) actualIn actualOut
              shiftType shiftStart latenessMinutes
              (max0 ((num 9 - workHours) * num 60)%Qc)
              workHours otHours otPay standardPay attendancePenalty
              0%Qc 0%Qc None netPay dailyPaid (netPay - dailyPaid)%Qc)
  end.

Fixpoint shiftsFrom (mapping : ColumnMapping.t) (k : nat)
    (groups : list (string * Group)) : list DayShift :=
  match groups with
  | (_, g) :: rest =>
      match shiftOfGroup mapping (randomId k) g with
      | Some s => s :: shiftsFrom mapping (S k) rest
      | None => shiftsFrom mapping k rest
      end
  | [] => []
  end.

(** The comparator of the final sort: by date, then by name. *)
Definition byDateThenName (a b : DayShift) : Z :=
  if localeCompare (date a) (date b) =? 0
  then localeCompare (name a) (name b)
  else localeCompare (date a) (date b).

(** [Array.prototype.sort] is stable: a shift goes in front of the
    first one that the comparator puts after it. *)
Fixpoint insertShift (x : DayShift) (sorted : list DayShift)
  : list DayShift :=
  match sorted with
  | y :: rest =>
      if byDateThenName x y <? 0 then x :: sorted
      else y :: insertShift x rest
  | [] => [x]
  end.

Definition sortShifts (l : list DayShift) : list DayShift :=
  fold_left (fun sorted x => insertShift x sorted) l [].

Definition processPayroll (rawRecords : list AttendanceRecord)
    (mapping : ColumnMapping.t) : PayrollResult :=
  let '(grouped, logs) := groupRowsFrom mapping 0 rawRecords ([], []) in
  mkResult (sortShifts (shiftsFrom mapping 0 grouped)) logs.

End Engine.

End Legacy.

(** ** A sample host and sheet

    The column mapping is the one the application forces on the shared
    sheet; the host reads ISO calendar days, in a zone three hours ahead
    of UTC, and nothing else. *)

Module Sample.

Definition nativeDate (s : string) : option Date :=
  match split isDateSep false s with
  | [y; m; d] =>
      match newDateYMD (parseInt y) (pred (parseInt m)) (parseInt d) with
      | Some t =>
          if String.eqb (formatIsoDay t) s then Some (t + 3 * msPerHour)
          else None
      | None => None
      end
  | _ => None
  end.

Definition fnsParse (s f : string) : option Date := None.

Definition randomId (k : nat) : string := "k" ++ showNat (Z.of_nat k).


Definition FORCE_MAPPING : ColumnMapping.t :=
  ColumnMapping.mk "Employee_Name" "Date" "Check_In" "Check_Out" "Paid"
    (Some "Penalty").

Definition row (cells : list (string * string)) : AttendanceRecord :=
  list_to_map cells.

Definition run (rows : list AttendanceRecord) : PayrollResult :=
  processPayroll nativeDate fnsParse randomId rows FORCE_MAPPING.

End Sample.

(** * Properties *)

(** ** Clock arithmetic *)

Lemma startOfDay_bounds (d : Date) :
  0 <= d - startOfDayNative d < msPerDay.
Proof.
  unfold startOfDayNative, msPerDay. Z.div_mod_to_equations. lia.
Qed.

Lemma startOfDay_idem (d : Date) :
  startOfDayNative (startOfDayNative d) = startOfDayNative d.
Proof.
  unfold startOfDayNative, msPerDay. Z.div_mod_to_equations. lia.
Qed.

Lemma minutes_past_midnight (d : Date) :
  totalMinutesOfDay d = (d - startOfDayNative d) / msPerMinute.
Proof.
  unfold totalMinutesOfDay, getHours, getMinutes, startOfDayNative.
  unfold msPerDay, msPerHour, msPerMinute.
  Z.div_mod_to_equations. lia.
Qed.

Lemma nominal_start (d : Date) (h : Z) :
  setTimeOnDate (startOfDayNative d) h 0 0 = startOfDayNative d + h * msPerHour.
Proof. unfold setTimeOnDate. rewrite startOfDay_idem. lia. Qed.

(** ** The two shapes of a computed shift *)

Section ShiftShapes.

Variables (mapping : ColumnMapping.t) (newId : string) (g : Group).

Let checkIns := timesOf (ColumnMapping.checkIn mapping) (records g).
Let checkOuts := timesOf (ColumnMapping.checkOut mapping) (records g).
Let dailyPaid :=
  sumOver (fun r => parseCurrency (r !! ColumnMapping.paid mapping)) (records g).
Let manual :=
  sumOver (fun r => parseCurrency (r !! penaltyColumn mapping)) (records g).

(** No check-in was read: the placeholder. *)
Lemma shiftOfGroup_placeholder :
  checkIns = [] ->
  shiftOfGroup mapping newId g
  = DayShift.mk newId (formatIsoDay (parsedDate g)) (displayName g)
      (parsedDate g) (parsedDate g) A (parsedDate g) 0 0%Qc 0%Qc 0%Qc 0%Qc
      0%Qc 0%Qc 0%Qc manual 0%Qc 0%Qc None 0%Qc dailyPaid (- dailyPaid)%Qc.
Proof.
  intros H. unfold shiftOfGroup. fold checkIns. rewrite H. reflexivity.
Qed.

(** The arrival and the departure of a group with a check-in. *)
Definition arrivalOf (t : TimeComponents) (ts : list TimeComponents) : Date :=
  minOf (onDate (parsedDate g) t) (map (onDate (parsedDate g)) ts).

Definition departureOf (actualIn : Date) (outs : list TimeComponents) : Date :=
  let actualOut :=
    match map (onDate (parsedDate g)) outs with
    | dOut :: datesOut => maxOf dOut datesOut
    | [] => addDays actualIn (375 # 1000)
    end in
  if actualOut <? actualIn then addDays actualOut 1 else actualOut.

(** At least one check-in was read: the worked shift. *)
Lemma shiftOfGroup_worked (t : TimeComponents) (ts : list TimeComponents) :
  checkIns = t :: ts ->
  let actualIn := arrivalOf t ts in
  let actualOut := departureOf actualIn checkOuts in
  let late := latenessOf actualIn (snd (classifyShift actualIn)) in
  let worked := hoursBetween actualIn actualOut in
  let otPay := (max0 (worked - num 9) * otRate)%Qc in
  let netPay := (num 10 + otPay - num (penaltyOf late) - manual)%Qc in
  shiftOfGroup mapping newId g
  = DayShift.mk newId (formatIsoDay (parsedDate g)) (displayName g)
      actualIn actualOut (fst (classifyShift actualIn))
      (snd (classifyShift actualIn)) late
      (max0 ((num 9 - worked) * num 60)%Qc) worked
      (max0 (worked - BREAK_HOURS)%Qc) (max0 (worked - num 9)%Qc) otPay
      (num 10) (num (penaltyOf late)) manual 0%Qc 0%Qc None netPay
      dailyPaid (netPay - dailyPaid)%Qc.
Proof.
  intros H. cbv zeta. unfold shiftOfGroup. fold checkIns. rewrite H.
  cbn [map]. fold (arrivalOf t ts).
  fold checkOuts. fold (departureOf (arrivalOf t ts) checkOuts).
  destruct (classifyShift (arrivalOf t ts)) as [ty st]. reflexivity.
Qed.

End ShiftShapes.

(** ** Shift classification *)

(** C2.  With [m] the minutes of the arrival past local midnight: below
    630 the shift is A and starts at 10:00 of the arrival's day; from 630
    to 750, both included, it is C and starts at 11:00; above 750 it is B
    and starts at 14:00, or at 15:00 when the arrival falls on a Thursday
    or a Friday.  The minutes 630 (10:30) and 750 (12:30) give C.  The
    processor files every shift with a check-in under the type and the
    nominal start that this rule gives for its arrival. *)
Theorem classifyShift_rule (actualIn : Date) :
  let m := (actualIn - startOfDayNative actualIn) / msPerMinute in
  let midnight := startOfDayNative actualIn in
  m = totalMinutesOfDay actualIn
  /\ (m < 630 -> classifyShift actualIn = (A, midnight + 10 * msPerHour))
  /\ (630 <= m <= 750 ->
      classifyShift actualIn = (C, midnight + 11 * msPerHour))
  /\ (750 < m ->
      (getDay actualIn = 4 \/ getDay actualIn = 5 ->
       classifyShift actualIn = (B, midnight + 15 * msPerHour))
      /\ (getDay actualIn <> 4 -> getDay actualIn <> 5 ->
          classifyShift actualIn = (B, midnight + 14 * msPerHour)))
  /\ (m = 630 \/ m = 750 -> fst (classifyShift actualIn) = C)
  /\ (forall (mapping : ColumnMapping.t) (newId : string) (g : Group),
        timesOf (ColumnMapping.checkIn mapping) (records g) <> [] ->
        let s := shiftOfGroup mapping newId g in
        (DayShift.shiftType s, DayShift.shiftStart s)
        = classifyShift (DayShift.actualIn s)).
Proof.
  cbv zeta. rewrite <- minutes_past_midnight.
  split; [reflexivity |].
  split; [| split; [| split; [| split]]].
  1-4: unfold classifyShift; rewrite !nominal_start;
    change (10 * 60 + 30) with 630; change (12 * 60 + 30) with 750.
  - intros H. apply Z.ltb_lt in H. now rewrite H.
  - intros [H1 H2]. apply Z.ltb_ge in H1. apply Z.leb_le in H2.
    now rewrite H1, H2.
  - intros Hm.
    assert (H1 : (totalMinutesOfDay actualIn <? 630) = false) by lia.
    assert (H2 : (totalMinutesOfDay actualIn <=? 750) = false) by lia.
    rewrite H1, H2. split.
    + intros [H | H]; rewrite H; reflexivity.
    + intros H4 H5.
      apply Z.eqb_neq in H4. apply Z.eqb_neq in H5. now rewrite H4, H5.
  - intros [H | H]; rewrite H; reflexivity.
  - intros mapping newId g Hin. cbv zeta.
    destruct (timesOf (ColumnMapping.checkIn mapping) (records g))
      as [| t ts] eqn:E; [congruence |].
    rewrite (shiftOfGroup_worked _ _ _ _ _ E). cbn.
    now destruct (classifyShift (arrivalOf g t ts)).
Qed.

(** 10:30 and 12:30 on Tuesday 2024-03-05, the minute before and the
    minute after, and 13:00 on the Thursday of that week. *)
Lemma classifyShift_rule_witness :
  let tuesday := 19787 * msPerDay in
  let thursday := 19789 * msPerDay in
  classifyShift (tuesday + 629 * msPerMinute) = (A, tuesday + 10 * msPerHour)
  /\ classifyShift (tuesday + 630 * msPerMinute) = (C, tuesday + 11 * msPerHour)
  /\ classifyShift (tuesday + 750 * msPerMinute + 59 * msPerSecond)
     = (C, tuesday + 11 * msPerHour)
  /\ classifyShift (tuesday + 751 * msPerMinute) = (B, tuesday + 14 * msPerHour)
  /\ classifyShift (thursday + 13 * msPerHour) = (B, thursday + 15 * msPerHour).
Proof.
  cbv zeta. split; [| split; [| split; [| split]]].
  - rewrite (proj1 (proj2 (classifyShift_rule
               (19787 * msPerDay + 629 * msPerMinute))));
      vm_compute; reflexivity.
  - rewrite (proj1 (proj2 (proj2 (classifyShift_rule
               (19787 * msPerDay + 630 * msPerMinute)))));
      vm_compute; [reflexivity | split; discriminate].
  - rewrite (proj1 (proj2 (proj2 (classifyShift_rule
               (19787 * msPerDay + 750 * msPerMinute + 59 * msPerSecond)))));
      vm_compute; [reflexivity | split; discriminate].
  - rewrite (proj2 (proj1 (proj2 (proj2 (proj2 (classifyShift_rule
               (19787 * msPerDay + 751 * msPerMinute)))))
               ltac:(vm_compute; reflexivity)));
      vm_compute; try reflexivity; discriminate.
  - rewrite (proj1 (proj1 (proj2 (proj2 (proj2 (classifyShift_rule
               (19789 * msPerDay + 13 * msPerHour)))))
               ltac:(vm_compute; reflexivity)));
      [vm_compute; reflexivity | left; vm_compute; reflexivity].
Defined.

(** ** Penalty tiers *)

Lemma num_0 : num 0 = 0%Qc.
Proof. qc_compute. Qed.

Lemma latenessOf_nonneg (a b : Date) : 0 <= latenessOf a b.
Proof. unfold latenessOf. lia. Qed.

(** C3.  The attendance penalty of a lateness [t >= 0] is 0 below 10
    minutes, 3 from 10 to 19, 5 from 20 to 59 and 10 from 60 on; it never
    decreases as [t] grows; it takes the values of the table at 9, 10, 19,
    20, 59 and 60; and every shift the processor computes carries the
    penalty of its own lateness, which is never negative. *)
Theorem penalty_tiers :
  (forall t : Z,
      (0 <= t < 10 -> penaltyOf t = 0)
      /\ (10 <= t < 20 -> penaltyOf t = 3)
      /\ (20 <= t < 60 -> penaltyOf t = 5)
      /\ (60 <= t -> penaltyOf t = 10))
  /\ (forall t1 t2 : Z, t1 <= t2 -> penaltyOf t1 <= penaltyOf t2)
  /\ (penaltyOf 9 = 0 /\ penaltyOf 10 = 3 /\ penaltyOf 19 = 3
      /\ penaltyOf 20 = 5 /\ penaltyOf 59 = 5 /\ penaltyOf 60 = 10)
  /\ (forall (mapping : ColumnMapping.t) (newId : string) (g : Group),
        let s := shiftOfGroup mapping newId g in
        0 <= DayShift.latenessMinutes s
        /\ DayShift.attendancePenalty s
           = num (penaltyOf (DayShift.latenessMinutes s))).
Proof.
  split; [| split; [| split]].
  - intros t. unfold penaltyOf.
    repeat split; intros H;
      destruct (Z.leb_spec 60 t); try lia;
      destruct (Z.leb_spec 20 t); try lia;
      destruct (Z.leb_spec 10 t); lia.
  - intros t1 t2 H. unfold penaltyOf.
    destruct (Z.leb_spec 60 t1); destruct (Z.leb_spec 60 t2); try lia;
      destruct (Z.leb_spec 20 t1); destruct (Z.leb_spec 20 t2); try lia;
      destruct (Z.leb_spec 10 t1); destruct (Z.leb_spec 10 t2); lia.
  - repeat split.
  - intros mapping newId g. cbv zeta.
    destruct (timesOf (ColumnMapping.checkIn mapping) (records g))
      as [| t ts] eqn:E.
    + rewrite (shiftOfGroup_placeholder _ _ _ E). cbn.
      split; [lia | symmetry; apply num_0].
    + rewrite (shiftOfGroup_worked _ _ _ _ _ E). cbn.
      split; [apply latenessOf_nonneg | reflexivity].
Qed.

(** ** Arrival and departure of a day *)

Lemma minOf_spec (x : Z) (xs : list Z) :
  In (minOf x xs) (x :: xs) /\ Forall (fun y => minOf x xs <= y) (x :: xs).
Proof.
  unfold minOf. revert x. induction xs as [| y ys IH]; intros x; cbn [fold_left].
  - split; [now left | constructor; [lia | constructor]].
  - destruct (IH (Z.min x y)) as [Hin Hall].
    inversion Hall as [| ? ? Hhd Htl]; subst. split.
    + destruct Hin as [Hin | Hin].
      * destruct (Z.min_spec x y) as [[_ E] | [_ E]]; rewrite <- Hin, E;
          [now left | right; now left].
      * right; now right.
    + constructor; [lia |]. constructor; [lia | assumption].
Qed.

Lemma maxOf_spec (x : Z) (xs : list Z) :
  In (maxOf x xs) (x :: xs) /\ Forall (fun y => y <= maxOf x xs) (x :: xs).
Proof.
  unfold maxOf. revert x. induction xs as [| y ys IH]; intros x; cbn [fold_left].
  - split; [now left | constructor; [lia | constructor]].
  - destruct (IH (Z.max x y)) as [Hin Hall].
    inversion Hall as [| ? ? Hhd Htl]; subst. split.
    + destruct Hin as [Hin | Hin].
      * destruct (Z.max_spec x y) as [[_ E] | [_ E]]; rewrite <- Hin, E;
          [right; now left | now left].
      * right; now right.
    + constructor; [lia |]. constructor; [lia | assumption].
Qed.

(** The arrival is the earliest check-in instant of the day. *)
Lemma arrival_is_earliest (g : Group) (t : TimeComponents)
    (ts : list TimeComponents) :
  In (arrivalOf g t ts) (map (onDate (parsedDate g)) (t :: ts))
  /\ Forall (fun y => arrivalOf g t ts <= y)
            (map (onDate (parsedDate g)) (t :: ts)).
Proof. apply minOf_spec. Qed.

(** With a check-out read, the departure is the latest check-out instant,
    a day later when that instant is before the arrival. *)
Lemma departure_is_latest (g : Group) (actualIn : Date) (o : TimeComponents)
    (os : list TimeComponents) :
  let latest :=
    maxOf (onDate (parsedDate g) o) (map (onDate (parsedDate g)) os) in
  In latest (map (onDate (parsedDate g)) (o :: os))
  /\ Forall (fun y => y <= latest) (map (onDate (parsedDate g)) (o :: os))
  /\ (actualIn <= latest -> departureOf g actualIn (o :: os) = latest)
  /\ (latest < actualIn ->
      departureOf g actualIn (o :: os) = latest + 24 * msPerHour).
Proof.
  cbv zeta. split; [apply maxOf_spec | split; [apply maxOf_spec |]].
  unfold departureOf. cbn [map]. split; intros H.
  - apply Z.ltb_ge in H. now rewrite H.
  - apply Z.ltb_lt in H. rewrite H. reflexivity.
Qed.

Lemma addDays_fraction (d : Date) : addDays d (375 # 1000) = d.
Proof. unfold addDays. change (toInteger (375 # 1000)) with 0. lia. Qed.

(** With no check-out read, the departure is the arrival itself: the
    0.375 of a day that [addDays] is given is dropped. *)
Lemma departure_without_checkout (g : Group) (actualIn : Date) :
  departureOf g actualIn [] = actualIn
  /\ hoursBetween actualIn (departureOf g actualIn []) = 0%Qc.
Proof.
  assert (E : departureOf g actualIn [] = actualIn).
  { unfold departureOf. cbn [map]. rewrite addDays_fraction.
    now rewrite Z.ltb_irrefl. }
  split; [exact E |]. rewrite E. unfold hoursBetween.
  rewrite Z.sub_diag. qc_compute.
Qed.

(** C4, at Scenario C: one row, arrival 11:05 on Tuesday 2024-03-05, no
    departure.  The shift is of type C, five minutes late, with no penalty
    and a net pay of 10; its departure is the arrival itself and its
    worked hours are 0, not 9. *)
Theorem scenario_C_departure_fallback :
  let result :=
    Sample.run [Sample.row [("Employee_Name", "Sara"); ("Date", "2024-03-05");
                            ("Check_In", "11:05")]] in
  let arrival := 19787 * msPerDay + 11 * msPerHour + 5 * msPerMinute in
  exists s : DayShift.t,
    detailedLogs result = [s]
    /\ DayShift.actualIn s = arrival
    /\ DayShift.shiftType s = C
    /\ DayShift.shiftStart s = 19787 * msPerDay + 11 * msPerHour
    /\ DayShift.latenessMinutes s = 5
    /\ DayShift.attendancePenalty s = 0%Qc
    /\ DayShift.netPay s = num 10
    /\ DayShift.actualOut s = arrival
    /\ DayShift.actualOut s <> arrival + 9 * msPerHour
    /\ DayShift.workHours s = 0%Qc
    /\ DayShift.workHours s <> num 9.
Proof.
  cbv zeta. eexists. split; [vm_compute; reflexivity |].
  repeat match goal with |- _ /\ _ => split end;
    try (vm_compute; reflexivity); try qc_compute.
  - vm_compute. discriminate.
  - intros H. apply (f_equal Qcanon.this) in H. vm_compute in H. discriminate.
Qed.

(** ** The grouping pass, row by row *)

Section Grouping.

Variable nativeDate : string -> option Date.
Variable fnsParse : string -> string -> option Date.
Variable mapping : ColumnMapping.t.

(** The name and the date of a row as the first [forEach] reads them. *)
Definition nameOf (record : AttendanceRecord) : string :=
  collapseSpaces (trim (orElse (record !! ColumnMapping.name mapping) "")).

Definition dateOf (record : AttendanceRecord) : string :=
  trim (orElse (record !! ColumnMapping.date mapping) "").

(** The name is there and is not a header literal. *)
Definition usableName (record : AttendanceRecord) : bool :=
  truthy (nameOf record) && negb (isHeaderName (toLowerCase (nameOf record))).

Definition keyOf (nameVal : string) (dateObj : Date) : string :=
  toLowerCase nameVal ++ "|" ++ formatIsoDay dateObj.

(** What one row adds to the cleansing log, and what it does to the
    groups. *)
Definition rowLog (record : AttendanceRecord) : list CleansingLog :=
  if usableName record && truthy (dateOf record) then
    match robustParseDate nativeDate fnsParse (dateOf record) with
    | None => [dateFailure (nameOf record) (dateOf record)]
    | Some _ => []
    end
  else [].

Definition rowGroups (grouped : list (string * Group))
    (record : AttendanceRecord) : list (string * Group) :=
  if usableName record && truthy (dateOf record) then
    match robustParseDate nativeDate fnsParse (dateOf record) with
    | None => grouped
    | Some dateObj =>
        addToGroup (keyOf (nameOf record) dateObj) (nameOf record) dateObj
          record grouped
    end
  else grouped.

Lemma groupRow_split (st : list (string * Group) * list CleansingLog)
    (record : AttendanceRecord) :
  groupRow nativeDate fnsParse mapping st record
  = (rowGroups (fst st) record, (snd st ++ rowLog record)%list).
Proof.
  unfold groupRow, rowGroups, rowLog, usableName.
  fold (nameOf record). fold (dateOf record).
  destruct st as [gs logs]. cbn [fst snd].
  destruct (truthy (nameOf record)); cbn [negb orb andb];
    [| now rewrite app_nil_r].
  destruct (isHeaderName (toLowerCase (nameOf record))); cbn [negb andb];
    [now rewrite app_nil_r |].
  destruct (truthy (dateOf record)); cbn [negb]; [| now rewrite app_nil_r].
  destruct (robustParseDate nativeDate fnsParse (dateOf record));
    [now rewrite app_nil_r | reflexivity].
Qed.

Lemma groupRows_from (rows : list AttendanceRecord)
    (st : list (string * Group) * list CleansingLog) :
  fold_left (groupRow nativeDate fnsParse mapping) rows st
  = (fold_left rowGroups rows (fst st),
     (snd st ++ flat_map rowLog rows)%list).
Proof.
  revert st. induction rows as [| r rows IH]; intros st; cbn [fold_left flat_map].
  - rewrite app_nil_r. now destruct st.
  - rewrite IH, groupRow_split. cbn [fst snd]. now rewrite <- app_assoc.
Qed.

Lemma groupRows_split (rows : list AttendanceRecord) :
  groupRows nativeDate fnsParse mapping rows
  = (fold_left rowGroups rows [], flat_map rowLog rows).
Proof. unfold groupRows. now rewrite groupRows_from. Qed.











End Grouping.

(** ** From groups to shifts *)

Lemma shiftsFrom_lookup (randomId : nat -> string) (mapping : ColumnMapping.t)
    (groups : list (string * Group)) (k i : nat) :
  shiftsFrom randomId mapping k groups !! i
  = (fun kg : string * Group =>
       shiftOfGroup mapping (randomId (k + i)%nat) (snd kg)) <$> groups !! i.
Proof.
  revert k i. induction groups as [| [key g] rest IH]; intros k i;
    cbn [shiftsFrom]; [now destruct i |].
  destruct i as [| i]; cbn.
  - now rewrite Nat.add_0_r.
  - rewrite IH. now rewrite Nat.add_succ_r.
Qed.

Lemma processPayroll_split (nativeDate : string -> option Date)
    (fnsParse : string -> string -> option Date) (randomId : nat -> string)
    (rows : list AttendanceRecord) (mapping : ColumnMapping.t) :
  processPayroll nativeDate fnsParse randomId rows mapping
  = mkResult
      (shiftsFrom randomId mapping 0
         (fold_left (rowGroups nativeDate fnsParse mapping) rows []))
      (flat_map (rowLog nativeDate fnsParse mapping) rows).
Proof. unfold processPayroll. now rewrite groupRows_split. Qed.



(** ** Rows whose date does not parse *)





(** ** Manager actions, shift by shift *)

(** The right-hand side of the net-pay invariant. *)
Definition netFormula (s : DayShift.t) : Qc :=
  (DayShift.standardPay s + DayShift.otPay s
   - (DayShift.attendancePenalty s - DayShift.penaltyWaiver s)
   - DayShift.manualPenalty s - DayShift.manualAdjustment s)%Qc.

Definition netOk (s : DayShift.t) : Prop := DayShift.netPay s = netFormula s.

Definition balanceOk (s : DayShift.t) : Prop :=
  DayShift.balanceRemaining s = (DayShift.netPay s - DayShift.amountPaid s)%Qc.

(** The fields no manager action writes. *)
Definition sameFrame (l l' : DayShift.t) : Prop :=
  DayShift.id l' = DayShift.id l
  /\ DayShift.name l' = DayShift.name l
  /\ DayShift.date l' = DayShift.date l
  /\ DayShift.actualIn l' = DayShift.actualIn l
  /\ DayShift.actualOut l' = DayShift.actualOut l
  /\ DayShift.shiftType l' = DayShift.shiftType l
  /\ DayShift.shiftStart l' = DayShift.shiftStart l
  /\ DayShift.latenessMinutes l' = DayShift.latenessMinutes l
  /\ DayShift.earlyMinutes l' = DayShift.earlyMinutes l
  /\ DayShift.workHours l' = DayShift.workHours l
  /\ DayShift.durationHours l' = DayShift.durationHours l
  /\ DayShift.otHours l' = DayShift.otHours l
  /\ DayShift.otPay l' = DayShift.otPay l
  /\ DayShift.standardPay l' = DayShift.standardPay l
  /\ DayShift.attendancePenalty l' = DayShift.attendancePenalty l
  /\ DayShift.manualPenalty l' = DayShift.manualPenalty l
  /\ DayShift.amountPaid l' = DayShift.amountPaid l.

(** What an action addressed to [id] may put in the place of a shift: the
    shift itself, or, when the shift carries [id], one of the five records
    the actions build. *)
Inductive rewritten (id : string) (l : DayShift.t) : DayShift.t -> Prop :=
| rw_same : rewritten id l l
| rw_toggled : hasId id l = true -> rewritten id l (toggled l)
| rw_noted (note : string) :
    hasId id l = true -> rewritten id l (DayShift.withAdjustmentNote note l)
| rw_adjusted (parsed : Qc) (reason : string) :
    hasId id l = true -> rewritten id l (adjusted parsed reason l)
| rw_unwaived : hasId id l = true -> rewritten id l (unwaived l)
| rw_waived (reason : string) :
    hasId id l = true -> rewritten id l (waived reason l).

Lemma Forall2_same (l : list DayShift.t) (id : string) :
  Forall2 (rewritten id) l l.
Proof. induction l; constructor; [apply rw_same | assumption]. Qed.

Lemma Forall2_map_if (id : string) (f : DayShift.t -> DayShift.t)
    (logs : list DayShift.t) :
  (forall l, hasId id l = true -> rewritten id l (f l)) ->
  Forall2 (rewritten id) logs (map (fun l => if hasId id l then f l else l) logs).
Proof.
  intros Hf. induction logs as [| l logs IH]; cbn [map]; constructor;
    [| exact IH].
  destruct (hasId id l) eqn:E; [now apply Hf | apply rw_same].
Qed.

Lemma removePenaltyFrom_rewritten (id : string)
    (answers : nat -> option string) (logs : list DayShift.t) (k : nat) :
  Forall2 (rewritten id) logs (removePenaltyFrom id answers k logs).
Proof.
  revert k. induction logs as [| l logs IH]; intros k;
    cbn [removePenaltyFrom]; [constructor |].
  destruct (hasId id l) eqn:E.
  - destruct (positiveQc (DayShift.penaltyWaiver l)).
    + constructor; [now apply rw_unwaived | apply IH].
    + destruct (answers k).
      * constructor; [now apply rw_waived | apply IH].
      * constructor; [apply rw_same | apply IH].
  - constructor; [apply rw_same | apply IH].
Qed.

(** Every action is a position-wise rewriting of the list. *)
Lemma act_rewritten (a : Action) (logs : list DayShift.t) :
  Forall2 (rewritten (target a)) logs (act a logs).
Proof.
  destruct a as [id | id note | id amount reason | id answers];
    cbn [act target].
  - apply Forall2_map_if. intros l H. now apply rw_toggled.
  - unfold addManagerNote. destruct note as [note |];
      [| apply Forall2_same].
    apply Forall2_map_if. intros l H. now apply rw_noted.
  - unfold applyOtherPenalty.
    destruct amount as [amount |]; [| apply Forall2_same].
    destruct (parseFloat amount) as [| parsed |]; try apply Forall2_same.
    destruct reason as [reason |]; [| apply Forall2_same].
    destruct (truthy reason); cbn [negb]; [| apply Forall2_same].
    apply Forall2_map_if. intros l H. now apply rw_adjusted.
  - apply removePenaltyFrom_rewritten.
Qed.

Lemma rewritten_frame (id : string) (l l' : DayShift.t) :
  rewritten id l l' ->
  (DayShift.id l <> id -> l' = l) /\ sameFrame l l'.
Proof.
  intros H. split.
  - intros Hne.
    assert (E : hasId id l = false)
      by (unfold hasId; now apply String.eqb_neq).
    destruct H; try reflexivity; congruence.
  - destruct H; unfold sameFrame; cbn; repeat split; reflexivity.
Qed.

(** C10.  A manager action addressed to an identifier keeps the length
    and the order of the list, returns every shift with another identifier
    as it was, and in a shift with that identifier leaves the identifier,
    name, date, arrival, departure, shift type, nominal start, lateness,
    worked, early, break and overtime hours, overtime pay, standard pay,
    attendance penalty, manual penalty and amount paid as they were. *)
Theorem manager_action_frame (a : Action) (logs : list DayShift.t) :
  Forall2 (fun l l' => (DayShift.id l <> target a -> l' = l) /\ sameFrame l l')
          logs (act a logs).
Proof.
  eapply Forall2_impl; [apply act_rewritten |].
  intros l l' H. now apply rewritten_frame.
Qed.

(** ** The net-pay and balance equations *)

(** What holds of every shift at every moment by the design of the
    actions: the balance equation, and the net-pay equation when the
    shift has no manual penalty. *)
Definition ledgerOk (s : DayShift.t) : Prop :=
  balanceOk s /\ (DayShift.manualPenalty s = 0%Qc -> netOk s).

Lemma rewritten_ledgerOk (id : string) (l l' : DayShift.t) :
  rewritten id l l' -> ledgerOk l -> ledgerOk l'.
Proof.
  intros H [Hbal Hnet]. destruct H.
  - split; assumption.
  - split; [reflexivity |]. unfold netOk, netFormula. cbn.
    intros ->. ring.
  - split; [exact Hbal |]. unfold netOk, netFormula in *. cbn. exact Hnet.
  - split; [reflexivity |]. unfold netOk, netFormula. cbn.
    intros ->. ring.
  - split; [reflexivity |]. unfold netOk, netFormula. cbn.
    intros ->. ring.
  - split; [reflexivity |]. unfold netOk, netFormula. cbn.
    intros ->. ring.
Qed.

Lemma act_ledgerOk (a : Action) (logs : list DayShift.t) :
  Forall ledgerOk logs -> Forall ledgerOk (act a logs).
Proof.
  intros H. pose proof (act_rewritten a logs) as Hrw.
  induction Hrw as [| l l' ls ls' Hl _ IH]; [constructor |].
  inversion H as [| ? ? Hhd Htl]; subst.
  constructor; [now apply (rewritten_ledgerOk _ _ _ Hl) | now apply IH].
Qed.

Lemma applyActions_ledgerOk (history : list Action) (logs : list DayShift.t) :
  Forall ledgerOk logs -> Forall ledgerOk (applyActions history logs).
Proof.
  unfold applyActions. revert logs.
  induction history as [| a history IH]; intros logs H; cbn [fold_left];
    [exact H |].
  apply IH. now apply act_ledgerOk.
Qed.

Lemma created_shift (mapping : ColumnMapping.t) (newId : string) (g : Group) :
  let s := shiftOfGroup mapping newId g in
  balanceOk s
  /\ (timesOf (ColumnMapping.checkIn mapping) (records g) <> [] -> netOk s)
  /\ (timesOf (ColumnMapping.checkIn mapping) (records g) = [] ->
      DayShift.netPay s = 0%Qc
      /\ netFormula s = (- DayShift.manualPenalty s)%Qc).
Proof.
  cbv zeta.
  destruct (timesOf (ColumnMapping.checkIn mapping) (records g))
    as [| t ts] eqn:E.
  - rewrite (shiftOfGroup_placeholder _ _ _ E).
    unfold balanceOk, netOk, netFormula. cbn.
    split; [ring |]. split; [congruence |]. intros _. split; [reflexivity | ring].
  - rewrite (shiftOfGroup_worked _ _ _ _ _ E).
    unfold balanceOk, netOk, netFormula. cbn.
    split; [reflexivity |]. split; [intros _; ring | discriminate].
Qed.

Lemma created_ledgerOk (randomId : nat -> string) (mapping : ColumnMapping.t)
    (groups : list (string * Group)) (k : nat) :
  Forall ledgerOk (shiftsFrom randomId mapping k groups).
Proof.
  revert k. induction groups as [| [key g] rest IH]; intros k;
    cbn [shiftsFrom]; constructor; [| apply IH].
  destruct (created_shift mapping (randomId k) g) as (Hbal & Hnet & Hzero).
  split; [exact Hbal |]. intros Hmanual.
  destruct (timesOf (ColumnMapping.checkIn mapping) (records g)) eqn:E.
  - destruct (Hzero eq_refl) as [H0 Hf]. unfold netOk.
    rewrite H0, Hf, Hmanual. ring.
  - apply Hnet. discriminate.
Qed.

(** C1, as the code has it.  At creation the balance equation holds of
    every shift, and the net-pay equation holds of every shift of a group
    with a check-in that parsed, while a placeholder has net pay 0
    whatever its manual penalty.  After any history of manager actions
    the balance equation still holds of every shift of the ledger, and so
    does the net-pay equation for every shift whose manual penalty is 0. *)
Theorem ledger_equations (nativeDate : string -> option Date)
    (fnsParse : string -> string -> option Date) (randomId : nat -> string)
    (rows : list AttendanceRecord) (mapping : ColumnMapping.t) :
  let grouped := fst (groupRows nativeDate fnsParse mapping rows) in
  let created :=
    detailedLogs (processPayroll nativeDate fnsParse randomId rows mapping) in
  (forall (i : nat) (key : string) (g : Group),
      grouped !! i = Some (key, g) ->
      exists s : DayShift.t,
        created !! i = Some s
        /\ balanceOk s
        /\ (timesOf (ColumnMapping.checkIn mapping) (records g) <> [] ->
            netOk s)
        /\ (timesOf (ColumnMapping.checkIn mapping) (records g) = [] ->
            DayShift.netPay s = 0%Qc))
  /\ length created = length grouped
  /\ (forall (history : list Action) (s : DayShift.t),
        In s (applyActions history created) ->
        balanceOk s /\ (DayShift.manualPenalty s = 0%Qc -> netOk s)).
Proof.
  cbv zeta. rewrite processPayroll_split, groupRows_split.
  cbn [fst detailedLogs]. split; [| split].
  - intros i key g Hi.
    exists (shiftOfGroup mapping (randomId i) g).
    rewrite shiftsFrom_lookup, Hi. split; [reflexivity |].
    destruct (created_shift mapping (randomId i) g) as (Hbal & Hnet & Hzero).
    split; [exact Hbal |]. split; [exact Hnet |].
    intros E. now destruct (Hzero E).
  - generalize (fold_left (rowGroups nativeDate fnsParse mapping) rows []).
    generalize 0%nat. intros k l. revert k.
    induction l as [| [key g] l IH]; intros k; cbn [shiftsFrom length];
      [reflexivity | now rewrite IH].
  - intros history s Hin.
    pose proof (applyActions_ledgerOk history _
                  (created_ledgerOk randomId mapping
                     (fold_left (rowGroups nativeDate fnsParse mapping) rows [])
                     0)) as H.
    rewrite Forall_forall in H. apply H. now apply list_elem_of_In.
Qed.

(** A late arrival with a penalty cell, then a waiver and a deduction. *)
Lemma ledger_equations_witness :
  let rows :=
    [Sample.row [("Employee_Name", "Ali"); ("Date", "2024-03-05");
                 ("Check_In", "10:25"); ("Check_Out", "19:00");
                 ("Paid", "4")]] in
  let history :=
    [ToggleWaiver (Sample.randomId 0);
     ApplyOtherPenalty (Sample.randomId 0) (Some "1.5") (Some "uniform")] in
  Forall (fun s => DayShift.netPay s = Q2Qc (17 # 2) /\ balanceOk s /\ netOk s)
         (applyActions history (detailedLogs (Sample.run rows))).
Proof.
  cbv zeta. apply Forall_forall. intros s Hin. apply list_elem_of_In in Hin.
  destruct (ledger_equations Sample.nativeDate Sample.fnsParse Sample.randomId
              [Sample.row [("Employee_Name", "Ali"); ("Date", "2024-03-05");
                           ("Check_In", "10:25"); ("Check_Out", "19:00");
                           ("Paid", "4")]]
              Sample.FORCE_MAPPING) as (_ & _ & H).
  destruct (H _ s Hin) as [Hbal Hnet].
  vm_compute in Hin. destruct Hin as [<- | []].
  split; [qc_compute |]. split; [exact Hbal |]. apply Hnet. qc_compute.
Defined.

(** C1 as stated fails at creation on a placeholder with a penalty cell:
    its net pay is 0 and the formula gives minus the manual penalty. *)
Lemma placeholder_breaks_net_formula :
  let rows :=
    [Sample.row [("Employee_Name", "Omar"); ("Date", "2024-03-08");
                 ("Paid", "4"); ("Penalty", "1.5")]] in
  exists s : DayShift.t,
    detailedLogs (Sample.run rows) = [s]
    /\ DayShift.netPay s = 0%Qc
    /\ netFormula s = Q2Qc (-3 # 2)
    /\ DayShift.netPay s <> netFormula s.
Proof.
  cbv zeta. eexists. split; [vm_compute; reflexivity |].
  split; [qc_compute |]. split; [qc_compute |].
  intros H. apply (f_equal Qcanon.this) in H. vm_compute in H. discriminate.
Qed.

(** ** Waiving and un-waiving *)

(** What a shift has to satisfy for two toggles to bring its net pay
    back: the equations hold, no manual penalty is recorded, and the
    waiver is either nothing or the whole attendance penalty, which is
    not negative. *)
Definition settled (l : DayShift.t) : Prop :=
  balanceOk l /\ netOk l
  /\ DayShift.manualPenalty l = 0%Qc
  /\ (0 <= DayShift.attendancePenalty l)%Qc
  /\ (DayShift.penaltyWaiver l = 0%Qc
      \/ DayShift.penaltyWaiver l = DayShift.attendancePenalty l).

Lemma positiveQc_0 : positiveQc 0%Qc = false.
Proof. reflexivity. Qed.

Lemma positiveQc_false (x : Qc) : (0 <= x)%Qc -> positiveQc x = false -> x = 0%Qc.
Proof.
  unfold positiveQc. intros H0 H. destruct (Qclt_le_dec 0 x); [discriminate |].
  now apply Qcle_antisym.
Qed.

(** On a settled shift two toggles in a row restore the waiver, the net
    pay and the balance. *)
Lemma toggle_twice_settled (l : DayShift.t) :
  settled l ->
  DayShift.penaltyWaiver (toggled (toggled l)) = DayShift.penaltyWaiver l
  /\ DayShift.netPay (toggled (toggled l)) = DayShift.netPay l
  /\ DayShift.balanceRemaining (toggled (toggled l))
     = DayShift.balanceRemaining l.
Proof.
  intros (Hbal & Hnet & Hmp & Hatt & Hw).
  unfold balanceOk in Hbal. unfold netOk, netFormula in Hnet.
  assert (Hwaiver :
    DayShift.penaltyWaiver (toggled (toggled l)) = DayShift.penaltyWaiver l).
  { unfold toggled. cbn.
    destruct (positiveQc (DayShift.penaltyWaiver l)) eqn:E1.
    - rewrite positiveQc_0.
      destruct Hw as [Hw | Hw]; [| now rewrite Hw].
      rewrite Hw in E1. now rewrite positiveQc_0 in E1.
    - destruct (positiveQc (DayShift.attendancePenalty l)) eqn:E2.
      + destruct Hw as [Hw | Hw]; [now rewrite Hw |].
        rewrite Hw in E1. congruence.
      + destruct Hw as [Hw | Hw]; rewrite Hw;
          [now apply positiveQc_false | reflexivity]. }
  assert (Hnet2 : DayShift.netPay (toggled (toggled l)) = DayShift.netPay l).
  { transitivity (netFormula (toggled (toggled l))).
    - unfold netFormula, toggled. cbn. rewrite Hmp. ring.
    - rewrite Hnet. unfold netFormula. rewrite Hwaiver.
      unfold toggled. cbn. reflexivity. }
  split; [exact Hwaiver |]. split; [exact Hnet2 |].
  rewrite Hbal, <- Hnet2. unfold toggled. cbn. reflexivity.
Qed.

(** C6, at a shift with a penalty cell.  Ali arrives at 10:25 on Tuesday
    2024-03-05 (25 minutes late, penalty 5) and the sheet records a manual
    penalty of 2: net pay 3, balance 3.  Waiving the penalty and
    un-waiving it leaves the waiver at 0 again, but the net pay and the
    balance at 5: the toggle recomputes the net pay without the manual
    penalty. *)
Theorem toggle_twice_drops_manual_penalty :
  let rows :=
    [Sample.row [("Employee_Name", "Ali"); ("Date", "2024-03-05");
                 ("Check_In", "10:25"); ("Check_Out", "19:00");
                 ("Penalty", "2")]] in
  let created := detailedLogs (Sample.run rows) in
  let once := toggleWaiver (Sample.randomId 0) created in
  let twice := toggleWaiver (Sample.randomId 0) once in
  exists s s1 s2 : DayShift.t,
    created = [s] /\ once = [s1] /\ twice = [s2]
    /\ DayShift.attendancePenalty s = num 5
    /\ DayShift.manualPenalty s = num 2
    /\ DayShift.penaltyWaiver s = 0%Qc
    /\ DayShift.netPay s = num 3
    /\ DayShift.balanceRemaining s = num 3
    /\ DayShift.penaltyWaiver s1 = num 5
    /\ DayShift.netPay s1 = num 10
    /\ DayShift.penaltyWaiver s2 = 0%Qc
    /\ DayShift.netPay s2 = num 5
    /\ DayShift.balanceRemaining s2 = num 5
    /\ DayShift.netPay s2 <> DayShift.netPay s
    /\ DayShift.balanceRemaining s2 <> DayShift.balanceRemaining s.
Proof.
  cbv zeta. do 3 eexists.
  split; [vm_compute; reflexivity |].
  split; [vm_compute; reflexivity |].
  split; [vm_compute; reflexivity |].
  repeat match goal with |- _ /\ _ => split end; try qc_compute.
  - intros H. apply (f_equal Qcanon.this) in H. vm_compute in H. discriminate.
  - intros H. apply (f_equal Qcanon.this) in H. vm_compute in H. discriminate.
Qed.

(** ** Actions with nothing supplied *)





(** ** Two runs on the same sheet *)







Section TwoRuns.

Variables ids1 ids2 : nat -> string.

























End TwoRuns.




(** ** The earlier processor on the same points *)

Module LegacySample.

(** Code-unit order, standing in for the host's collation. *)
Definition localeCompare (a b : string) : Z :=
  match String.compare a b with
  | Lt => -1
  | Eq => 0
  | Gt => 1
  end.

Definition run (rows : list AttendanceRecord) : Legacy.PayrollResult :=
  Legacy.processPayroll Sample.nativeDate Sample.randomId localeCompare rows
    Sample.FORCE_MAPPING.


End LegacySample.







(** Two toggles on Ali's shift, which carries no manual penalty, bring
    the net pay back. *)
Lemma toggle_twice_settled_witness :
  Forall (fun l =>
            DayShift.netPay (toggled (toggled l)) = DayShift.netPay l
            /\ DayShift.balanceRemaining (toggled (toggled l))
               = DayShift.balanceRemaining l)
    (detailedLogs
       (Sample.run
          [Sample.row [("Employee_Name", "Ali"); ("Date", "2024-03-05");
                       ("Check_In", "10:25"); ("Check_Out", "19:00");
                       ("Paid", "4")]])).
Proof.
  apply Forall_forall. intros l Hin. apply list_elem_of_In in Hin.
  vm_compute in Hin. destruct Hin as [<- | []].
  assert (H : forall l, settled l ->
            DayShift.netPay (toggled (toggled l)) = DayShift.netPay l
            /\ DayShift.balanceRemaining (toggled (toggled l))
               = DayShift.balanceRemaining l).
  { intros l Hl. destruct (toggle_twice_settled l Hl) as (_ & H1 & H2).
    now split. }
  apply H. unfold settled, balanceOk, netOk, netFormula. cbn.
  repeat split; try qc_compute.
  - intros Hlt. vm_compute in Hlt. discriminate.
  - left. qc_compute.
Defined.

(** * Ingestion, merge and display *)

(** ** Lines of a sheet

    [parseCSVLine] of the file uploader ([src/unnamed/part_000], lines 21
    to 31) and [splitLine] of the application ([src/types.ts], lines 305
    to 321).  Both walk the line once, with the field read so far and the
    flag that says whether a quote is open. *)

Definition isQuote (c : ascii) : bool := (code c =? 34)%nat.

Definition isComma (c : ascii) : bool := (code c =? 44)%nat.

(** [cur.trim()], the field being kept with its last character first. *)
Definition fieldOf (cur : list ascii) : string := text (trimChars (rev cur)).

Fixpoint parseCSVLineGo (delimiter : ascii) (inQuote : bool)
    (cur line : list ascii) : list string :=
  match line with
  | c :: rest =>
      if isQuote c then parseCSVLineGo delimiter (negb inQuote) cur rest
      else if Ascii.eqb c delimiter && negb inQuote
      then fieldOf cur :: parseCSVLineGo delimiter inQuote [] rest
      else parseCSVLineGo delimiter inQuote (c :: cur) rest
  | [] => [fieldOf cur]
  end.

Definition parseCSVLine (line : string) (delimiter : ascii) : list string :=
  parseCSVLineGo delimiter false [] (chars line).

Fixpoint splitLineGo (inQuote : bool) (cur line : list ascii) : list string :=
  match line with
  | c :: rest =>
      if isQuote c then
        match rest with
        | c' :: rest' =>
            if inQuote && isQuote c'
            then splitLineGo inQuote (c' :: cur) rest'
            else splitLineGo (negb inQuote) cur rest
        | [] => splitLineGo (negb inQuote) cur rest
        end
      else if isComma c && negb inQuote
      then fieldOf cur :: splitLineGo inQuote [] rest
      else splitLineGo inQuote (c :: cur) rest
  | [] => [fieldOf cur]
  end.

Definition splitLine (line : string) : list string :=
  splitLineGo false [] (chars line).

Definition comma : ascii := ascii_of_nat 44.
Definition quoteMark : ascii := ascii_of_nat 34.

Example csv_line_examples :
  parseCSVLine "Ali, 2024-03-05 ,10:25" comma = ["Ali"; "2024-03-05"; "10:25"]
  /\ parseCSVLine "a;b" comma = ["a;b"]
  /\ parseCSVLine "" comma = [""]
  /\ splitLine (text (chars "x," ++ [quoteMark] ++ chars "1,5" ++ [quoteMark]))
     = ["x"; "1,5"]
  /\ splitLine (text ([quoteMark] ++ chars "a" ++ [quoteMark; quoteMark]
                      ++ chars "b" ++ [quoteMark]))
     = [text (chars "a" ++ [quoteMark] ++ chars "b")]
  /\ parseCSVLine (text ([quoteMark] ++ chars "a" ++ [quoteMark; quoteMark]
                         ++ chars "b" ++ [quoteMark])) comma
     = ["ab"].
Proof. repeat split; reflexivity. Qed.

(** A cell written the way a spreadsheet exports it: between quotes, each
    quote of the cell doubled. *)
Fixpoint doubleQuotes (l : list ascii) : list ascii :=
  match l with
  | c :: r => if isQuote c then c :: c :: doubleQuotes r else c :: doubleQuotes r
  | [] => []
  end.

Definition quoted (cell : string) : list ascii :=
  quoteMark :: (doubleQuotes (chars cell) ++ [quoteMark])%list.

Fixpoint joinCells (cells : list (list ascii)) : list ascii :=
  match cells with
  | [] => []
  | [c] => c
  | c :: rest => (c ++ comma :: joinCells rest)%list
  end.

Definition exportedLine (cells : list string) : string :=
  text (joinCells (map quoted cells)).

(** No two quotes side by side. *)
Fixpoint quotesApart (l : list ascii) : bool :=
  match l with
  | c :: rest =>
      match rest with
      | c' :: _ => negb (isQuote c && isQuote c') && quotesApart rest
      | [] => true
      end
  | [] => true
  end.

Lemma chars_text (l : list ascii) : chars (text l) = l.
Proof. apply list_ascii_of_string_of_list_ascii. Qed.

Lemma text_chars (s : string) : text (chars s) = s.
Proof. apply string_of_list_ascii_of_string. Qed.

Lemma isComma_eqb (c : ascii) : Ascii.eqb c comma = isComma c.
Proof.
  destruct c as [[] [] [] [] [] [] [] []]; reflexivity.
Qed.

Lemma isQuote_comma (c : ascii) : isComma c = true -> isQuote c = false.
Proof.
  unfold isComma, isQuote. intros H%Nat.eqb_eq. rewrite H. reflexivity.
Qed.

Lemma dropSpaces_fixed (l : list ascii) :
  match l with c :: _ => isSpace c = false | [] => True end ->
  dropSpaces l = l.
Proof. destruct l as [|c l]; simpl; [reflexivity|]. now intros ->. Qed.

Lemma dropSpaces_split (l : list ascii) :
  exists p, l = (p ++ dropSpaces l)%list
            /\ match dropSpaces l with
               | c :: _ => isSpace c = false
               | [] => True
               end.
Proof.
  induction l as [|c l [p [Hp Hh]]]; simpl.
  - exists []. split; [reflexivity | exact I].
  - destruct (isSpace c) eqn:Hc.
    + exists (c :: p). split; [simpl; congruence | exact Hh].
    + exists []. split; [reflexivity | exact Hc].
Qed.

Lemma trimChars_idem (l : list ascii) : trimChars (trimChars l) = trimChars l.
Proof.
  unfold trimChars.
  destruct (dropSpaces_split l) as [p [_ Ha]].
  set (a := dropSpaces l) in *.
  destruct (dropSpaces_split (rev a)) as [q [Hq Hb]].
  set (b := dropSpaces (rev a)) in *.
  assert (Hfix : dropSpaces (rev b) = rev b).
  { apply dropSpaces_fixed.
    assert (Ha' : a = (rev b ++ rev q)%list).
    { rewrite <- (rev_involutive a), Hq, rev_app_distr. reflexivity. }
    destruct (rev b) as [|c r]; [exact I|].
    rewrite Ha' in Ha. exact Ha. }
  rewrite Hfix, rev_involutive.
  rewrite (dropSpaces_fixed b Hb). reflexivity.
Qed.

Lemma trim_idem (s : string) : trim (trim s) = trim s.
Proof.
  unfold trim. rewrite chars_text, trimChars_idem. reflexivity.
Qed.

Lemma dropSpaces_keeps (P : ascii -> Prop) (l : list ascii) :
  List.Forall P l -> List.Forall P (dropSpaces l).
Proof.
  induction 1 as [|c l Hc Hl IH]; simpl; [constructor|].
  destruct (isSpace c); [exact IH | now constructor].
Qed.

Lemma trimChars_keeps (P : ascii -> Prop) (l : list ascii) :
  List.Forall P l -> List.Forall P (trimChars l).
Proof.
  intros H. unfold trimChars.
  apply List.Forall_rev, dropSpaces_keeps, List.Forall_rev, dropSpaces_keeps, H.
Qed.

Definition cleanField (f : string) : Prop :=
  trim f = f /\ List.Forall (fun c => isQuote c = false) (chars f).

Lemma fieldOf_clean (cur : list ascii) :
  List.Forall (fun c => isQuote c = false) cur -> cleanField (fieldOf cur).
Proof.
  intros H. unfold cleanField, fieldOf. split.
  - unfold trim. rewrite chars_text, trimChars_idem. reflexivity.
  - rewrite chars_text. apply trimChars_keeps, List.Forall_rev, H.
Qed.

Lemma parseCSVLineGo_clean (delimiter : ascii) (line : list ascii) :
  forall inQuote cur,
    List.Forall (fun c => isQuote c = false) cur ->
    List.Forall cleanField (parseCSVLineGo delimiter inQuote cur line).
Proof.
  induction line as [|c rest IH]; intros inQuote cur Hcur; simpl.
  - constructor; [now apply fieldOf_clean | constructor].
  - destruct (isQuote c) eqn:Hq; [now apply IH|].
    destruct (Ascii.eqb c delimiter && negb inQuote).
    + constructor; [now apply fieldOf_clean | apply IH; constructor].
    + apply IH. now constructor.
Qed.

(** Every field that [parseCSVLine] returns is trimmed and holds no
    quote character, whatever the line and the delimiter, and there is
    always at least one field. *)
Theorem parseCSVLine_fields_are_clean (line : string) (delimiter : ascii) :
  parseCSVLine line delimiter <> []
  /\ List.Forall cleanField (parseCSVLine line delimiter).
Proof.
  split.
  - unfold parseCSVLine. generalize (@nil ascii) at 1. generalize false.
    induction (chars line) as [|c rest IH]; intros inQuote cur; simpl.
    + discriminate.
    + destruct (isQuote c); [apply IH|].
      destruct (Ascii.eqb c delimiter && negb inQuote); [discriminate | apply IH].
  - apply parseCSVLineGo_clean. constructor.
Qed.

Lemma splitLineGo_quoted (cell : list ascii) (rest : list ascii) :
  match rest with c :: _ => isQuote c = false | [] => True end ->
  forall cur,
    splitLineGo true cur (doubleQuotes cell ++ quoteMark :: rest)%list
    = splitLineGo false (rev cell ++ cur)%list rest.
Proof.
  intros Hrest. induction cell as [|c r IH]; intros cur.
  - simpl. destruct rest as [|c' rest']; [reflexivity|].
    change (isQuote quoteMark) with true. cbv iota.
    rewrite Hrest. reflexivity.
  - simpl doubleQuotes. destruct (isQuote c) eqn:Hc.
    + change ((c :: c :: doubleQuotes r) ++ quoteMark :: rest)%list
        with (c :: c :: (doubleQuotes r ++ quoteMark :: rest))%list.
      simpl splitLineGo. rewrite Hc. simpl. rewrite IH.
      rewrite <- app_assoc. reflexivity.
    + change ((c :: doubleQuotes r) ++ quoteMark :: rest)%list
        with (c :: (doubleQuotes r ++ quoteMark :: rest))%list.
      simpl splitLineGo. rewrite Hc.
      rewrite andb_false_r. rewrite IH.
      simpl. rewrite <- app_assoc. reflexivity.
Qed.

Lemma splitLineGo_cell (cell : string) (rest : list ascii) :
  match rest with c :: _ => isQuote c = false | [] => True end ->
  splitLineGo false [] (quoted cell ++ rest)%list
  = splitLineGo false (rev (chars cell)) rest.
Proof.
  intros Hrest. unfold quoted.
  change ((quoteMark :: (doubleQuotes (chars cell) ++ [quoteMark])) ++ rest)%list
    with (quoteMark :: ((doubleQuotes (chars cell) ++ [quoteMark]) ++ rest))%list.
  rewrite <- app_assoc.
  change ([quoteMark] ++ rest)%list with (quoteMark :: rest).
  assert (Hopen : forall l, l <> [] ->
            splitLineGo false [] (quoteMark :: l) = splitLineGo true [] l).
  { intros [|c l] Hl; [congruence | reflexivity]. }
  rewrite Hopen by (destruct (doubleQuotes (chars cell)); discriminate).
  rewrite (splitLineGo_quoted (chars cell) rest Hrest), app_nil_r.
  reflexivity.
Qed.

Lemma splitLineGo_comma (cur rest : list ascii) :
  splitLineGo false cur (comma :: rest)
  = fieldOf cur :: splitLineGo false [] rest.
Proof. reflexivity. Qed.

Lemma fieldOf_cell (cell : string) : fieldOf (rev (chars cell)) = trim cell.
Proof. unfold fieldOf. rewrite rev_involutive. reflexivity. Qed.

Lemma splitLineGo_exported (cell : string) (cells : list string) :
  splitLineGo false [] (joinCells (map quoted (cell :: cells)))
  = map trim (cell :: cells).
Proof.
  revert cell. induction cells as [|cell' cells IH]; intros cell.
  - change (joinCells (map quoted [cell])) with (quoted cell).
    rewrite <- (app_nil_r (quoted cell)), (splitLineGo_cell cell [] I).
    simpl. rewrite fieldOf_cell. reflexivity.
  - change (joinCells (map quoted (cell :: cell' :: cells)))
      with (quoted cell ++ comma :: joinCells (map quoted (cell' :: cells)))%list.
    rewrite splitLineGo_cell by reflexivity.
    rewrite splitLineGo_comma, IH, fieldOf_cell. reflexivity.
Qed.

(** [splitLine] reads back a line of quoted cells: from the cells
    written between quotes, with their quotes doubled, and joined by
    commas, it returns each cell trimmed, commas and quotes inside the
    cells included. *)
Theorem splitLine_reads_exported_cells (cell : string) (cells : list string) :
  splitLine (exportedLine (cell :: cells)) = map trim (cell :: cells).
Proof.
  unfold splitLine, exportedLine. rewrite chars_text.
  apply splitLineGo_exported.
Qed.

Lemma parseCSVLineGo_splitLineGo (line : list ascii) :
  quotesApart line = true ->
  forall inQuote cur,
    parseCSVLineGo comma inQuote cur line = splitLineGo inQuote cur line.
Proof.
  induction line as [|c rest IH]; intros Hap inQuote cur; [reflexivity|].
  assert (Hrest : quotesApart rest = true).
  { simpl in Hap. destruct rest; [reflexivity|].
    now apply andb_true_iff in Hap as [_ ?]. }
  simpl parseCSVLineGo. simpl splitLineGo. rewrite isComma_eqb.
  destruct (isQuote c) eqn:Hc.
  - destruct rest as [|c' rest']; [apply IH, Hrest|].
    simpl in Hap. rewrite Hc in Hap.
    apply andb_true_iff in Hap as [Hc' _].
    simpl in Hc'. apply negb_true_iff in Hc'. rewrite Hc', andb_false_r.
    apply IH, Hrest.
  - destruct (isComma c && negb inQuote); [f_equal|]; apply IH, Hrest.
Qed.

(** On a line in which no two quote characters stand side by side,
    the uploader's [parseCSVLine], called with the comma, and the
    application's [splitLine] return the same fields. *)
Theorem parseCSVLine_agrees_with_splitLine (line : string) :
  quotesApart (chars line) = true ->
  parseCSVLine line comma = splitLine line.
Proof.
  intros H. unfold parseCSVLine, splitLine.
  now apply parseCSVLineGo_splitLineGo.
Qed.

Lemma parseCSVLine_agrees_with_splitLine_witness :
  parseCSVLine (exportedLine ["Ali, M."; "10:25"]) comma
  = splitLine (exportedLine ["Ali, M."; "10:25"]).
Proof.
  apply parseCSVLine_agrees_with_splitLine. vm_compute. reflexivity.
Defined.

(** ** Sheets

    [parseCSV] of the application ([src/types.ts], lines 296 to 335) and
    [processCsvContent] of the uploader ([src/unnamed/part_000], lines 33
    to 60).  Text being ASCII, the byte order mark that both remove from
    the start of the text never occurs. *)

Definition isLF (c : ascii) : bool := (code c =? 10)%nat.

Definition isCR (c : ascii) : bool := (code c =? 13)%nat.

(** The split at line ends: a line feed, or a carriage return with the
    line feed that follows it. *)
Fixpoint splitLinesGo (cur l : list ascii) : list string :=
  match l with
  | c :: rest =>
      if isLF c then text (rev cur) :: splitLinesGo [] rest
      else if isCR c then
        match rest with
        | c' :: rest' =>
            if isLF c' then text (rev cur) :: splitLinesGo [] rest'
            else splitLinesGo (c :: cur) rest
        | [] => splitLinesGo (c :: cur) rest
        end
      else splitLinesGo (c :: cur) rest
  | [] => [text (rev cur)]
  end.

Definition splitLines (s : string) : list string := splitLinesGo [] (chars s).

(** The filter that keeps the lines with something else than white
    space. *)
Definition nonBlank (line : string) : bool := truthy (trim line).

Definition accessDenied : string :=
  "ACCESS DENIED: Google Sheet is not publicly published. Use 'Publish to Web' as CSV.".

Definition emptyData : string := "EMPTY DATA: Spreadsheet contains no records.".

Definition dropLastQuote (l : list ascii) : list ascii :=
  match rev l with
  | q :: m => if isQuote q then rev m else l
  | [] => l
  end.

(** The replacement that removes a quote at the very start and a quote at
    the very end, each where it is there. *)
Definition stripEdgeQuotes (s : string) : string :=
  text match chars s with
       | q :: r => if isQuote q then dropLastQuote r else dropLastQuote (q :: r)
       | [] => []
       end.

(** [values[index] || ''] *)
Definition cellAt (values : list string) (index : nat) : string :=
  orElse (values !! index) "".

(** The [forEach] over the headers that fills one record, from the header
    at [index] on. *)
Fixpoint fillFrom (cell : string -> string) (values : list string)
    (index : nat) (headers : list string) (record : AttendanceRecord)
  : AttendanceRecord :=
  match headers with
  | h :: rest =>
      fillFrom cell values (S index) rest
        (if truthy h then <[h := cell (cellAt values index)]> record
         else record)
  | [] => record
  end.

Definition sheetCell (v : string) : string := trim (stripEdgeQuotes v).

Definition sheetRecords (headers : list string) (dataLines : list string)
  : list AttendanceRecord :=
  omap (fun line =>
          let values := splitLine line in
          if (length values <? 2)%nat then None
          else Some (fillFrom sheetCell values 0 headers ∅))
       dataLines.

Definition parseCSV (csvText : string)
  : string + (list string * list AttendanceRecord) :=
  let cleanText := trim csvText in
  let lowered := chars (toLowerCase cleanText) in
  if startsWith (chars "<!doctype") lowered || startsWith (chars "<html") lowered
  then inl accessDenied
  else
    match List.filter nonBlank (splitLines cleanText) with
    | first :: ((_ :: _) as dataLines) =>
        let headers := map sheetCell (splitLine first) in
        inr (headers, sheetRecords headers dataLines)
    | _ => inl emptyData
    end.

Definition semicolon : ascii := ascii_of_nat 59.

(** One step of the [forEach] that guesses the mapping. *)
Definition guessStep (guess : ColumnMapping.t) (h : string) : ColumnMapping.t :=
  let hl := trim (toLowerCase h) in
  let '(ColumnMapping.mk name date checkIn checkOut paid penalty) := guess in
  if String.eqb hl "name"
  then ColumnMapping.mk h date checkIn checkOut paid penalty
  else if String.eqb hl "date"
  then ColumnMapping.mk name h checkIn checkOut paid penalty
  else if String.eqb hl "check in" || String.eqb hl "arrival"
  then ColumnMapping.mk name date h checkOut paid penalty
  else if String.eqb hl "check out" || String.eqb hl "departure"
  then ColumnMapping.mk name date checkIn h paid penalty
  else if String.eqb hl "paid"
  then ColumnMapping.mk name date checkIn checkOut h penalty
  else guess.

(** The state that [processCsvContent] sets: the headers, the records and
    the guessed mapping; [None] when it returns before setting any. *)
Definition processCsvContent (csvText : string)
  : option (list string * list AttendanceRecord * ColumnMapping.t) :=
  match List.filter nonBlank (splitLines csvText) with
  | first :: ((_ :: _) as dataLines) =>
      let commaHeaders := parseCSVLine first comma in
      let semiHeaders := parseCSVLine first semicolon in
      let bySemicolon :=
        (length commaHeaders <? 2)%nat
        && (length commaHeaders <? length semiHeaders)%nat in
      let delimiter := if bySemicolon then semicolon else comma in
      let rawHeaders := if bySemicolon then semiHeaders else commaHeaders in
      Some (rawHeaders,
            map (fun line =>
                   fillFrom trim (parseCSVLine line delimiter) 0 rawHeaders ∅)
                dataLines,
            fold_left guessStep rawHeaders
              (ColumnMapping.mk "" "" "" "" "" None))
  | _ => None
  end.

Definition newline : string := String (ascii_of_nat 10) EmptyString.

Definition crlf : string :=
  String (ascii_of_nat 13) (String (ascii_of_nat 10) EmptyString).

Example splitLines_examples :
  splitLines ("a" ++ newline ++ "b" ++ crlf ++ crlf ++ "c")
  = ["a"; "b"; ""; "c"]
  /\ splitLines "" = [""]
  /\ stripEdgeQuotes dquote = ""
  /\ stripEdgeQuotes (dquote ++ "a" ++ dquote ++ "b") = "a" ++ dquote ++ "b"
  /\ stripEdgeQuotes ("ab" ++ dquote) = "ab".
Proof. repeat split; reflexivity. Qed.

Example parseCSV_examples :
  parseCSV ("Employee_Name,Date" ++ newline ++ "Ali,2024-03-05" ++ newline
            ++ "lonely" ++ crlf)
  = inr (["Employee_Name"; "Date"],
         [Sample.row [("Employee_Name", "Ali"); ("Date", "2024-03-05")]])
  /\ parseCSV " <HTML><body>" = inl accessDenied
  /\ parseCSV ("Employee_Name,Date" ++ newline ++ "  ") = inl emptyData
  /\ parseCSV ("a,,b" ++ newline ++ "1,2") 
     = inr (["a"; ""; "b"], [Sample.row [("a", "1"); ("b", "")]]).
Proof. repeat split; vm_compute; reflexivity. Qed.

Example processCsvContent_examples :
  processCsvContent ("Name;Date;Arrival" ++ newline ++ "Ali;2024-03-05;10:25")
  = Some (["Name"; "Date"; "Arrival"],
          [Sample.row [("Name", "Ali"); ("Date", "2024-03-05");
                       ("Arrival", "10:25")]],
          ColumnMapping.mk "Name" "Date" "Arrival" "" "" None)
  /\ processCsvContent "Name,Date" = None.
Proof. split; vm_compute; reflexivity. Qed.

Lemma truthy_true (s : string) : truthy s = true <-> s <> "".
Proof. destruct s; simpl; split; congruence. Qed.

Lemma fillFrom_is_Some (cell : string -> string) (values : list string)
    (headers : list string) (h : string) :
  forall index record,
    is_Some (fillFrom cell values index headers record !! h)
    <-> is_Some (record !! h) \/ (In h headers /\ truthy h = true).
Proof.
  induction headers as [|a rest IH]; intros index record; simpl.
  - tauto.
  - rewrite IH. destruct (truthy a) eqn:Ha.
    + rewrite lookup_insert_is_Some'. split.
      * intros [[-> | H] | [H1 H2]]; auto.
      * intros [H | [[-> | H1] H2]]; auto.
    + split.
      * intros [H | [H1 H2]]; auto.
      * intros [H | [[-> | H1] H2]]; auto. congruence.
Qed.

Lemma fillFrom_cell (cell : string -> string) (values : list string)
    (headers : list string) (h v : string) :
  forall index record,
    fillFrom cell values index headers record !! h = Some v ->
    record !! h = Some v \/ exists i, v = cell (cellAt values i).
Proof.
  induction headers as [|a rest IH]; intros index record; simpl.
  - auto.
  - intros H. apply IH in H as [H | H]; [| now right].
    destruct (truthy a); [| now left].
    destruct (decide (a = h)) as [-> | Hne].
    + rewrite lookup_insert_eq in H. right. exists index. congruence.
    + rewrite lookup_insert_ne in H by exact Hne. now left.
Qed.

Lemma sheetCell_trimmed (v : string) : trim (sheetCell v) = sheetCell v.
Proof. apply trim_idem. Qed.

(** What a record of a sheet looks like under the headers it was filled
    from: a cell for every header that is not empty and for nothing else,
    each cell trimmed. *)
Definition filledFrom (headers : list string) (record : AttendanceRecord)
  : Prop :=
  (forall h, is_Some (record !! h) <-> In h headers /\ h <> "")
  /\ (forall h v, record !! h = Some v -> trim v = v).

Lemma fillFrom_filled (cell : string -> string) (values headers : list string) :
  (forall v, trim (cell v) = cell v) ->
  filledFrom headers (fillFrom cell values 0 headers ∅).
Proof.
  intros Hcell. split.
  - intros h. rewrite fillFrom_is_Some, truthy_true, lookup_empty.
    split; [intros [[x Hx] | H]; [discriminate | exact H] | now right].
  - intros h v H. apply fillFrom_cell in H as [H | [i ->]].
    + rewrite lookup_empty in H. discriminate.
    + apply Hcell.
Qed.

Lemma sheetRecords_filled (headers dataLines : list string) :
  List.Forall (filledFrom headers) (sheetRecords headers dataLines).
Proof.
  unfold sheetRecords.
  induction dataLines as [|line rest IH]; cbn [omap list_omap];
    [constructor|].
  destruct (length (splitLine line) <? 2)%nat; [exact IH|].
  constructor; [| exact IH].
  apply fillFrom_filled, sheetCell_trimmed.
Qed.

(** When [parseCSV] returns, every header is trimmed, and every
    record holds one trimmed cell for each header that is not empty, and
    no other key: a short line gets empty cells, a long one loses its
    extra values. *)
Theorem parseCSV_records_follow_headers (csvText : string)
    (headers : list string) (data : list AttendanceRecord) :
  parseCSV csvText = inr (headers, data) ->
  List.Forall (fun h => trim h = h) headers
  /\ List.Forall (filledFrom headers) data.
Proof.
  unfold parseCSV.
  destruct (startsWith _ _ || startsWith _ _); [discriminate|].
  destruct (List.filter nonBlank (splitLines (trim csvText)))
    as [|first [|second more]]; try discriminate.
  intros H. injection H as <- <-. split.
  - apply List.Forall_forall. intros h [v [<- _]]%in_map_iff.
    apply sheetCell_trimmed.
  - apply (sheetRecords_filled _ (second :: more)).
Qed.

Lemma parseCSV_records_follow_headers_witness :
  List.Forall (fun h => trim h = h) ["Employee_Name"; ""; "Date"]
  /\ List.Forall (filledFrom ["Employee_Name"; ""; "Date"])
       [Sample.row [("Employee_Name", "Ali"); ("Date", "")]].
Proof.
  apply (parseCSV_records_follow_headers
           (" Employee_Name ,, Date" ++ newline ++ "Ali,x")).
  vm_compute. reflexivity.
Defined.

(** A column of the guessed mapping: not chosen, or a header that reads
    as one of the key words and has a cell in every record. *)
Definition guessedAs (headers : list string) (data : list AttendanceRecord)
    (keywords : list string) (column : string) : Prop :=
  column = ""
  \/ (In column headers
      /\ In (trim (toLowerCase column)) keywords
      /\ List.Forall (fun record : AttendanceRecord =>
                        is_Some (record !! column)) data).

Definition chosenAs (headers : list string) (keywords : list string)
    (column : string) : Prop :=
  column = ""
  \/ (In column headers /\ In (trim (toLowerCase column)) keywords
      /\ column <> "").

Definition guessOk (headers : list string) (guess : ColumnMapping.t) : Prop :=
  chosenAs headers ["name"] (ColumnMapping.name guess)
  /\ chosenAs headers ["date"] (ColumnMapping.date guess)
  /\ chosenAs headers ["check in"; "arrival"] (ColumnMapping.checkIn guess)
  /\ chosenAs headers ["check out"; "departure"] (ColumnMapping.checkOut guess)
  /\ chosenAs headers ["paid"] (ColumnMapping.paid guess)
  /\ ColumnMapping.penalty guess = None.

Lemma keyword_not_empty (h k : string) :
  String.eqb (trim (toLowerCase h)) k = true -> k <> "" -> h <> "".
Proof.
  intros H Hk ->. apply String.eqb_eq in H. vm_compute in H. congruence.
Qed.

Lemma guessStep_ok (headers : list string) (guess : ColumnMapping.t)
    (h : string) :
  In h headers -> guessOk headers guess -> guessOk headers (guessStep guess h).
Proof.
  intros Hin. destruct guess as [n d ci co p pen].
  unfold guessOk, guessStep. cbn [ColumnMapping.name ColumnMapping.date
    ColumnMapping.checkIn ColumnMapping.checkOut ColumnMapping.paid
    ColumnMapping.penalty].
  intros (Hn & Hd & Hci & Hco & Hp & Hpen).
  assert (Hnew : forall k ks, String.eqb (trim (toLowerCase h)) k = true ->
                   In k ks -> k <> "" -> chosenAs headers ks h).
  { intros k ks Hk Hks Hne. right. split; [exact Hin|]. split.
    - apply String.eqb_eq in Hk. now rewrite Hk.
    - now apply (keyword_not_empty h k). }
  destruct (String.eqb (trim (toLowerCase h)) "name") eqn:E1.
  { cbn. repeat (split; [first [assumption | eapply Hnew; [exact E1 | now left | discriminate]]|]); assumption. }
  destruct (String.eqb (trim (toLowerCase h)) "date") eqn:E2.
  { cbn. repeat (split; [first [assumption | eapply Hnew; [exact E2 | now left | discriminate]]|]); assumption. }
  destruct (String.eqb (trim (toLowerCase h)) "check in") eqn:E3.
  { cbn. repeat (split; [first [assumption | eapply Hnew; [exact E3 | now left | discriminate]]|]); assumption. }
  destruct (String.eqb (trim (toLowerCase h)) "arrival") eqn:E4.
  { cbn. repeat (split; [first [assumption | eapply Hnew; [exact E4 | right; now left | discriminate]]|]); assumption. }
  destruct (String.eqb (trim (toLowerCase h)) "check out") eqn:E5.
  { cbn. repeat (split; [first [assumption | eapply Hnew; [exact E5 | now left | discriminate]]|]); assumption. }
  destruct (String.eqb (trim (toLowerCase h)) "departure") eqn:E6.
  { cbn. repeat (split; [first [assumption | eapply Hnew; [exact E6 | right; now left | discriminate]]|]); assumption. }
  destruct (String.eqb (trim (toLowerCase h)) "paid") eqn:E7.
  { cbn. repeat (split; [first [assumption | eapply Hnew; [exact E7 | now left | discriminate]]|]); assumption. }
  cbn. repeat (split; [assumption|]); assumption.
Qed.

Lemma guess_fold_ok (headers : list string) (hs : list string) :
  forall guess,
    (forall h, In h hs -> In h headers) ->
    guessOk headers guess ->
    guessOk headers (fold_left guessStep hs guess).
Proof.
  induction hs as [|h hs IH]; intros guess Hsub Hok; simpl; [exact Hok|].
  apply IH.
  - intros h' Hh'. apply Hsub. now right.
  - apply guessStep_ok; [apply Hsub; now left | exact Hok].
Qed.

Lemma chosen_guessed (headers : list string) (data : list AttendanceRecord)
    (keywords : list string) (column : string) :
  List.Forall (filledFrom headers) data ->
  chosenAs headers keywords column ->
  guessedAs headers data keywords column.
Proof.
  intros Hdata [-> | (Hin & Hk & Hne)]; [now left|].
  right. split; [exact Hin|]. split; [exact Hk|].
  apply List.Forall_forall. intros record Hrec.
  rewrite List.Forall_forall in Hdata.
  destruct (Hdata record Hrec) as [Hkeys _]. apply Hkeys. now split.
Qed.

(** The mapping that the uploader guesses names only columns of the
    sheet: each of its five columns is either left unchosen, or is a header
    that reads as one of the key words of that column once lowered and
    trimmed, and then every record of the sheet holds a cell under it.
    No penalty column is ever guessed. *)
Theorem guessed_mapping_names_columns (csvText : string)
    (headers : list string) (data : list AttendanceRecord)
    (guess : ColumnMapping.t) :
  processCsvContent csvText = Some (headers, data, guess) ->
  guessedAs headers data ["name"] (ColumnMapping.name guess)
  /\ guessedAs headers data ["date"] (ColumnMapping.date guess)
  /\ guessedAs headers data ["check in"; "arrival"]
       (ColumnMapping.checkIn guess)
  /\ guessedAs headers data ["check out"; "departure"]
       (ColumnMapping.checkOut guess)
  /\ guessedAs headers data ["paid"] (ColumnMapping.paid guess)
  /\ ColumnMapping.penalty guess = None.
Proof.
  unfold processCsvContent.
  destruct (List.filter nonBlank (splitLines csvText))
    as [|first [|second more]]; try discriminate.
  set (bySemicolon := (_ && _)%bool).
  set (rawHeaders := if bySemicolon then _ else _).
  set (delimiter := if bySemicolon then semicolon else comma).
  intros H. injection H as <- <- <-.
  assert (Hdata : List.Forall (filledFrom rawHeaders)
            (map (fun line =>
                    fillFrom trim (parseCSVLine line delimiter) 0 rawHeaders ∅)
                 (second :: more))).
  { apply List.Forall_forall. intros record [line [<- _]]%in_map_iff.
    apply fillFrom_filled, trim_idem. }
  assert (Hok : guessOk rawHeaders
            (fold_left guessStep rawHeaders
               (ColumnMapping.mk "" "" "" "" "" None))).
  { apply guess_fold_ok; [auto|].
    unfold guessOk; cbn. repeat (split; [now left|]). reflexivity. }
  destruct Hok as (Hn & Hd & Hci & Hco & Hp & Hpen).
  split; [now apply chosen_guessed|].
  split; [now apply chosen_guessed|].
  split; [now apply chosen_guessed|].
  split; [now apply chosen_guessed|].
  split; [now apply chosen_guessed | exact Hpen].
Qed.

Lemma guessed_mapping_names_columns_witness :
  guessedAs ["NAME"; "Date"; "Arrival"]
    [Sample.row [("NAME", "Ali"); ("Date", "2024-03-05"); ("Arrival", "")]]
    ["check in"; "arrival"] "Arrival".
Proof.
  apply (guessed_mapping_names_columns
           ("NAME;Date;Arrival" ++ newline ++ "Ali;2024-03-05")
           ["NAME"; "Date"; "Arrival"]
           [Sample.row [("NAME", "Ali"); ("Date", "2024-03-05");
                        ("Arrival", "")]]
           (ColumnMapping.mk "NAME" "Date" "Arrival" "" "" None)).
  vm_compute. reflexivity.
Defined.

(** ** Loading and appending data

    [handleDataReady] and [handleCloudSync] of the application
    ([src/types.ts], lines 337 to 389), the second from the point where
    the text of the sheet has arrived.  What follows the call of the
    processor on success, the stores and the audit request, is not
    modelled. *)

(** [recordMap.set(key, rec)]: a [Map] keeps its keys in the order of
    their first insertion. *)
Fixpoint mapSet {V : Type} (key : string) (rec : V)
    (recordMap : list (string * V)) : list (string * V) :=
  match recordMap with
  | (k, v) :: rest =>
      if String.eqb k key then (k, rec) :: rest
      else (k, v) :: mapSet key rec rest
  | [] => [(key, rec)]
  end.

(** The key under which a record is merged, when its name and its date
    are both there. *)
Definition mergeKey (mapping : ColumnMapping.t) (rec : AttendanceRecord)
  : option string :=
  match (fun v => trim (toLowerCase v)) <$> rec !! ColumnMapping.name mapping,
        trim <$> rec !! ColumnMapping.date mapping with
  | Some n, Some d =>
      if truthy n && truthy d then Some (n ++ "|" ++ d) else None
  | _, _ => None
  end.

Definition mergeStep (mapping : ColumnMapping.t)
    (recordMap : list (string * AttendanceRecord)) (rec : AttendanceRecord)
  : list (string * AttendanceRecord) :=
  match mergeKey mapping rec with
  | Some key => mapSet key rec recordMap
  | None => recordMap
  end.

(** [Array.from(recordMap.values())] after the [forEach] over the stored
    records followed by the new ones. *)
Definition mergeRecords (mapping : ColumnMapping.t)
    (masterRawData data : list AttendanceRecord) : list AttendanceRecord :=
  map snd (fold_left (mergeStep mapping) (masterRawData ++ data)%list []).

Definition finalDataOf (mapping : ColumnMapping.t)
    (masterRawData data : list AttendanceRecord) (isAppend : bool)
  : list AttendanceRecord :=
  if isAppend && (0 <? length masterRawData)%nat
  then mergeRecords mapping masterRawData data
  else data.

Definition forensicZero : string :=
  "FORENSIC ZERO: No valid attendance logs found. Verify column headers in Google Sheet.".

Section Application.

Variable nativeDate : string -> option Date.
Variable fnsParse : string -> string -> option Date.
Variable randomId : nat -> string.

(** The message of the error that is shown, or the raw data, the mapping
    and the result that are set. *)
Definition handleDataReady (masterRawData data : list AttendanceRecord)
    (mapping : ColumnMapping.t) (isAppend : bool)
  : string + (list AttendanceRecord * ColumnMapping.t * PayrollResult) :=
  let finalData := finalDataOf mapping masterRawData data isAppend in
  let payrollResult :=
    processPayroll nativeDate fnsParse randomId finalData mapping in
  match detailedLogs payrollResult with
  | [] => inl forensicZero
  | _ :: _ => inr (finalData, mapping, payrollResult)
  end.

Definition handleCloudSync (masterRawData : list AttendanceRecord)
    (csvText : string)
  : string + (list AttendanceRecord * ColumnMapping.t * PayrollResult) :=
  match parseCSV csvText with
  | inl message => inl message
  | inr (_, data) =>
      handleDataReady masterRawData data Sample.FORCE_MAPPING false
  end.

End Application.

(** The last record of a list that is merged under a key. *)
Definition lastFor (mapping : ColumnMapping.t) (key : string)
    (l : list AttendanceRecord) : option AttendanceRecord :=
  List.find (fun rec => bool_decide (mergeKey mapping rec = Some key)) (rev l).

(** The value of a [Map] at a key. *)
Fixpoint mapGet {V : Type} (key : string) (recordMap : list (string * V))
  : option V :=
  match recordMap with
  | (k, v) :: rest => if String.eqb k key then Some v else mapGet key rest
  | [] => None
  end.

Lemma mapGet_mapSet {V : Type} (key key' : string) (rec : V)
    (recordMap : list (string * V)) :
  mapGet key (mapSet key' rec recordMap)
  = if String.eqb key' key then Some rec else mapGet key recordMap.
Proof.
  induction recordMap as [|[k v] rest IH]; simpl.
  - destruct (String.eqb key' key); reflexivity.
  - destruct (String.eqb_spec k key') as [-> | Hne]; simpl.
    + destruct (String.eqb key' key); reflexivity.
    + rewrite IH. destruct (String.eqb_spec k key) as [-> | Hne'];
        [| reflexivity].
      destruct (String.eqb_spec key' key); congruence.
Qed.

Lemma keys_mapSet_known {V : Type} (key : string) (rec : V)
    (recordMap : list (string * V)) :
  In key (map fst recordMap) ->
  map fst (mapSet key rec recordMap) = map fst recordMap.
Proof.
  induction recordMap as [|[k v] rest IH]; simpl; [tauto|].
  destruct (String.eqb_spec k key) as [-> | Hne]; simpl; [reflexivity|].
  intros [? | Hin]; [congruence|]. now rewrite IH.
Qed.

Lemma keys_mapSet_new {V : Type} (key : string) (rec : V)
    (recordMap : list (string * V)) :
  ~ In key (map fst recordMap) ->
  map fst (mapSet key rec recordMap) = (map fst recordMap ++ [key])%list.
Proof.
  induction recordMap as [|[k v] rest IH]; simpl; [reflexivity|].
  intros Hout. destruct (String.eqb_spec k key) as [-> | Hne]; simpl.
  - exfalso. apply Hout. now left.
  - rewrite IH; [reflexivity | tauto].
Qed.

Lemma mapGet_Some {V : Type} (key : string) (recordMap : list (string * V))
    (rec : V) :
  mapGet key recordMap = Some rec -> In (key, rec) recordMap.
Proof.
  induction recordMap as [|[k v] rest IH]; simpl; [discriminate|].
  destruct (String.eqb_spec k key) as [-> | Hne].
  - intros [= ->]. now left.
  - intros H. right. now apply IH.
Qed.

Lemma mapGet_In {V : Type} (key : string) (recordMap : list (string * V))
    (rec : V) :
  List.NoDup (map fst recordMap) ->
  In (key, rec) recordMap -> mapGet key recordMap = Some rec.
Proof.
  induction recordMap as [|[k v] rest IH]; simpl; [tauto|].
  intros Hnd. apply List.NoDup_cons_iff in Hnd as [Hk Hnd].
  destruct (String.eqb_spec k key) as [-> | Hne].
  - intros [[= ->] | Hin]; [reflexivity|].
    exfalso. apply Hk. now apply (in_map fst) in Hin.
  - intros [[= ? ?] | Hin]; [congruence | now apply IH].
Qed.

Lemma mapGet_None {V : Type} (key : string) (recordMap : list (string * V)) :
  mapGet key recordMap = None <-> ~ In key (map fst recordMap).
Proof.
  induction recordMap as [|[k v] rest IH]; simpl; [tauto|].
  destruct (String.eqb_spec k key) as [-> | Hne].
  - split; [discriminate | intros H; exfalso; apply H; now left].
  - rewrite IH. split; [intros H [? | ?]; [congruence | tauto] | tauto].
Qed.

Section Merging.

Variable mapping : ColumnMapping.t.

(** The entries of the map are filed under their own keys, and no key
    comes twice. *)
Definition filed (recordMap : list (string * AttendanceRecord)) : Prop :=
  List.NoDup (map fst recordMap)
  /\ List.Forall (fun kv => mergeKey mapping (snd kv) = Some (fst kv)) recordMap.

Lemma mapSet_filed (key : string) (rec : AttendanceRecord)
    (recordMap : list (string * AttendanceRecord)) :
  mergeKey mapping rec = Some key ->
  filed recordMap -> filed (mapSet key rec recordMap).
Proof.
  intros Hkey [Hnd Hall]. split.
  - destruct (List.in_dec String.string_dec key (map fst recordMap))
      as [Hin | Hout].
    + now rewrite keys_mapSet_known.
    + rewrite keys_mapSet_new by exact Hout.
      apply NoDup_ListNoDup, NoDup_app. repeat split.
      * now apply NoDup_ListNoDup.
      * intros x Hx [-> | []]%list_elem_of_In.
        now apply list_elem_of_In in Hx.
      * apply NoDup_singleton.
  - clear Hnd. induction Hall as [|[k v] rest Hkv Hrest IH]; simpl.
    + constructor; [exact Hkey | constructor].
    + destruct (String.eqb_spec k key) as [-> | Hne];
        constructor; auto.
Qed.

Lemma mergeStep_filed (recordMap : list (string * AttendanceRecord))
    (rec : AttendanceRecord) :
  filed recordMap -> filed (mergeStep mapping recordMap rec).
Proof.
  intros H. unfold mergeStep.
  destruct (mergeKey mapping rec) eqn:Hkey; [now apply mapSet_filed | exact H].
Qed.

Lemma merge_filed (l : list AttendanceRecord) :
  forall recordMap,
    filed recordMap -> filed (fold_left (mergeStep mapping) l recordMap).
Proof.
  induction l as [|rec l IH]; intros recordMap H; simpl; [exact H|].
  apply IH, mergeStep_filed, H.
Qed.

Lemma filed_nil : filed [].
Proof. split; constructor. Qed.

Lemma lastFor_snoc (key : string) (l : list AttendanceRecord)
    (rec : AttendanceRecord) :
  lastFor mapping key (l ++ [rec])
  = if bool_decide (mergeKey mapping rec = Some key) then Some rec
    else lastFor mapping key l.
Proof. unfold lastFor. rewrite rev_app_distr. reflexivity. Qed.

Lemma mapGet_mergeStep (key : string)
    (recordMap : list (string * AttendanceRecord)) (rec : AttendanceRecord) :
  mapGet key (mergeStep mapping recordMap rec)
  = if bool_decide (mergeKey mapping rec = Some key) then Some rec
    else mapGet key recordMap.
Proof.
  unfold mergeStep. destruct (mergeKey mapping rec) as [k|] eqn:Hk.
  - rewrite mapGet_mapSet. destruct (String.eqb_spec k key) as [-> | Hne].
    + now rewrite bool_decide_eq_true_2.
    + rewrite bool_decide_eq_false_2; [reflexivity | congruence].
  - now rewrite bool_decide_eq_false_2.
Qed.

(** The value at a key after a run of [set] calls: the last record of the
    run with that key, or else the value that was there. *)
Lemma mapGet_merge (key : string) (l : list AttendanceRecord) :
  forall recordMap,
    mapGet key (fold_left (mergeStep mapping) l recordMap)
    = match lastFor mapping key l with
      | Some rec => Some rec
      | None => mapGet key recordMap
      end.
Proof.
  induction l as [|rec l IH] using rev_ind; intros recordMap; [reflexivity|].
  rewrite fold_left_app. cbn [fold_left].
  rewrite mapGet_mergeStep, lastFor_snoc, IH.
  destruct (bool_decide (mergeKey mapping rec = Some key)); reflexivity.
Qed.

Lemma lastFor_Some (key : string) (l : list AttendanceRecord)
    (rec : AttendanceRecord) :
  lastFor mapping key l = Some rec ->
  In rec l /\ mergeKey mapping rec = Some key.
Proof.
  unfold lastFor. intros H. apply List.find_some in H as [Hin Hk].
  split; [now apply List.in_rev | now apply bool_decide_eq_true in Hk].
Qed.

Lemma lastFor_None (key : string) (l : list AttendanceRecord) :
  lastFor mapping key l = None ->
  forall rec, In rec l -> mergeKey mapping rec <> Some key.
Proof.
  unfold lastFor. intros H rec Hin Hk.
  apply List.in_rev in Hin.
  pose proof (List.find_none _ _ H rec Hin) as Hf. cbn in Hf.
  now rewrite bool_decide_eq_true_2 in Hf.
Qed.

Lemma keys_mergeStep_known (recordMap : list (string * AttendanceRecord))
    (rec : AttendanceRecord) :
  (forall key, mergeKey mapping rec = Some key -> In key (map fst recordMap)) ->
  map fst (mergeStep mapping recordMap rec) = map fst recordMap.
Proof.
  intros H. unfold mergeStep. destruct (mergeKey mapping rec) as [k|];
    [| reflexivity].
  apply keys_mapSet_known. now apply H.
Qed.

Lemma keys_merge_known (l : list AttendanceRecord) :
  forall recordMap,
    (forall rec key, In rec l -> mergeKey mapping rec = Some key ->
                     In key (map fst recordMap)) ->
    map fst (fold_left (mergeStep mapping) l recordMap) = map fst recordMap.
Proof.
  induction l as [|rec l IH]; intros recordMap H; simpl; [reflexivity|].
  rewrite IH.
  - apply keys_mergeStep_known. intros key. apply H. now left.
  - intros rec' key Hin Hk. rewrite keys_mergeStep_known.
    + apply (H rec'); [now right | exact Hk].
    + intros key'. apply H. now left.
Qed.

(** Two maps with the same keys in the same order and the same value at
    every key are the same map. *)
Lemma map_ext_keys (m1 m2 : list (string * AttendanceRecord)) :
  map fst m1 = map fst m2 ->
  List.NoDup (map fst m1) ->
  (forall key, mapGet key m1 = mapGet key m2) ->
  m1 = m2.
Proof.
  revert m2. induction m1 as [|[k v] m1 IH]; intros [|[k' v'] m2]; simpl;
    try discriminate; [reflexivity|].
  intros [= <- Hkeys] Hnd Hget.
  apply List.NoDup_cons_iff in Hnd as [Hk Hnd].
  assert (Hv : v = v').
  { specialize (Hget k). rewrite String.eqb_refl in Hget. congruence. }
  subst v'. f_equal. apply IH; [exact Hkeys | exact Hnd |].
  intros key. specialize (Hget key).
  destruct (String.eqb_spec k key) as [-> | Hne]; [| exact Hget].
  transitivity (@None AttendanceRecord).
  - now apply mapGet_None.
  - symmetry. apply mapGet_None. now rewrite <- Hkeys.
Qed.

Lemma merge_values (recordMap acc : list (string * AttendanceRecord)) :
  filed (acc ++ recordMap)%list ->
  fold_left (mergeStep mapping) (map snd recordMap) acc
  = (acc ++ recordMap)%list.
Proof.
  revert acc. induction recordMap as [|[k v] rest IH]; intros acc H; simpl.
  - now rewrite app_nil_r.
  - assert (Hstep : mergeStep mapping acc v = (acc ++ [(k, v)])%list).
    { destruct H as [Hnd Hall]. unfold mergeStep.
      apply List.Forall_app in Hall as [_ Hall].
      apply List.Forall_inv in Hall. cbn in Hall. rewrite Hall.
      rewrite map_app in Hnd. cbn in Hnd.
      apply List.NoDup_remove_2 in Hnd.
      clear -Hnd. induction acc as [|[k' v'] acc IH]; simpl; [reflexivity|].
      destruct (String.eqb_spec k' k) as [-> | Hne].
      - exfalso. apply Hnd. now left.
      - f_equal. apply IH. intros Hin. apply Hnd.
        simpl. right. exact Hin. }
    rewrite Hstep, IH; rewrite <- app_assoc; [reflexivity | exact H].
Qed.

Lemma lastFor_in_keys (l : list AttendanceRecord)
    (recordMap : list (string * AttendanceRecord)) (rec : AttendanceRecord)
    (key : string) :
  In rec l -> mergeKey mapping rec = Some key ->
  In key (map fst (fold_left (mergeStep mapping) l recordMap)).
Proof.
  intros Hin Hk.
  destruct (mapGet key (fold_left (mergeStep mapping) l recordMap)) eqn:Hget.
  - apply mapGet_Some in Hget. now apply (in_map fst) in Hget.
  - rewrite mapGet_merge in Hget.
    destruct (lastFor mapping key l) eqn:Hlast; [discriminate|].
    exfalso. exact (lastFor_None key l Hlast rec Hin Hk).
Qed.

End Merging.

(** The merged data hold, for each key, the last record with that key of
    the stored records followed by the new ones, and nothing else: a new
    record replaces the stored one of the same employee and date text,
    and a record without a name or without a date is dropped. *)
Theorem merged_records_are_the_latest (mapping : ColumnMapping.t)
    (masterRawData data : list AttendanceRecord) (rec : AttendanceRecord) :
  In rec (mergeRecords mapping masterRawData data)
  <-> exists key,
        lastFor mapping key (masterRawData ++ data)%list = Some rec.
Proof.
  unfold mergeRecords.
  set (l := (masterRawData ++ data)%list).
  pose proof (merge_filed mapping l [] (filed_nil mapping)) as [Hnd Hall].
  split.
  - intros [[k v] [<- Hin]]%in_map_iff. exists k. cbn.
    apply (mapGet_In _ _ _ Hnd) in Hin.
    rewrite mapGet_merge in Hin.
    destruct (lastFor mapping k l); [exact Hin | discriminate].
  - intros [key Hlast]. apply in_map_iff. exists (key, rec).
    split; [reflexivity|]. apply mapGet_Some.
    rewrite mapGet_merge, Hlast. reflexivity.
Qed.

(** No two of the merged records have the same key, and each of them has
    one. *)
Theorem merged_keys_are_distinct (mapping : ColumnMapping.t)
    (masterRawData data : list AttendanceRecord) :
  List.NoDup (map (mergeKey mapping) (mergeRecords mapping masterRawData data))
  /\ List.Forall (fun rec => is_Some (mergeKey mapping rec))
       (mergeRecords mapping masterRawData data).
Proof.
  unfold mergeRecords.
  pose proof (merge_filed mapping (masterRawData ++ data)%list []
                (filed_nil mapping)) as [Hnd Hall].
  set (m := fold_left _ _ _) in *.
  assert (Hkeys : map (mergeKey mapping) (map snd m) = map Some (map fst m)).
  { clear Hnd. induction Hall as [|[k v] rest Hkv Hrest IH]; simpl;
      [reflexivity|]. cbn in Hkv. now rewrite Hkv, IH. }
  split.
  - rewrite Hkeys. apply List.NoDup_map_inv with (f := fun o => default "" o).
    rewrite map_map. cbn. now rewrite map_id.
  - apply List.Forall_forall. intros rec [[k v] [<- Hin]]%in_map_iff.
    rewrite List.Forall_forall in Hall. rewrite (Hall _ Hin). now eexists.
Qed.

(** Appending the same upload a second time changes nothing: merged into
    the data that came out of the first merge, the upload gives these data
    again, in the same order. *)
Theorem append_again_changes_nothing (mapping : ColumnMapping.t)
    (masterRawData data : list AttendanceRecord) :
  mergeRecords mapping (mergeRecords mapping masterRawData data) data
  = mergeRecords mapping masterRawData data.
Proof.
  unfold mergeRecords. f_equal.
  rewrite !fold_left_app.
  set (m0 := fold_left (mergeStep mapping) masterRawData []).
  set (m := fold_left (mergeStep mapping) data m0).
  assert (Hm : filed mapping m).
  { apply merge_filed, merge_filed, filed_nil. }
  rewrite (merge_values mapping m []) by exact Hm. cbn [app].
  assert (Hkeys : map fst (fold_left (mergeStep mapping) data m) = map fst m).
  { apply keys_merge_known. intros rec key Hin Hk.
    now apply (lastFor_in_keys mapping data m0 rec key). }
  apply map_ext_keys.
  - exact Hkeys.
  - rewrite Hkeys. apply Hm.
  - intros key. rewrite mapGet_merge.
    destruct (lastFor mapping key data) eqn:Hlast; [| reflexivity].
    unfold m. rewrite mapGet_merge, Hlast. reflexivity.
Qed.

Lemma rowGroups_without_name (nativeDate : string -> option Date)
    (fnsParse : string -> string -> option Date) (mapping : ColumnMapping.t)
    (grouped : list (string * Group)) (record : AttendanceRecord) :
  record !! ColumnMapping.name mapping = None ->
  rowGroups nativeDate fnsParse mapping grouped record = grouped
  /\ rowLog nativeDate fnsParse mapping record = [].
Proof.
  intros H. unfold rowGroups, rowLog, usableName, nameOf. rewrite H.
  split; reflexivity.
Qed.

Lemma processPayroll_without_name (nativeDate : string -> option Date)
    (fnsParse : string -> string -> option Date) (randomId : nat -> string)
    (mapping : ColumnMapping.t) (rows : list AttendanceRecord) :
  List.Forall (fun record : AttendanceRecord =>
                 record !! ColumnMapping.name mapping = None) rows ->
  processPayroll nativeDate fnsParse randomId rows mapping = mkResult [] [].
Proof.
  intros H. rewrite processPayroll_split.
  assert (Hg : fold_left (rowGroups nativeDate fnsParse mapping) rows [] = []
               /\ flat_map (rowLog nativeDate fnsParse mapping) rows = []).
  { generalize (@nil (string * Group)). intros grouped.
    induction H as [|record rows Hr Hrows IH]; simpl; [now split|].
    destruct (rowGroups_without_name nativeDate fnsParse mapping grouped
                record Hr) as [-> ->].
    exact IH. }
  destruct Hg as [-> ->]. reflexivity.
Qed.

(** A sheet without the forced name column cannot be loaded: when
    [parseCSV] returns headers of which none is the name column of the
    forced mapping, the cloud sync ends in the error that no valid log was
    found, whatever the rows hold. *)
Theorem sync_without_name_column (nativeDate : string -> option Date)
    (fnsParse : string -> string -> option Date) (randomId : nat -> string)
    (masterRawData : list AttendanceRecord) (csvText : string)
    (headers : list string) (data : list AttendanceRecord) :
  parseCSV csvText = inr (headers, data) ->
  ~ In (ColumnMapping.name Sample.FORCE_MAPPING) headers ->
  handleCloudSync nativeDate fnsParse randomId masterRawData csvText
  = inl forensicZero.
Proof.
  intros Hparse Hout. unfold handleCloudSync, handleDataReady.
  rewrite Hparse. cbn [finalDataOf andb].
  rewrite processPayroll_without_name; [reflexivity|].
  unfold parseCSV in Hparse.
  destruct (startsWith _ _ || startsWith _ _); [discriminate|].
  destruct (List.filter nonBlank (splitLines (trim csvText)))
    as [|first [|second more]]; try discriminate.
  injection Hparse as <- <-.
  pose proof (sheetRecords_filled (map sheetCell (splitLine first))
                (second :: more)) as Hfilled.
  eapply List.Forall_impl; [| exact Hfilled].
  intros record [Hkeys _].
  destruct (record !! ColumnMapping.name Sample.FORCE_MAPPING) eqn:Hget;
    [| reflexivity].
  exfalso. apply Hout.
  now destruct (proj1 (Hkeys _) (mk_is_Some _ _ Hget)) as [Hin _].
Qed.

Lemma sync_without_name_column_witness :
  handleCloudSync Sample.nativeDate Sample.fnsParse Sample.randomId []
    ("Name,Date,Check_In" ++ newline ++ "Ali,2024-03-05,10:25")
  = inl forensicZero.
Proof.
  apply (sync_without_name_column _ _ _ _ _ ["Name"; "Date"; "Check_In"]
           [Sample.row [("Name", "Ali"); ("Date", "2024-03-05");
                        ("Check_In", "10:25")]]).
  - vm_compute. reflexivity.
  - vm_compute. intros [H | [H | [H | []]]]; discriminate.
Defined.

(** ** What the grouping pass keeps

    The first [forEach] of the processor ([src/types.ts], lines 554 to
    579) files every row once: in a group, in the cleansing log, or
    nowhere when its name or its date is missing. *)

(** The rows held by the groups. *)
Definition held (grouped : list (string * Group)) : nat :=
  list_sum (map (fun kg => length (records (snd kg))) grouped).

(** The rows that the pass leaves without a trace: no usable name, or an
    empty date. *)
Definition passedOver (mapping : ColumnMapping.t) (record : AttendanceRecord)
  : bool :=
  negb (usableName mapping record && truthy (dateOf mapping record)).

Lemma addToGroup_held (key nameVal : string) (dateObj : Date)
    (record : AttendanceRecord) (grouped : list (string * Group)) :
  held (addToGroup key nameVal dateObj record grouped) = S (held grouped).
Proof.
  unfold held, list_sum.
  induction grouped as [|[k g] rest IH]; cbn [addToGroup].
  - reflexivity.
  - destruct (String.eqb k key); cbn [map fold_right snd records].
    + rewrite length_app. cbn [length]. lia.
    + rewrite IH. lia.
Qed.

Lemma addToGroup_keys_known (key nameVal : string) (dateObj : Date)
    (record : AttendanceRecord) (grouped : list (string * Group)) :
  In key (map fst grouped) ->
  map fst (addToGroup key nameVal dateObj record grouped) = map fst grouped.
Proof.
  induction grouped as [|[k g] rest IH]; cbn [addToGroup map fst In]; [tauto|].
  destruct (String.eqb_spec k key) as [-> | Hne]; [reflexivity|].
  intros [? | Hin]; [congruence|]. cbn [map fst]. now rewrite IH.
Qed.

Lemma addToGroup_keys_new (key nameVal : string) (dateObj : Date)
    (record : AttendanceRecord) (grouped : list (string * Group)) :
  ~ In key (map fst grouped) ->
  map fst (addToGroup key nameVal dateObj record grouped)
  = (map fst grouped ++ [key])%list.
Proof.
  induction grouped as [|[k g] rest IH]; cbn [addToGroup map fst];
    [reflexivity|].
  intros Hout. destruct (String.eqb_spec k key) as [-> | Hne].
  - exfalso. apply Hout. now left.
  - cbn [map fst app]. rewrite IH; [reflexivity|].
    intros Hin. apply Hout. now right.
Qed.

Lemma addToGroup_populated (key nameVal : string) (dateObj : Date)
    (record : AttendanceRecord) (grouped : list (string * Group)) :
  List.Forall (fun kg => records (snd kg) <> []) grouped ->
  List.Forall (fun kg => records (snd kg) <> [])
    (addToGroup key nameVal dateObj record grouped).
Proof.
  induction 1 as [|[k g] rest Hg Hrest IH]; cbn [addToGroup].
  - constructor; [discriminate | constructor].
  - destruct (String.eqb k key); constructor; auto.
    cbn. now destruct (records g).
Qed.

(** What the groups satisfy all along the pass. *)
Definition sound (grouped : list (string * Group)) : Prop :=
  List.NoDup (map fst grouped)
  /\ List.Forall (fun kg => records (snd kg) <> []) grouped.

Lemma addToGroup_sound (key nameVal : string) (dateObj : Date)
    (record : AttendanceRecord) (grouped : list (string * Group)) :
  sound grouped -> sound (addToGroup key nameVal dateObj record grouped).
Proof.
  intros [Hnd Hpop]. split; [| now apply addToGroup_populated].
  destruct (List.in_dec String.string_dec key (map fst grouped))
    as [Hin | Hout].
  - now rewrite addToGroup_keys_known.
  - rewrite addToGroup_keys_new by exact Hout.
    apply NoDup_ListNoDup, NoDup_app. repeat split.
    + now apply NoDup_ListNoDup.
    + intros x Hx [-> | []]%list_elem_of_In.
      now apply list_elem_of_In in Hx.
    + apply NoDup_singleton.
Qed.

Section Accounting.

Variable nativeDate : string -> option Date.
Variable fnsParse : string -> string -> option Date.
Variable mapping : ColumnMapping.t.

Lemma rowGroups_sound (grouped : list (string * Group))
    (record : AttendanceRecord) :
  sound grouped -> sound (rowGroups nativeDate fnsParse mapping grouped record).
Proof.
  intros H. unfold rowGroups.
  destruct (usableName mapping record && truthy (dateOf mapping record));
    [| exact H].
  destruct (robustParseDate nativeDate fnsParse (dateOf mapping record));
    [now apply addToGroup_sound | exact H].
Qed.

Lemma fold_rowGroups_sound (rows : list AttendanceRecord) :
  forall grouped,
    sound grouped ->
    sound (fold_left (rowGroups nativeDate fnsParse mapping) rows grouped).
Proof.
  induction rows as [|record rows IH]; intros grouped H; simpl; [exact H|].
  apply IH, rowGroups_sound, H.
Qed.

Lemma row_accounted (grouped : list (string * Group))
    (record : AttendanceRecord) :
  (held (rowGroups nativeDate fnsParse mapping grouped record)
   + length (rowLog nativeDate fnsParse mapping record)
   + (if passedOver mapping record then 1 else 0)
   = S (held grouped))%nat.
Proof.
  unfold rowGroups, rowLog, passedOver.
  destruct (usableName mapping record && truthy (dateOf mapping record));
    cbn [negb length]; [| lia].
  destruct (robustParseDate nativeDate fnsParse (dateOf mapping record));
    cbn [length]; [rewrite addToGroup_held |]; lia.
Qed.

Lemma rows_accounted (rows : list AttendanceRecord) :
  forall grouped,
    (held (fold_left (rowGroups nativeDate fnsParse mapping) rows grouped)
     + length (flat_map (rowLog nativeDate fnsParse mapping) rows)
     + length (List.filter (passedOver mapping) rows)
     = held grouped + length rows)%nat.
Proof.
  induction rows as [|record rows IH]; intros grouped;
    cbn [fold_left flat_map List.filter length]; [lia|].
  specialize (IH (rowGroups nativeDate fnsParse mapping grouped record)).
  pose proof (row_accounted grouped record) as Hrow.
  rewrite length_app.
  destruct (passedOver mapping record); cbn [length]; lia.
Qed.

Lemma held_bound (grouped : list (string * Group)) :
  List.Forall (fun kg => records (snd kg) <> []) grouped ->
  (length grouped <= held grouped)%nat.
Proof.
  unfold held, list_sum.
  induction 1 as [|[k g] rest Hg Hrest IH]; cbn [map fold_right length snd];
    [lia|].
  cbn in Hg. destruct (records g); [congruence | cbn [length]; lia].
Qed.

End Accounting.

Lemma shiftsFrom_length (randomId : nat -> string) (mapping : ColumnMapping.t)
    (groups : list (string * Group)) :
  forall k, length (shiftsFrom randomId mapping k groups) = length groups.
Proof.
  induction groups as [|[key g] rest IH]; intros k; cbn; [reflexivity|].
  now rewrite IH.
Qed.

(** The grouping pass files every row exactly once: the rows held by the
    groups, the entries of the cleansing log and the rows passed over for
    a missing name, a header name or an empty date add up to the rows
    given.  No key has two groups, and no group is empty. *)
Theorem grouping_accounts_for_every_row (nativeDate : string -> option Date)
    (fnsParse : string -> string -> option Date) (mapping : ColumnMapping.t)
    (rawRecords : list AttendanceRecord) :
  let '(grouped, logs) := groupRows nativeDate fnsParse mapping rawRecords in
  (held grouped + length logs
   + length (List.filter (passedOver mapping) rawRecords)
   = length rawRecords)%nat
  /\ List.NoDup (map fst grouped)
  /\ List.Forall (fun kg => records (snd kg) <> []) grouped.
Proof.
  rewrite groupRows_split.
  pose proof (rows_accounted nativeDate fnsParse mapping rawRecords []) as Hsum.
  pose proof (fold_rowGroups_sound nativeDate fnsParse mapping rawRecords []) as Hs.
  destruct Hs as [Hnd Hpop]; [split; constructor|].
  split; [exact Hsum|]. split; assumption.
Qed.

(** The ledger and the cleansing log together never have more entries
    than there are rows: every shift stands for at least one row of its
    own, and every log entry for one more. *)
Theorem ledger_never_outgrows_rows (nativeDate : string -> option Date)
    (fnsParse : string -> string -> option Date) (randomId : nat -> string)
    (mapping : ColumnMapping.t) (rawRecords : list AttendanceRecord) :
  let result :=
    processPayroll nativeDate fnsParse randomId rawRecords mapping in
  (length (detailedLogs result) + length (cleansingLogs result)
   <= length rawRecords)%nat.
Proof.
  cbn zeta. rewrite processPayroll_split. cbn [detailedLogs cleansingLogs].
  rewrite shiftsFrom_length.
  pose proof (rows_accounted nativeDate fnsParse mapping rawRecords []) as Hsum.
  pose proof (fold_rowGroups_sound nativeDate fnsParse mapping rawRecords []) as Hs.
  destruct Hs as [_ Hpop]; [split; constructor|].
  apply held_bound in Hpop. cbn in Hsum. lia.
Qed.

(** ** Times of day written by the results components

    The export of the earlier results component writes the arrival and
    the departure with [format(..., 'HH:mm')]
    ([src/components/PayrollResults.tsx], line 178); the ledger of the
    later one shows them with [format(..., 'h:mm a')]
    ([src/unnamed/part_001], line 287). *)

(** date-fns [format(date, 'HH:mm')] *)
Definition formatClock (d : Date) : string :=
  addLeadingZeros (getHours d) 2 ++ ":" ++ addLeadingZeros (getMinutes d) 2.

(** date-fns [format(date, 'h:mm a')] *)
Definition formatClock12 (d : Date) : string :=
  addLeadingZeros (if getHours d mod 12 =? 0 then 12 else getHours d mod 12) 1
  ++ ":" ++ addLeadingZeros (getMinutes d) 2
  ++ " " ++ (if 1 <=? getHours d / 12 then "PM" else "AM").

Example formatClock_examples :
  formatClock (19787 * msPerDay + 9 * msPerHour + 5 * msPerMinute) = "09:05"
  /\ formatClock12 (19787 * msPerDay + 9 * msPerHour + 5 * msPerMinute)
     = "9:05 AM"
  /\ formatClock12 (19787 * msPerDay + 30 * msPerMinute) = "12:30 AM"
  /\ formatClock12 (19787 * msPerDay + 12 * msPerHour) = "12:00 PM"
  /\ formatClock12 (19787 * msPerDay + 23 * msPerHour + 59 * msPerMinute)
     = "11:59 PM".
Proof. repeat split; reflexivity. Qed.

Definition sameTime (t : option TimeComponents) (h m : Z) : bool :=
  match t with
  | Some t => (hours t =? h) && (minutes t =? m) && (seconds t =? 0)
  | None => false
  end.

(** The minute [n] of a day, as an instant of the first day. *)
Definition minuteOfDay (n : nat) : Date := Z.of_nat n * msPerMinute.

Definition readsBack (fmt : Date -> string) (n : nat) : bool :=
  sameTime (extractTimeComponents (Some (fmt (minuteOfDay n))))
           (getHours (minuteOfDay n)) (getMinutes (minuteOfDay n)).

Lemma every_minute_reads_back :
  forallb (readsBack formatClock) (seq 0 1440) = true.
Proof. vm_compute. reflexivity. Qed.

Lemma every_minute_reads_back12 :
  forallb (readsBack formatClock12) (seq 0 1440) = true.
Proof. vm_compute. reflexivity. Qed.

Lemma clock_of_minute (d : Date) :
  exists n : nat,
    (n < 1440)%nat
    /\ getHours d = getHours (minuteOfDay n)
    /\ getMinutes d = getMinutes (minuteOfDay n).
Proof.
  exists (Z.to_nat ((d mod msPerDay) / msPerMinute)).
  assert (H : 0 <= (d mod msPerDay) / msPerMinute < 1440).
  { unfold msPerDay, msPerMinute. Z.div_mod_to_equations. lia. }
  split; [lia|]. unfold minuteOfDay. rewrite Z2Nat.id by lia.
  unfold getHours, getMinutes, msPerDay, msPerHour, msPerMinute in *.
  Z.div_mod_to_equations. lia.
Qed.

Lemma sameTime_true (t : option TimeComponents) (h m : Z) :
  sameTime t h m = true -> t = Some (mkTime h m 0).
Proof.
  destruct t as [[th tm ts]|]; cbn; [| discriminate].
  intros H. apply andb_true_iff in H as [H Hs].
  apply andb_true_iff in H as [Hh Hm].
  apply Z.eqb_eq in Hh, Hm, Hs. now subst.
Qed.

Lemma onDate_clock (d : Date) :
  onDate d (mkTime (getHours d) (getMinutes d) 0) = d - d mod msPerMinute.
Proof.
  unfold onDate, setTimeOnDate, startOfDayNative, getHours, getMinutes.
  cbn [hours minutes seconds].
  unfold msPerDay, msPerHour, msPerMinute, msPerSecond.
  Z.div_mod_to_equations. lia.
Qed.

Lemma reads_back (fmt : Date -> string) (d : Date) :
  forallb (readsBack fmt) (seq 0 1440) = true ->
  (forall n, getHours d = getHours (minuteOfDay n) ->
             getMinutes d = getMinutes (minuteOfDay n) ->
             fmt d = fmt (minuteOfDay n)) ->
  onDate d <$> extractTimeComponents (Some (fmt d))
  = Some (d - d mod msPerMinute).
Proof.
  intros Hall Hfmt. destruct (clock_of_minute d) as (n & Hn & Hh & Hm).
  rewrite forallb_forall in Hall.
  assert (Hin : In n (seq 0 1440)) by (apply in_seq; lia).
  apply Hall in Hin. unfold readsBack in Hin. apply sameTime_true in Hin.
  rewrite (Hfmt n Hh Hm), Hin, <- Hh, <- Hm. cbn [fmap option_fmap option_map].
  now rewrite onDate_clock.
Qed.

(** A time of day that the export writes is read back by the processor
    as the same minute: [extractTimeComponents] on the [HH:mm] text of an
    instant, set on the day of that instant, gives the instant with its
    seconds and milliseconds dropped. *)
Theorem exported_clock_reads_back (d : Date) :
  onDate d <$> extractTimeComponents (Some (formatClock d))
  = Some (d - d mod msPerMinute).
Proof.
  apply reads_back; [exact every_minute_reads_back|].
  intros n Hh Hm. unfold formatClock. now rewrite Hh, Hm.
Qed.

(** The same holds for the twelve-hour text that the ledger shows: the
    hour 12 with AM is read as 0, an hour below 12 with PM is moved to the
    afternoon. *)
Theorem displayed_clock_reads_back (d : Date) :
  onDate d <$> extractTimeComponents (Some (formatClock12 d))
  = Some (d - d mod msPerMinute).
Proof.
  apply reads_back; [exact every_minute_reads_back12|].
  intros n Hh Hm. unfold formatClock12. now rewrite Hh, Hm.
Qed.

(** ** The day of a ledger row, read again

    Both results components take the date text of a row apart and build a
    date from its three numbers, to find the month of the row
    ([src/unnamed/part_001], lines 30 and 31 and lines 104 and 105;
    [src/components/PayrollResults.tsx], lines 91 and 92 and lines 107
    and 108). *)

Definition isDash (c : ascii) : bool := (code c =? 45)%nat.

(** The date built from [log.date]; [None] when it is not valid. *)
Definition logDateObj (date : string) : option Date :=
  let parts := split isDash false date in
  newDateYMD (parts !! 0%nat ≫= parseInt)
             (pred (parts !! 1%nat ≫= parseInt))
             (parts !! 2%nat ≫= parseInt).

Example logDateObj_examples :
  logDateObj "2024-03-05" = Some (19787 * msPerDay)
  /\ logDateObj "2024-03" = None
  /\ logDateObj "0099-01-01" = logDateObj "1999-01-01".
Proof. repeat split; vm_compute; reflexivity. Qed.

(** A check of every number from [z] on, [fuel] of them. *)
Fixpoint allFrom (fuel : nat) (z : Z) (f : Z -> bool) : bool :=
  match fuel with
  | O => true
  | S k => f z && allFrom k (z + 1) f
  end.

Lemma allFrom_spec (f : Z -> bool) (fuel : nat) :
  forall z, allFrom fuel z f = true ->
            forall i, z <= i < z + Z.of_nat fuel -> f i = true.
Proof.
  induction fuel as [|k IH]; intros z H i Hi; [lia|].
  cbn [allFrom] in H. apply andb_true_iff in H as [Hz Hrest].
  destruct (Z.eq_dec i z) as [-> | Hne]; [exact Hz|].
  apply (IH (z + 1) Hrest). lia.
Qed.

(** The calendar within one era of 400 years. *)
Definition civilFromDoe (doe : Z) : Z * Z * Z :=
  let yoe := (doe - doe / 1460 + doe / 36524 - doe / 146096) / 365 in
  let doy := doe - (365 * yoe + yoe / 4 - yoe / 100) in
  let mp := (5 * doy + 2) / 153 in
  let d := doy - (153 * mp + 2) / 5 + 1 in
  let m := if mp <? 10 then mp + 3 else mp - 9 in
  (yoe, m, d).

Definition doeFromCivil (yoe m d : Z) : Z :=
  let mp := if 2 <? m then m - 3 else m + 9 in
  let doy := (153 * mp + 2) / 5 + d - 1 in
  yoe * 365 + yoe / 4 - yoe / 100 + doy.

Lemma civilFromDoe_spec (doe : Z) :
  0 <= doe < 146097 ->
  let '(yoe, m, d) := civilFromDoe doe in
  0 <= yoe < 400 /\ 1 <= m <= 12 /\ 1 <= d <= 31
  /\ doeFromCivil yoe m d = doe.
Proof.
  intros Hdoe. unfold civilFromDoe, doeFromCivil. cbv zeta.
  set (yoe := (doe - doe / 1460 + doe / 36524 - doe / 146096) / 365).
  set (doy := doe - (365 * yoe + yoe / 4 - yoe / 100)).
  assert (Hy : 0 <= yoe < 400 /\ 0 <= doy <= 365).
  { subst doy yoe. Z.div_mod_to_equations. lia. }
  destruct Hy as [Hyoe Hdoy].
  set (mp := (5 * doy + 2) / 153).
  assert (Hmp : 0 <= mp <= 11 /\ 1 <= doy - (153 * mp + 2) / 5 + 1 <= 31).
  { subst mp. Z.div_mod_to_equations. lia. }
  destruct Hmp as [Hmp Hd].
  split; [exact Hyoe|].
  destruct (mp <? 10) eqn:E; [apply Z.ltb_lt in E | apply Z.ltb_ge in E].
  - replace (2 <? mp + 3) with true by (symmetry; apply Z.ltb_lt; lia).
    replace (mp + 3 - 3) with mp by lia.
    split; [lia|]. split; [exact Hd|]. subst doy. lia.
  - replace (2 <? mp - 9) with false by (symmetry; apply Z.ltb_ge; lia).
    replace (mp - 9 + 9) with mp by lia.
    split; [lia|]. split; [exact Hd|]. subst doy. lia.
Qed.

Lemma civilFromDays_era (z : Z) :
  civilFromDays z
  = let era := (z + 719468) / 146097 in
    let '(yoe, m, d) := civilFromDoe (z + 719468 - era * 146097) in
    ((if m <=? 2 then yoe + era * 400 + 1 else yoe + era * 400), m, d).
Proof. reflexivity. Qed.

Lemma daysFromCivil_era (y m d : Z) :
  daysFromCivil y m d
  = let y' := if m <=? 2 then y - 1 else y in
    y' / 400 * 146097 + doeFromCivil (y' - y' / 400 * 400) m d - 719468.
Proof. unfold daysFromCivil, doeFromCivil. cbv zeta. lia. Qed.

(** The day number of the date of a day number is that day number, and
    the month and the day of the month are in their ranges. *)
Lemma civil_round_trip (z : Z) :
  let '(y, m, d) := civilFromDays z in
  daysFromCivil y m d = z /\ 1 <= m <= 12 /\ 1 <= d <= 31.
Proof.
  rewrite civilFromDays_era. cbv zeta.
  set (era := (z + 719468) / 146097).
  set (doe := z + 719468 - era * 146097).
  assert (Hdoe : 0 <= doe < 146097).
  { subst doe era. Z.div_mod_to_equations. lia. }
  pose proof (civilFromDoe_spec doe Hdoe) as Hc.
  destruct (civilFromDoe doe) as [[yoe m] d].
  destruct Hc as (Hyoe & Hm & Hd & Hback).
  rewrite daysFromCivil_era. cbv zeta.
  assert (Hy : (if m <=? 2
                then (if m <=? 2 then yoe + era * 400 + 1 else yoe + era * 400) - 1
                else (if m <=? 2 then yoe + era * 400 + 1 else yoe + era * 400))
               = yoe + era * 400).
  { destruct (m <=? 2); lia. }
  rewrite Hy.
  assert (He : (yoe + era * 400) / 400 = era).
  { Z.div_mod_to_equations. lia. }
  rewrite He.
  replace (yoe + era * 400 - era * 400) with yoe by lia.
  split; [subst doe; lia | split; assumption].
Qed.

Lemma daysFromCivil_day (y m d : Z) :
  daysFromCivil y m 1 + d - 1 = daysFromCivil y m d.
Proof. unfold daysFromCivil. cbv zeta. lia. Qed.

Lemma daysFromCivil_bound (y m d : Z) :
  100 <= y <= 9999 -> 1 <= m <= 12 -> 1 <= d <= 31 ->
  Z.abs (daysFromCivil y m d * msPerDay) <= maxTime.
Proof.
  intros Hy Hm Hd. unfold daysFromCivil, msPerDay, maxTime. cbv zeta.
  destruct (m <=? 2) eqn:E1; destruct (2 <? m) eqn:E2;
    Z.div_mod_to_equations; lia.
Qed.

(** The text of a number, padded to a width, holds no dash and reads back
    as the number. *)
Definition padReads (width : nat) (n : Z) : bool :=
  forallb (fun c => negb (isDash c)) (chars (addLeadingZeros n width))
  && match parseInt (addLeadingZeros n width) with
     | Some v => v =? n
     | None => false
     end.

Lemma pads_checked :
  allFrom (Z.to_nat 10000) 0 (padReads 4) = true
  /\ allFrom (Z.to_nat 100) 0 (padReads 2) = true.
Proof. split; vm_compute; reflexivity. Qed.

Lemma padReads_spec (width : nat) (n : Z) :
  padReads width n = true ->
  forallb (fun c => negb (isDash c)) (chars (addLeadingZeros n width)) = true
  /\ parseInt (addLeadingZeros n width) = Some n.
Proof.
  unfold padReads. intros [H1 H2]%andb_true_iff. split; [exact H1|].
  destruct (parseInt (addLeadingZeros n width)); [| discriminate].
  apply Z.eqb_eq in H2. now subst.
Qed.

Lemma chars_app (a b : string) : chars (a ++ b) = (chars a ++ chars b)%list.
Proof.
  unfold chars. induction a as [|c a IH]; simpl; [reflexivity|].
  now rewrite IH.
Qed.

Lemma splitGo_piece (isSepChar : ascii -> bool) (piece rest : list ascii) :
  forallb (fun c => negb (isSepChar c)) piece = true ->
  forall inRun cur,
    splitGo isSepChar false inRun cur (piece ++ rest)%list
    = splitGo isSepChar false
        (match piece with [] => inRun | _ => false end)
        (rev piece ++ cur)%list rest.
Proof.
  induction piece as [|c piece IH]; intros Hp inRun cur; [reflexivity|].
  cbn in Hp. apply andb_true_iff in Hp as [Hc Hp].
  apply negb_true_iff in Hc. cbn [app splitGo]. rewrite Hc.
  rewrite IH by exact Hp. cbn [rev]. rewrite <- app_assoc. cbn [app].
  destruct piece; reflexivity.
Qed.

Lemma split_three (a b c : string) :
  forallb (fun x => negb (isDash x)) (chars a) = true ->
  forallb (fun x => negb (isDash x)) (chars b) = true ->
  forallb (fun x => negb (isDash x)) (chars c) = true ->
  split isDash false (a ++ "-" ++ b ++ "-" ++ c) = [a; b; c].
Proof.
  intros Ha Hb Hc. unfold split.
  rewrite !chars_app. change (chars "-") with ["-"%char].
  rewrite (splitGo_piece isDash (chars a)) by exact Ha.
  cbn [app splitGo]. change (isDash "-"%char) with true. cbn [andb].
  rewrite (splitGo_piece isDash (chars b)) by exact Hb.
  cbn [app splitGo]. change (isDash "-"%char) with true. cbn [andb].
  rewrite <- (app_nil_r (chars c)).
  rewrite (splitGo_piece isDash (chars c)) by exact Hc.
  cbn [splitGo]. rewrite !app_nil_r, !rev_involutive, !text_chars.
  reflexivity.
Qed.

Lemma formatIsoDay_civil (d : Date) :
  formatIsoDay d
  = let '(y, m, dd) := civilFromDays (d / msPerDay) in
    addLeadingZeros (if 0 <? y then y else 1 - y) 4
    ++ "-" ++ addLeadingZeros m 2 ++ "-" ++ addLeadingZeros dd 2.
Proof.
  unfold formatIsoDay, getFullYear, getMonth, getDate.
  destruct (civilFromDays (d / msPerDay)) as [[y m] dd]. cbn [fst snd].
  now replace (m - 1 + 1) with m by lia.
Qed.

Lemma month_index (m : Z) :
  1 <= m <= 12 -> (m - 1) / 12 = 0 /\ (m - 1) mod 12 + 1 = m.
Proof. intros H. Z.div_mod_to_equations. lia. Qed.

Lemma logDateObj_civil (y m dd : Z) :
  100 <= y <= 9999 -> 1 <= m <= 12 -> 1 <= dd <= 31 ->
  logDateObj (addLeadingZeros y 4 ++ "-" ++ addLeadingZeros m 2
              ++ "-" ++ addLeadingZeros dd 2)
  = Some (daysFromCivil y m dd * msPerDay).
Proof.
  intros Hy Hm Hd. unfold logDateObj.
  destruct pads_checked as [H4 H2].
  destruct (padReads_spec 4 y (allFrom_spec _ _ 0 H4 y ltac:(lia)))
    as [Hya Hyb].
  destruct (padReads_spec 2 m (allFrom_spec _ _ 0 H2 m ltac:(lia)))
    as [Hma Hmb].
  destruct (padReads_spec 2 dd (allFrom_spec _ _ 0 H2 dd ltac:(lia)))
    as [Hda Hdb].
  rewrite split_three by assumption.
  cbn [lookup list_lookup mbind option_bind]. rewrite Hyb, Hmb, Hdb.
  cbn [pred newDateYMD].
  replace ((0 <=? y) && (y <=? 99)) with false
    by (symmetry; apply andb_false_iff; right; apply Z.leb_gt; lia).
  destruct (month_index m Hm) as [-> ->].
  rewrite Z.add_0_r.
  rewrite daysFromCivil_day.
  pose proof (daysFromCivil_bound y m dd Hy Hm Hd) as Hb.
  apply Z.leb_le in Hb. now rewrite Hb.
Qed.

Lemma startOfDay_days (d : Date) :
  d / msPerDay * msPerDay = startOfDayNative d
  /\ startOfDayNative d / msPerDay = d / msPerDay.
Proof.
  unfold startOfDayNative, msPerDay. Z.div_mod_to_equations. lia.
Qed.

(** The date text that the processor writes for a day reads back as that
    day: from the year 100 to the year 9999, the date that the results
    components build from [formatIsoDay d] is valid and is the local
    midnight of [d]. *)
Theorem iso_day_reads_back (d : Date) :
  100 <= getFullYear d <= 9999 ->
  logDateObj (formatIsoDay d) = Some (startOfDayNative d).
Proof.
  intros Hy. rewrite formatIsoDay_civil. unfold getFullYear in Hy.
  pose proof (civil_round_trip (d / msPerDay)) as Hc.
  destruct (civilFromDays (d / msPerDay)) as [[y m] dd]. cbn [fst snd] in Hy.
  destruct Hc as (Hz & Hm & Hd).
  replace (0 <? y) with true by (symmetry; apply Z.ltb_lt; lia).
  rewrite logDateObj_civil by assumption.
  rewrite Hz. f_equal. apply startOfDay_days.
Qed.

Lemma iso_day_reads_back_witness :
  logDateObj (formatIsoDay (19787 * msPerDay + 11 * msPerHour))
  = Some (startOfDayNative (19787 * msPerDay + 11 * msPerHour)).
Proof.
  apply iso_day_reads_back. vm_compute. split; discriminate.
Defined.

(** ** The filters of the results component

    The later results component ([src/unnamed/part_001]): the filter
    state and its handlers (lines 16 to 19 and 121 to 136), the rows that
    pass the filters (lines 23 to 41) and the totals over them (lines 43
    to 52). *)

Record Filters := mkFilters {
  selectedMonth : string;
  selectedEmployee : string;
  searchTerm : string;
  customRangeStart : string;
  customRangeEnd : string
}.

Definition initialFilters : Filters :=
  mkFilters "All Months" "All Employees" "" "" "".

Definition clearFilters (f : Filters) : Filters :=
  mkFilters "All Months" "All Employees" "" "" "".

Definition handleMonthChange (val : string) (f : Filters) : Filters :=
  if negb (String.eqb val "All Months")
  then mkFilters val (selectedEmployee f) (searchTerm f) "" ""
  else mkFilters val (selectedEmployee f) (searchTerm f)
         (customRangeStart f) (customRangeEnd f).

Inductive RangeKey := RangeStart | RangeEnd.

Definition handleRangeChange (key : RangeKey) (val : string) (f : Filters)
  : Filters :=
  let start := match key with RangeStart => val | RangeEnd => customRangeStart f end in
  let stop := match key with RangeStart => customRangeEnd f | RangeEnd => val end in
  mkFilters (if truthy val then "All Months" else selectedMonth f)
    (selectedEmployee f) (searchTerm f) start stop.

Definition setSelectedEmployee (val : string) (f : Filters) : Filters :=
  mkFilters (selectedMonth f) val (searchTerm f)
    (customRangeStart f) (customRangeEnd f).

(** What the controls of the filter panel can do to the state. *)
Inductive FilterEvent :=
| ClearFilters
| MonthChange (val : string)
| RangeChange (key : RangeKey) (val : string)
| EmployeeChange (val : string).

Definition handle (f : Filters) (e : FilterEvent) : Filters :=
  match e with
  | ClearFilters => clearFilters f
  | MonthChange val => handleMonthChange val f
  | RangeChange key val => handleRangeChange key val f
  | EmployeeChange val => setSelectedEmployee val f
  end.

(** [s.includes(t)] *)
Fixpoint includesFrom (t l : list ascii) : bool :=
  startsWith t l
  || match l with
     | _ :: l' => includesFrom t l'
     | [] => false
     end.

Definition includes (s t : string) : bool := includesFrom (chars t) (chars s).

Definition monthNames : list string :=
  ["January"; "February"; "March"; "April"; "May"; "June"; "July"; "August";
   "September"; "October"; "November"; "December"].

(** date-fns [format(date, 'MMMM yyyy')] *)
Definition formatMonthYear (d : Date) : string :=
  let signedYear := getFullYear d in
  let year := if 0 <? signedYear then signedYear else 1 - signedYear in
  nth (Z.to_nat (getMonth d)) monthNames "" ++ " " ++ addLeadingZeros year 4.

Definition matchesEmployee (f : Filters) (log : DayShift.t) : bool :=
  String.eqb (selectedEmployee f) "All Employees"
  || String.eqb (DayShift.name log) (selectedEmployee f).

Definition matchesSearch (f : Filters) (log : DayShift.t) : bool :=
  includes (toLowerCase (DayShift.name log)) (toLowerCase (searchTerm f))
  || includes (DayShift.date log) (searchTerm f).

Definition monthMatches (f : Filters) (log : DayShift.t) : bool :=
  if negb (String.eqb (selectedMonth f) "All Months") then
    let logMonthStr :=
      match logDateObj (DayShift.date log) with
      | Some logDate => formatMonthYear logDate
      | None => ""
      end in
    String.eqb logMonthStr (selectedMonth f)
  else true.

Definition matchesCustomStart (f : Filters) (log : DayShift.t) : bool :=
  negb (truthy (customRangeStart f))
  || String.leb (customRangeStart f) (DayShift.date log).

Definition matchesCustomEnd (f : Filters) (log : DayShift.t) : bool :=
  negb (truthy (customRangeEnd f))
  || String.leb (DayShift.date log) (customRangeEnd f).

Definition filteredLogs (f : Filters) (localLogs : list DayShift.t)
  : list DayShift.t :=
  List.filter
    (fun log =>
       monthMatches f log && matchesEmployee f log && matchesSearch f log
       && matchesCustomStart f log && matchesCustomEnd f log)
    localLogs.

Record Financials := mkFinancials {
  totalNetOwed : Qc;
  totalPaid : Qc;
  totalOT : Qc;
  totalLatePenalties : Qc;
  totalDays : nat;
  remaining : Qc
}.

(** [logs.reduce((a, b) => a + f(b), 0)] *)
Definition sumLogs (f : DayShift.t -> Qc) (logs : list DayShift.t) : Qc :=
  fold_left (fun a b => (a + f b)%Qc) logs 0%Qc.

Definition financials (filtered : list DayShift.t) : Financials :=
  let totalNetOwed := sumLogs DayShift.netPay filtered in
  let totalPaid := sumLogs DayShift.amountPaid filtered in
  let totalOT := sumLogs DayShift.otPay filtered in
  let totalLatePenalties :=
    sumLogs (fun b => (DayShift.attendancePenalty b - DayShift.penaltyWaiver b)%Qc)
            filtered in
  mkFinancials totalNetOwed totalPaid totalOT totalLatePenalties
    (length filtered) (totalNetOwed - totalPaid)%Qc.

Example formatMonthYear_examples :
  formatMonthYear (19787 * msPerDay) = "March 2024"
  /\ formatMonthYear 0 = "January 1970"
  /\ includes "2024-03-05" "-03-" = true
  /\ includes "2024-03-05" "" = true
  /\ includes "ali" "alia" = false.
Proof. repeat split; vm_compute; reflexivity. Qed.

(** What every state of the filters satisfies. *)
Definition exclusive (f : Filters) : Prop :=
  (selectedMonth f = "All Months"
   \/ (customRangeStart f = "" /\ customRangeEnd f = ""))
  /\ searchTerm f = "".

Lemma handle_exclusive (f : Filters) (e : FilterEvent) :
  exclusive f -> exclusive (handle f e).
Proof.
  intros [Hex Hs]. destruct e as [|val|key val|val]; cbn [handle].
  - split; [now left | reflexivity].
  - unfold handleMonthChange.
    destruct (String.eqb_spec val "All Months") as [-> | Hne]; cbn [negb].
    + split; [now left | exact Hs].
    + split; [right; now split | exact Hs].
  - unfold handleRangeChange. split; [| exact Hs].
    cbn [selectedMonth customRangeStart customRangeEnd].
    destruct val as [|c val]; cbn [truthy]; [| now left].
    destruct Hex as [Hm | [H1 H2]]; [now left | right].
    destruct key; now split.
  - split; [exact Hex | exact Hs].
Qed.

(** A month and a range of dates are never both in force: after any
    sequence of uses of the filter controls, the selected month is All
    Months or both ends of the custom range are empty.  The search term
    is empty throughout, no control sets it to anything else. *)
Theorem month_and_range_exclude_each_other (events : list FilterEvent) :
  let f := fold_left handle events initialFilters in
  (selectedMonth f = "All Months"
   \/ (customRangeStart f = "" /\ customRangeEnd f = ""))
  /\ searchTerm f = "".
Proof.
  cbv zeta. change (exclusive (fold_left handle events initialFilters)).
  assert (H0 : exclusive initialFilters).
  { split; [now left | reflexivity]. }
  revert H0. generalize initialFilters.
  induction events as [|e events IH]; intros f Hf; cbn [fold_left];
    [exact Hf|].
  apply IH, handle_exclusive, Hf.
Qed.

Lemma includes_empty (s : string) : includes s "" = true.
Proof. unfold includes. destruct (chars s); reflexivity. Qed.

Lemma filter_all {A : Type} (p : A -> bool) (l : list A) :
  (forall x, p x = true) -> List.filter p l = l.
Proof.
  intros H. induction l as [|x l IH]; cbn; [reflexivity|].
  now rewrite H, IH.
Qed.

(** The reset of the filters shows the whole ledger again, whatever the
    filters were. *)
Theorem reset_shows_every_row (f : Filters) (localLogs : list DayShift.t) :
  filteredLogs (handle f ClearFilters) localLogs = localLogs.
Proof.
  unfold filteredLogs. apply filter_all. intros log.
  unfold monthMatches, matchesEmployee, matchesSearch, matchesCustomStart,
    matchesCustomEnd. cbn.
  change (toLowerCase "") with "". now rewrite includes_empty.
Qed.






Lemma shiftOfGroup_date (mapping : ColumnMapping.t) (newId : string)
    (g : Group) :
  DayShift.date (shiftOfGroup mapping newId g) = formatIsoDay (parsedDate g).
Proof.
  unfold shiftOfGroup. cbv zeta.
  destruct (map (onDate (parsedDate g))
              (timesOf (ColumnMapping.checkIn mapping) (records g)));
    [reflexivity|].
  destruct (classifyShift _). reflexivity.
Qed.

Lemma formatMonthYear_startOfDay (d : Date) :
  formatMonthYear (startOfDayNative d) = formatMonthYear d.
Proof.
  unfold formatMonthYear, getFullYear, getMonth.
  now rewrite (proj2 (startOfDay_days d)).
Qed.

(** The month filter is exact on the rows of the processor: for a group
    whose day lies between the years 100 and 9999, and a selected month
    other than All Months, the shift of the group passes the month test
    exactly when the month and year of the group's day, written out, are
    the selected text. *)
Theorem month_filter_is_exact (f : Filters) (mapping : ColumnMapping.t)
    (newId : string) (g : Group) :
  100 <= getFullYear (parsedDate g) <= 9999 ->
  selectedMonth f <> "All Months" ->
  monthMatches f (shiftOfGroup mapping newId g) = true
  <-> formatMonthYear (parsedDate g) = selectedMonth f.
Proof.
  intros Hy Hsel. unfold monthMatches.
  destruct (String.eqb_spec (selectedMonth f) "All Months") as [E | _];
    [congruence|]. cbn [negb].
  rewrite shiftOfGroup_date, formatIsoDay_civil.
  unfold getFullYear in Hy.
  pose proof (civil_round_trip (parsedDate g / msPerDay)) as Hc.
  destruct (civilFromDays (parsedDate g / msPerDay)) as [[y m] dd] eqn:Ec.
  cbn [fst snd] in Hy. destruct Hc as (Hz & Hm & Hd).
  replace (0 <? y) with true by (symmetry; apply Z.ltb_lt; lia).
  rewrite logDateObj_civil by assumption.
  rewrite Hz, (proj1 (startOfDay_days (parsedDate g))).
  rewrite formatMonthYear_startOfDay. apply String.eqb_eq.
Qed.

Lemma month_filter_is_exact_witness :
  monthMatches (handle initialFilters (MonthChange "March 2024"))
    (shiftOfGroup Sample.FORCE_MAPPING "k0"
       (mkGroup "Ali" (19787 * msPerDay + 3 * msPerHour) []))
  = true.
Proof.
  apply (month_filter_is_exact _ _ _ _).
  - vm_compute. split; discriminate.
  - vm_compute. discriminate.
  - vm_compute. reflexivity.
Defined.

(** ** The staff summaries of the results component

    [summaries] of the later results component ([src/unnamed/part_001],
    lines 54 to 80): one summary for each employee of the rows shown,
    collected in an object under the employee's name, then sorted by net
    salary and ranked.

    The object [empMap] starts empty, so reading it at a name finds the
    summary stored there, or else what every object inherits under that
    name, when there is such a property: a function or an object, never
    a summary.  The summaries come out of [Object.values] with the names
    that are array indices first, in ascending order, and the other names
    after them in the order in which they were first stored. *)

Record ShiftCounts := mkCounts { ofA : Z; ofB : Z; ofC : Z }.

Module EmployeeSummary.
Record t := mk {
  name : string;
  workDays : Z;
  totalStandardPay : Qc;
  totalOTPay : Qc;
  totalAttendancePenalties : Qc;
  totalManualPenalties : Qc;
  totalManualAdjustments : Qc;
  totalPenaltyWaivers : Qc;
  netSalary : Qc;
  amountPaid : Qc;
  netRemaining : Qc;
  shiftCounts : ShiftCounts;
  penaltyFreeDays : Z;
  rank : option Z
}.

(** [{ ...s, rank: r }] *)
Definition withRank (r : Z) (s : t) : t :=
  mk (name s) (workDays s) (totalStandardPay s) (totalOTPay s)
     (totalAttendancePenalties s) (totalManualPenalties s)
     (totalManualAdjustments s) (totalPenaltyWaivers s) (netSalary s)
     (amountPaid s) (netRemaining s) (shiftCounts s) (penaltyFreeDays s)
     (Some r).
End EmployeeSummary.

(** The summary stored at the first row of an employee. *)
Definition newSummary (name : string) : EmployeeSummary.t :=
  EmployeeSummary.mk name 0 0%Qc 0%Qc 0%Qc 0%Qc 0%Qc 0%Qc 0%Qc 0%Qc 0%Qc
    (mkCounts 0 0 0) 0 None.

(** [s.shiftCounts[log.shiftType]++] *)
Definition countShift (shiftType : ShiftType) (c : ShiftCounts) : ShiftCounts :=
  match shiftType with
  | A => mkCounts (ofA c + 1) (ofB c) (ofC c)
  | B => mkCounts (ofA c) (ofB c + 1) (ofC c)
  | C => mkCounts (ofA c) (ofB c) (ofC c + 1)
  end.

(** What one row adds to the summary of its employee. *)
Definition tally (log : DayShift.t) (s : EmployeeSummary.t)
  : EmployeeSummary.t :=
  EmployeeSummary.mk (EmployeeSummary.name s)
    (EmployeeSummary.workDays s + 1)
    (EmployeeSummary.totalStandardPay s + DayShift.standardPay log)%Qc
    (EmployeeSummary.totalOTPay s + DayShift.otPay log)%Qc
    (EmployeeSummary.totalAttendancePenalties s
     + (DayShift.attendancePenalty log - DayShift.penaltyWaiver log))%Qc
    (EmployeeSummary.totalManualPenalties s + DayShift.manualPenalty log)%Qc
    (EmployeeSummary.totalManualAdjustments s)
    (EmployeeSummary.totalPenaltyWaivers s)
    (EmployeeSummary.netSalary s + DayShift.netPay log)%Qc
    (EmployeeSummary.amountPaid s + DayShift.amountPaid log)%Qc
    (EmployeeSummary.netRemaining s
     + (DayShift.netPay log - DayShift.amountPaid log))%Qc
    (countShift (DayShift.shiftType log) (EmployeeSummary.shiftCounts s))
    (if Qc_eq_dec (DayShift.attendancePenalty log) 0%Qc
     then EmployeeSummary.penaltyFreeDays s + 1
     else EmployeeSummary.penaltyFreeDays s)
    (EmployeeSummary.rank s).

(** The array index that a property name stands for: the decimal text,
    with no sign and no leading zero, of a whole number below
    4294967295. *)
Definition arrayIndex (key : string) : option Z :=
  match chars key with
  | c :: r =>
      if forallb isDigit (c :: r)
         && (negb (code c =? 48)%nat || match r with [] => true | _ => false end)
      then
        if digitsVal (c :: r) <? 4294967295 then Some (digitsVal (c :: r))
        else None
      else None
  | [] => None
  end.

Fixpoint insertIndex {V : Type} (i : Z) (v : V) (l : list (Z * V))
  : list (Z * V) :=
  match l with
  | (j, w) :: rest =>
      if i <? j then (i, v) :: (j, w) :: rest
      else (j, w) :: insertIndex i v rest
  | [] => [(i, v)]
  end.

(** The values under the names that are array indices, in ascending
    order of the index. *)
Fixpoint indexed {V : Type} (o : list (string * V)) : list (Z * V) :=
  match o with
  | (k, v) :: rest =>
      match arrayIndex k with
      | Some i => insertIndex i v (indexed rest)
      | None => indexed rest
      end
  | [] => []
  end.

(** The values under the other names, in the order of their creation. *)
Fixpoint named {V : Type} (o : list (string * V)) : list V :=
  match o with
  | (k, v) :: rest =>
      match arrayIndex k with
      | Some _ => named rest
      | None => v :: named rest
      end
  | [] => []
  end.

(** [Object.values(o)] *)
Definition objectValues {V : Type} (o : list (string * V)) : list V :=
  (map snd (indexed o) ++ named o)%list.

(** The sort by [b.netSalary - a.netSalary]: a summary goes in front of
    the first one with a smaller net salary; equal ones keep their
    order. *)
Fixpoint insertSummary (x : EmployeeSummary.t) (sorted : list EmployeeSummary.t)
  : list EmployeeSummary.t :=
  match sorted with
  | y :: rest =>
      if Qclt_le_dec (EmployeeSummary.netSalary y) (EmployeeSummary.netSalary x)
      then x :: sorted
      else y :: insertSummary x rest
  | [] => [x]
  end.

Definition sortByNet (l : list EmployeeSummary.t) : list EmployeeSummary.t :=
  fold_left (fun sorted x => insertSummary x sorted) l [].

(** [.map((s, i) => ({ ...s, rank: i + 1 }))], from the index [i] on. *)
Fixpoint rankFrom (i : Z) (l : list EmployeeSummary.t) : list EmployeeSummary.t :=
  match l with
  | s :: rest => EmployeeSummary.withRank (i + 1) s :: rankFrom (i + 1) rest
  | [] => []
  end.

Section Summaries.

(** The names of the properties that an empty object inherits. *)
Variable inherited : string -> bool.

(** The body of the [forEach]: [None] is the [TypeError] of reading
    [shiftCounts[...]] on an inherited function or object, which has no
    [shiftCounts]. *)
Definition summarize (empMap : list (string * EmployeeSummary.t))
    (log : DayShift.t) : option (list (string * EmployeeSummary.t)) :=
  let name := DayShift.name log in
  match mapGet name empMap with
  | Some s => Some (mapSet name (tally log s) empMap)
  | None =>
      if inherited name then None
      else Some (mapSet name (tally log (newSummary name)) empMap)
  end.

Fixpoint summarizeAll (filtered : list DayShift.t)
    (empMap : list (string * EmployeeSummary.t))
  : option (list (string * EmployeeSummary.t)) :=
  match filtered with
  | log :: rest =>
      match summarize empMap log with
      | Some empMap' => summarizeAll rest empMap'
      | None => None
      end
  | [] => Some empMap
  end.

Definition summaries (filtered : list DayShift.t)
  : option (list EmployeeSummary.t) :=
  match summarizeAll filtered [] with
  | Some empMap => Some (rankFrom 0 (sortByNet (objectValues empMap)))
  | None => None
  end.

End Summaries.


Module SummarySample.

Definition inherited (name : string) : bool :=
  String.eqb name "constructor" || String.eqb name "toString".

Definition shift (name : string) (netPay amountPaid : Z) : DayShift.t :=
  DayShift.mk "id" "2024-03-05" name 0 0 A 0 0 0%Qc 0%Qc 0%Qc 0%Qc 0%Qc
    (num 10) 0%Qc 0%Qc 0%Qc 0%Qc None (num netPay) (num amountPaid)
    (num (netPay - amountPaid)).

Definition logs : list DayShift.t :=
  [shift "Ali" 10 4; shift "7" 12 0; shift "Mona" 10 10; shift "Ali" 5 0].

End SummarySample.

Example objectValues_examples :
  objectValues [("b", 1); ("10", 2); ("a", 3); ("9", 4); ("07", 5)]
  = [4; 2; 1; 3; 5]
  /\ arrayIndex "4294967294" = Some 4294967294
  /\ arrayIndex "4294967295" = None
  /\ arrayIndex "0" = Some 0
  /\ arrayIndex "" = None.
Proof. repeat split; vm_compute; reflexivity. Qed.

Example summaries_examples :
  (map (fun s => (EmployeeSummary.name s, EmployeeSummary.workDays s,
                  EmployeeSummary.rank s))
     <$> summaries SummarySample.inherited SummarySample.logs)
  = Some [("Ali", 2, Some 1); ("7", 1, Some 2); ("Mona", 1, Some 3)]
  /\ summaries SummarySample.inherited
       [SummarySample.shift "Ali" 10 4; SummarySample.shift "constructor" 1 1]
     = None.
Proof. split; vm_compute; reflexivity. Qed.

(** Sums over a list, in a commutative monoid: what [reduce] computes
    from its start value, and how the sum fares under the steps of
    [summaries]. *)
Section Totals.

Context {M : Type} (zero : M) (add : M -> M -> M).
Hypothesis add_assoc : forall a b c, add a (add b c) = add (add a b) c.
Hypothesis add_comm : forall a b, add a b = add b a.
Hypothesis add_zero : forall a, add zero a = a.

Definition total {X : Type} (f : X -> M) (l : list X) : M :=
  fold_right (fun x a => add (f x) a) zero l.

Lemma total_app {X : Type} (f : X -> M) (l1 l2 : list X) :
  total f (l1 ++ l2)%list = add (total f l1) (total f l2).
Proof.
  unfold total. induction l1 as [|x l1 IH]; cbn; [now rewrite add_zero|].
  now rewrite IH, add_assoc.
Qed.





Lemma total_ext {X : Type} (f g : X -> M) (l : list X) :
  (forall x, f x = g x) -> total f l = total g l.
Proof.
  intros H. unfold total. induction l as [|x l IH]; cbn; [reflexivity|].
  now rewrite H, IH.
Qed.



Variable inherited : string -> bool.




End Totals.

Lemma insertIndex_perm {V : Type} (i : Z) (v : V) (l : list (Z * V)) :
  Permutation (insertIndex i v l) ((i, v) :: l).
Proof.
  induction l as [|[j w] rest IH]; cbn; [reflexivity|].
  destruct (i <? j); [reflexivity|].
  rewrite IH. apply perm_swap.
Qed.

Lemma objectValues_perm {V : Type} (o : list (string * V)) :
  Permutation (objectValues o) (map snd o).
Proof.
  unfold objectValues. induction o as [|[k v] rest IH]; cbn; [reflexivity|].
  destruct (arrayIndex k) as [i|].
  - rewrite (Permutation_map snd (insertIndex_perm i v (indexed rest))).
    cbn. now rewrite IH.
  - rewrite <- Permutation_middle. now rewrite IH.
Qed.

Lemma insertSummary_perm (x : EmployeeSummary.t) (l : list EmployeeSummary.t) :
  Permutation (insertSummary x l) (x :: l).
Proof.
  induction l as [|y rest IH]; cbn; [reflexivity|].
  destruct (Qclt_le_dec _ _); [reflexivity|].
  rewrite IH. apply perm_swap.
Qed.

Lemma sortByNet_perm (l : list EmployeeSummary.t) :
  Permutation (sortByNet l) l.
Proof.
  unfold sortByNet.
  assert (H : forall acc,
            Permutation (fold_left (fun sorted x => insertSummary x sorted) l acc)
                        (acc ++ l)%list).
  { induction l as [|x l IH]; intros acc; cbn [fold_left].
    - now rewrite app_nil_r.
    - rewrite IH, insertSummary_perm. apply Permutation_middle. }
  apply (H []).
Qed.






Lemma keys_mapSet {V : Type} (key key' : string) (v : V)
    (m : list (string * V)) :
  In key' (map fst (mapSet key v m)) <-> key' = key \/ In key' (map fst m).
Proof.
  destruct (List.in_dec String.string_dec key (map fst m)) as [Hin | Hout].
  - rewrite keys_mapSet_known by exact Hin. split; [now right|].
    intros [-> | H]; assumption.
  - rewrite keys_mapSet_new by exact Hout. rewrite in_app_iff. cbn.
    split; [intros [H | [-> | []]]; auto | intros [-> | H]; auto].
Qed.

Lemma mapSet_NoDup {V : Type} (key : string) (v : V) (m : list (string * V)) :
  List.NoDup (map fst m) -> List.NoDup (map fst (mapSet key v m)).
Proof.
  intros Hnd.
  destruct (List.in_dec String.string_dec key (map fst m)) as [Hin | Hout].
  - now rewrite keys_mapSet_known.
  - rewrite keys_mapSet_new by exact Hout.
    apply NoDup_ListNoDup, NoDup_app. repeat split.
    + now apply NoDup_ListNoDup.
    + intros x Hx [-> | []]%list_elem_of_In.
      now apply list_elem_of_In in Hx.
    + apply NoDup_singleton.
Qed.

Lemma mapSet_Forall {V : Type} (P : string * V -> Prop) (key : string) (v : V)
    (m : list (string * V)) :
  P (key, v) -> List.Forall P m -> List.Forall P (mapSet key v m).
Proof.
  intros Hv. induction 1 as [|[k w] rest Hkw Hrest IH]; cbn.
  - constructor; [exact Hv | constructor].
  - destruct (String.eqb_spec k key) as [-> | Hne]; constructor; auto.
Qed.

Lemma mapGet_key {V : Type} (key : string) (m : list (string * V)) (v : V) :
  mapGet key m = Some v -> In key (map fst m).
Proof.
  intros H. apply mapGet_Some in H. now apply (in_map fst) in H.
Qed.

(** The summaries are descending when none has a larger net salary than
    one before it. *)
Fixpoint descending (l : list EmployeeSummary.t) : Prop :=
  match l with
  | x :: rest =>
      List.Forall (fun y => (EmployeeSummary.netSalary y
                             <= EmployeeSummary.netSalary x)%Qc) rest
      /\ descending rest
  | [] => True
  end.

Lemma insertSummary_Forall (P : EmployeeSummary.t -> Prop)
    (x : EmployeeSummary.t) (l : list EmployeeSummary.t) :
  P x -> List.Forall P l -> List.Forall P (insertSummary x l).
Proof.
  intros Hx. induction 1 as [|y rest Hy Hrest IH]; cbn.
  - constructor; [exact Hx | constructor].
  - destruct (Qclt_le_dec _ _); constructor; auto.
Qed.

Lemma insertSummary_descending (x : EmployeeSummary.t)
    (l : list EmployeeSummary.t) :
  descending l -> descending (insertSummary x l).
Proof.
  induction l as [|y rest IH]; cbn [insertSummary descending].
  - intros _. split; [constructor | exact I].
  - intros [Hy Hrest].
    destruct (Qclt_le_dec (EmployeeSummary.netSalary y)
                          (EmployeeSummary.netSalary x)) as [Hlt | Hle].
    + cbn [descending]. split; [| split; assumption].
      constructor; [now apply Qclt_le_weak|].
      eapply List.Forall_impl; [| exact Hy].
      intros z Hz. cbn in Hz. apply Qclt_le_weak in Hlt.
      now apply (Qcle_trans _ _ _ Hz).
    + cbn [descending]. split; [| now apply IH].
      now apply insertSummary_Forall.
Qed.

Lemma sortByNet_descending (l : list EmployeeSummary.t) :
  descending (sortByNet l).
Proof.
  unfold sortByNet.
  assert (H : forall acc, descending acc ->
            descending (fold_left (fun sorted x => insertSummary x sorted) l acc)).
  { induction l as [|x l IH]; intros acc Hacc; cbn [fold_left]; [exact Hacc|].
    apply IH, insertSummary_descending, Hacc. }
  apply H. exact I.
Qed.

Lemma rankFrom_map {Y : Type} (h : EmployeeSummary.t -> Y)
    (l : list EmployeeSummary.t) :
  (forall r s, h (EmployeeSummary.withRank r s) = h s) ->
  forall i, map h (rankFrom i l) = map h l.
Proof.
  intros H. induction l as [|s l IH]; intros i; cbn; [reflexivity|].
  now rewrite H, IH.
Qed.

Lemma descending_map (l1 l2 : list EmployeeSummary.t) :
  map EmployeeSummary.netSalary l1 = map EmployeeSummary.netSalary l2 ->
  descending l2 -> descending l1.
Proof.
  revert l2. induction l1 as [|x l1 IH]; intros [|y l2]; cbn;
    try discriminate; [tauto|].
  intros [= Hxy Hrest] [Hy Hl2]. split; [| now apply (IH l2)].
  rewrite Hxy. clear IH Hl2.
  revert l2 Hrest Hy. induction l1 as [|a l1 IH]; intros [|b l2]; cbn;
    try discriminate; [constructor|].
  intros [= Hab Hrest] Hy. inversion Hy as [|? ? Hb Hl2]; subst.
  constructor; [now rewrite Hab | now apply (IH l2)].
Qed.

Lemma rankFrom_lookup (l : list EmployeeSummary.t) :
  forall (k : Z) (i : nat) (s : EmployeeSummary.t),
    rankFrom k l !! i = Some s ->
    EmployeeSummary.rank s = Some (k + Z.of_nat i + 1).
Proof.
  induction l as [|x l IH]; intros k i s; cbn; [discriminate|].
  destruct i as [|i]; cbn.
  - intros [= <-]. cbn. f_equal. lia.
  - intros H. rewrite (IH _ _ _ H). f_equal. lia.
Qed.

Section SummaryNames.

Variable inherited : string -> bool.

(** What the object of the summaries satisfies all along: no name twice,
    each summary under its own name, and no name that is inherited. *)
Definition wellNamed (m : list (string * EmployeeSummary.t)) : Prop :=
  List.NoDup (map fst m)
  /\ List.Forall (fun kv => EmployeeSummary.name (snd kv) = fst kv
                            /\ inherited (fst kv) = false) m.

Lemma wellNamed_get (m : list (string * EmployeeSummary.t)) (key : string)
    (s : EmployeeSummary.t) :
  wellNamed m -> mapGet key m = Some s ->
  EmployeeSummary.name s = key /\ inherited key = false.
Proof.
  intros [_ Hall] Hget. apply mapGet_Some in Hget.
  rewrite List.Forall_forall in Hall. exact (Hall _ Hget).
Qed.

Lemma summarize_None (m : list (string * EmployeeSummary.t))
    (log : DayShift.t) :
  wellNamed m ->
  summarize inherited m log = None <-> inherited (DayShift.name log) = true.
Proof.
  intros Hm. unfold summarize.
  destruct (mapGet (DayShift.name log) m) as [s|] eqn:Hget.
  - destruct (wellNamed_get m _ s Hm Hget) as [_ Hinh]. rewrite Hinh.
    split; discriminate.
  - destruct (inherited (DayShift.name log)); split;
      first [reflexivity | discriminate].
Qed.

Lemma summarize_Some (m m' : list (string * EmployeeSummary.t))
    (log : DayShift.t) :
  wellNamed m ->
  summarize inherited m log = Some m' ->
  wellNamed m'
  /\ forall key, In key (map fst m')
                 <-> key = DayShift.name log \/ In key (map fst m).
Proof.
  intros Hm. unfold summarize.
  destruct (mapGet (DayShift.name log) m) as [s|] eqn:Hget.
  - intros [= <-]. destruct (wellNamed_get m _ s Hm Hget) as [Hname Hinh].
    destruct Hm as [Hnd Hall]. split; [split|].
    + now apply mapSet_NoDup.
    + apply mapSet_Forall; [| exact Hall]. cbn. now split.
    + intros key. apply keys_mapSet.
  - destruct (inherited (DayShift.name log)) eqn:Hinh; [discriminate|].
    intros [= <-]. destruct Hm as [Hnd Hall]. split; [split|].
    + now apply mapSet_NoDup.
    + apply mapSet_Forall; [| exact Hall]. cbn. now split.
    + intros key. apply keys_mapSet.
Qed.

Lemma summarizeAll_None (filtered : list DayShift.t) :
  forall m,
    wellNamed m ->
    summarizeAll inherited filtered m = None
    <-> List.Exists (fun log => inherited (DayShift.name log) = true) filtered.
Proof.
  induction filtered as [|log rest IH]; intros m Hm; cbn [summarizeAll].
  - split; [discriminate | intros H; inversion H].
  - destruct (summarize inherited m log) as [m'|] eqn:Hstep.
    + destruct (summarize_Some m m' log Hm Hstep) as [Hm' _].
      rewrite (IH m' Hm'). split; [now right|].
      intros H. inversion H as [? ? Hhd | ? ? Htl]; subst; [| exact Htl].
      apply (summarize_None m log Hm) in Hhd. congruence.
    + split; [| reflexivity]. intros _. left.
      now apply (summarize_None m log Hm).
Qed.

Lemma summarizeAll_Some (filtered : list DayShift.t) :
  forall m m',
    wellNamed m ->
    summarizeAll inherited filtered m = Some m' ->
    wellNamed m'
    /\ forall key, In key (map fst m')
                   <-> In key (map DayShift.name filtered)
                       \/ In key (map fst m).
Proof.
  induction filtered as [|log rest IH]; intros m m' Hm; cbn [summarizeAll].
  - intros [= <-]. split; [exact Hm|]. intros key. cbn. tauto.
  - destruct (summarize inherited m log) as [m1|] eqn:Hstep; [| discriminate].
    intros Hall. destruct (summarize_Some m m1 log Hm Hstep) as [Hm1 Hk1].
    destruct (IH m1 m' Hm1 Hall) as [Hm' Hk']. split; [exact Hm'|].
    intros key. rewrite Hk', Hk1. cbn. intuition congruence.
Qed.

Lemma wellNamed_nil : wellNamed [].
Proof. split; constructor. Qed.

Lemma names_of_values (m : list (string * EmployeeSummary.t)) :
  wellNamed m -> map EmployeeSummary.name (map snd m) = map fst m.
Proof.
  intros [_ Hall]. induction Hall as [|[k s] rest [Hk _] _ IH]; cbn;
    [reflexivity|]. cbn in Hk. now rewrite Hk, IH.
Qed.

End SummaryNames.

Lemma summaries_None_inherited (inherited : string -> bool)
    (filtered : list DayShift.t) :
  summaries inherited filtered = None ->
  List.Exists (fun log => inherited (DayShift.name log) = true) filtered.
Proof.
  unfold summaries. intros H.
  apply (summarizeAll_None inherited filtered [] (wellNamed_nil inherited)).
  now destruct (summarizeAll inherited filtered []).
Qed.

(** [summaries] throws exactly when one of the rows shown carries a name
    that every object inherits, such as constructor or toString: the
    summary of that name is never created, and the count of the shift
    type fails on what is found in its place. *)
Theorem summaries_throw_on_inherited_names (inherited : string -> bool)
    (filtered : list DayShift.t) :
  summaries inherited filtered = None
  <-> List.Exists (fun log => inherited (DayShift.name log) = true) filtered.
Proof.
  split; [apply summaries_None_inherited|].
  intros H. unfold summaries.
  apply (summarizeAll_None inherited filtered [] (wellNamed_nil inherited)) in H.
  now rewrite H.
Qed.

(** When [summaries] returns, there is one summary for each name among
    the rows shown and none for any other name, no summary has a larger
    net salary than one before it, and the ranks count up from 1 along
    the list. *)
Theorem summaries_are_ranked (inherited : string -> bool)
    (filtered : list DayShift.t) (ss : list EmployeeSummary.t) :
  summaries inherited filtered = Some ss ->
  List.NoDup (map EmployeeSummary.name ss)
  /\ (forall name, In name (map EmployeeSummary.name ss)
                   <-> In name (map DayShift.name filtered))
  /\ descending ss
  /\ (forall (i : nat) (s : EmployeeSummary.t),
        ss !! i = Some s -> EmployeeSummary.rank s = Some (Z.of_nat i + 1)).
Proof.
  unfold summaries.
  destruct (summarizeAll inherited filtered []) as [m|] eqn:Hall;
    [| discriminate].
  intros [= <-].
  destruct (summarizeAll_Some inherited filtered [] m
              (wellNamed_nil inherited) Hall) as [Hm Hkeys].
  assert (Hnames : Permutation
            (map EmployeeSummary.name
               (rankFrom 0 (sortByNet (objectValues m))))
            (map fst m)).
  { rewrite rankFrom_map by reflexivity.
    rewrite (Permutation_map _ (sortByNet_perm (objectValues m))).
    rewrite (Permutation_map _ (objectValues_perm m)).
    now rewrite (names_of_values inherited m Hm). }
  split; [| split; [| split]].
  - apply (Permutation_NoDup (Permutation_sym Hnames)), Hm.
  - intros name. split; intros H.
    + apply (Permutation_in _ Hnames) in H.
      apply Hkeys in H as [H | []]. exact H.
    + apply (Permutation_in _ (Permutation_sym Hnames)).
      apply Hkeys. now left.
  - apply (descending_map _ (sortByNet (objectValues m)));
      [now apply rankFrom_map | apply sortByNet_descending].
  - intros i s H. now rewrite (rankFrom_lookup _ _ _ _ H).
Qed.

Lemma sample_summaries_return :
  summaries SummarySample.inherited SummarySample.logs <> None.
Proof.
  intros H. apply summaries_None_inherited in H.
  repeat (inversion H as [? ? Hhd | ? ? Htl]; subst;
          [vm_compute in Hhd; discriminate | clear H; rename Htl into H]).
  inversion H.
Qed.


Lemma summaries_are_ranked_witness :
  exists ss,
    summaries SummarySample.inherited SummarySample.logs = Some ss
    /\ descending ss.
Proof.
  destruct (summaries SummarySample.inherited SummarySample.logs)
    as [ss|] eqn:Hss.
  - exists ss. split; [reflexivity|].
    exact (proj1 (proj2 (proj2 (summaries_are_ranked _ _ _ Hss)))).
  - exfalso. now apply sample_summaries_return.
Defined.

(** ** The options of the two selects

    [availableMonths] and [availableEmployees] of the later results
    component ([src/unnamed/part_001], lines 101 to 119): the month
    texts and the names of the ledger, each collected in a [Set] and
    sorted. *)

(** [set.add(x)]: a [Set] keeps its values in the order of their first
    insertion. *)
Definition setAdd (x : string) (values : list string) : list string :=
  if existsb (String.eqb x) values then values else (values ++ [x])%list.

(** [Array.prototype.sort]: a value goes in front of the first one that
    the comparator puts after it. *)
Fixpoint insertBy {X : Type} (before : X -> X -> bool) (x : X)
    (sorted : list X) : list X :=
  match sorted with
  | y :: rest =>
      if before x y then x :: sorted else y :: insertBy before x rest
  | [] => [x]
  end.

Definition sortBy {X : Type} (before : X -> X -> bool) (l : list X) : list X :=
  fold_left (fun sorted x => insertBy before x sorted) l [].

(** The sort with no comparator orders strings by their code units. *)
Definition availableEmployees (localLogs : list DayShift.t) : list string :=
  sortBy String.ltb
    (fold_left (fun names log => setAdd (DayShift.name log) names)
               localLogs []).

(** The month text of a row, when its date is valid. *)
Definition monthOf (log : DayShift.t) : option string :=
  formatMonthYear <$> logDateObj (DayShift.date log).

Section Months.

Variable fnsParse : string -> string -> option Date.

(** [dA.getTime() - dB.getTime()] on the two parsed texts; the sort
    takes a comparison that is [NaN] for 0. *)
Definition monthOrder (a b : string) : Z :=
  match fnsParse a "MMMM yyyy", fnsParse b "MMMM yyyy" with
  | Some dA, Some dB => dA - dB
  | _, _ => 0
  end.

Definition availableMonths (localLogs : list DayShift.t) : list string :=
  sortBy (fun a b => monthOrder a b <? 0)
    (fold_left (fun months log =>
                  match monthOf log with
                  | Some m => setAdd m months
                  | None => months
                  end)
               localLogs []).

End Months.

Example availableEmployees_example :
  availableEmployees SummarySample.logs = ["7"; "Ali"; "Mona"]
  /\ availableMonths Sample.fnsParse SummarySample.logs = ["March 2024"].
Proof. split; vm_compute; reflexivity. Qed.

Lemma setAdd_In (x y : string) (values : list string) :
  In x (setAdd y values) <-> x = y \/ In x values.
Proof.
  unfold setAdd. destruct (existsb (String.eqb y) values) eqn:E.
  - split; [now right|]. intros [-> | H]; [| exact H].
    apply existsb_exists in E as [z [Hz Heq]].
    apply String.eqb_eq in Heq. now subst.
  - rewrite in_app_iff. cbn. split.
    + intros [H | [<- | []]]; [now right | now left].
    + intros [-> | H]; [right; now left | now left].
Qed.

Lemma insertBy_perm {X : Type} (before : X -> X -> bool) (x : X)
    (l : list X) :
  Permutation (insertBy before x l) (x :: l).
Proof.
  induction l as [|y rest IH]; cbn; [reflexivity|].
  destruct (before x y); [reflexivity|].
  rewrite IH. apply perm_swap.
Qed.

Lemma sortBy_perm {X : Type} (before : X -> X -> bool) (l : list X) :
  Permutation (sortBy before l) l.
Proof.
  unfold sortBy.
  assert (H : forall acc,
            Permutation
              (fold_left (fun sorted x => insertBy before x sorted) l acc)
              (acc ++ l)%list).
  { induction l as [|x l IH]; intros acc; cbn [fold_left].
    - now rewrite app_nil_r.
    - rewrite IH, insertBy_perm. apply Permutation_middle. }
  apply (H []).
Qed.

Lemma collected_In (pick : DayShift.t -> option string)
    (localLogs : list DayShift.t) (x : string) :
  forall values,
    In x (fold_left (fun values log =>
                       match pick log with
                       | Some v => setAdd v values
                       | None => values
                       end) localLogs values)
    <-> In x values \/ exists log, In log localLogs /\ pick log = Some x.
Proof.
  induction localLogs as [|log rest IH]; intros values; cbn [fold_left].
  - split; [now left | intros [H | (log & [] & _)]; exact H].
  - rewrite IH. destruct (pick log) as [v|] eqn:Hv.
    + rewrite setAdd_In. split.
      * intros [[-> | H] | (l & Hl & Hp)].
        -- right. exists log. split; [now left | exact Hv].
        -- now left.
        -- right. exists l. split; [now right | exact Hp].
      * intros [H | (l & [<- | Hl] & Hp)].
        -- left. now right.
        -- left. left. congruence.
        -- right. now exists l.
    + split.
      * intros [H | (l & Hl & Hp)]; [now left|].
        right. exists l. split; [now right | exact Hp].
      * intros [H | (l & [<- | Hl] & Hp)]; [now left | congruence |].
        right. now exists l.
Qed.

Lemma filter_not_nil {X : Type} (p : X -> bool) (l : list X) (x : X) :
  In x l -> p x = true -> List.filter p l <> [].
Proof.
  intros Hin Hp Hnil.
  assert (H : In x (List.filter p l)) by (apply filter_In; now split).
  rewrite Hnil in H. exact H.
Qed.

(** No option of the two selects leads to an empty ledger: after a reset
    of the filters, choosing any of the employees offered shows at least
    one row, and so does choosing any of the months offered, whatever
    order the host's parsing of the month texts puts them in. *)
Theorem every_option_shows_a_row (fnsParse : string -> string -> option Date)
    (localLogs : list DayShift.t) (f : Filters) :
  (forall e, In e (availableEmployees localLogs) ->
             filteredLogs (handle (handle f ClearFilters) (EmployeeChange e))
                          localLogs <> [])
  /\ (forall m, In m (availableMonths fnsParse localLogs) ->
                filteredLogs (handle (handle f ClearFilters) (MonthChange m))
                             localLogs <> []).
Proof.
  split.
  - intros e He. unfold availableEmployees in He.
    apply (Permutation_in _ (sortBy_perm _ _)) in He.
    change (In e (fold_left
                    (fun values log =>
                       match Some (DayShift.name log) with
                       | Some v => setAdd v values
                       | None => values
                       end) localLogs [])) in He.
    apply (collected_In (fun log => Some (DayShift.name log))) in He
      as [[] | (log & Hlog & [= Hname])].
    apply (filter_not_nil _ _ log Hlog).
    unfold monthMatches, matchesEmployee, matchesSearch, matchesCustomStart,
      matchesCustomEnd. cbn.
    change (toLowerCase "") with "". rewrite includes_empty, Hname.
    rewrite String.eqb_refl. now rewrite orb_true_r.
  - intros m Hm. unfold availableMonths in Hm.
    apply (Permutation_in _ (sortBy_perm _ _)) in Hm.
    apply (collected_In monthOf) in Hm as [[] | (log & Hlog & Hmonth)].
    apply (filter_not_nil _ _ log Hlog).
    unfold monthMatches, matchesEmployee, matchesSearch, matchesCustomStart,
      matchesCustomEnd, handle, clearFilters, handleMonthChange.
    unfold monthOf in Hmonth.
    destruct (String.eqb m "All Months") eqn:Hall; cbn.
    + rewrite Hall. cbn. change (toLowerCase "") with "".
      now rewrite includes_empty.
    + rewrite Hall. cbn. change (toLowerCase "") with "".
      rewrite includes_empty.
      destruct (logDateObj (DayShift.date log)) as [d|]; [| discriminate].
      cbn in Hmonth. injection Hmonth as ->.
      now rewrite String.eqb_refl.
Qed.

(** ** The totals of the earlier results component

    [tableTotals] and [financials] of the earlier results component
    ([src/components/PayrollResults.tsx], lines 141 to 172), over the
    rows that pass its filters: the footer of the ledger table and the
    figures of the dashboard. *)

Module LegacyResults.

Module TableTotals.
Record t := mk {
  workHours : Qc;
  latenessMinutes : Z;
  penalties : Qc;
  standard : Qc;
  ot : Qc;
  net : Qc;
  paid : Qc;
  remaining : Qc
}.
End TableTotals.


(** [x || 1] on a number *)
Definition orOne (x : Qc) : Qc := if Qc_eq_dec x 0%Qc then 1%Qc else x.

Definition sumShifts (f : Legacy.DayShift -> Qc) (logs : list Legacy.DayShift)
  : Qc :=
  fold_left (fun a b => (a + f b)%Qc) logs 0%Qc.

Module Financials.
Record t := mk {
  totalNetOwed : Qc;
  totalPaid : Qc;
  totalStandard : Qc;
  totalOT : Qc;
  totalPenalties : Qc;
  totalHours : Qc;
  totalLatenessMins : Z;
  totalDays : nat;
  remaining : Qc;
  otPercentage : Qc;
  penaltyDensity : Qc;
  avgLateness : Qc;
  attendanceScore : Qc
}.
End Financials.

Definition financials (filteredLogs : list Legacy.DayShift) : Financials.t :=
  let totalNetOwed := sumShifts Legacy.netPay filteredLogs in
  let totalPaid := sumShifts Legacy.amountPaid filteredLogs in
  let totalStandard := sumShifts Legacy.standardPay filteredLogs in
  let totalOT := sumShifts Legacy.otPay filteredLogs in
  let totalPenalties :=
    sumShifts (fun b => (Legacy.attendancePenalty b - Legacy.penaltyWaiver b
                         + Legacy.manualAdjustment b)%Qc) filteredLogs in
  let totalHours := sumShifts Legacy.workHours filteredLogs in
  let totalLatenessMins :=
    fold_left (fun a b => a + Legacy.latenessMinutes b) filteredLogs 0 in
  let totalDays := length filteredLogs in
  let perDay :=
    (num totalLatenessMins / orOne (num (Z.of_nat totalDays)))%Qc in
  Financials.mk totalNetOwed totalPaid totalStandard totalOT totalPenalties
    totalHours totalLatenessMins totalDays
    (totalNetOwed - totalPaid)%Qc
    (totalOT / orOne totalNetOwed * num 100)%Qc
    (totalPenalties / orOne totalStandard * num 100)%Qc
    perDay
    (let score := (num 100 - perDay * Q2Qc (25 # 10))%Qc in
     if Qclt_le_dec score 0 then 0%Qc else score).

End LegacyResults.







